(** * Homebase: onboarding-email duplicate guard and executive-coach lead
      sourcing

    A shallow embedding of [execution/send_onboarding_email_gmail.py] and
    [execution/source_executive_coach_leads.py], and the properties of the
    repository's specification checked against it.

    Conventions of the embedding.
    - A Python [str] is a [list ascii]; a character stands for the code
      point of the same number, so the model covers text whose code points
      are below 256.  [lower], [split] and [strip] follow Python on that
      range.
    - Python [int] is [Z]; [str.find] keeps its [-1].
    - Code that can raise returns a [result]; code that talks to the network
      is a function of an explicit [World].
    - Standard-library collaborators whose code is not part of the
      repository (the HTML tokenizer behind [HTMLParser.feed], [urlparse],
      [parse_qs], codecs, [html.unescape], [datetime.fromisoformat], the
      HTTP client) are fields of the [Platform] class or arguments, so every
      theorem holds for all of them.  [time.sleep] and [logging] have no
      effect on any value and are left out.
    - Time is an instant in microseconds since the epoch; the reading of
      the clock, [datetime.now(timezone.utc)], is an argument and is taken
      to be a [datetime]. *)

From Stdlib Require Import ZArith NArith Ascii String List Bool Lia.
From stdpp Require Import base list gmap strings.
Import ListNotations.

Local Open Scope Z_scope.

(* ===================================================================== *)
(** * Part I: definitions                                                 *)
(* ===================================================================== *)

(** ** Python strings *)

Abbreviation str := (list ascii).

Definition py (s : string) : str := list_ascii_of_string s.

Definition ord (c : ascii) : N := N_of_ascii c.

Definition chr (n : N) : ascii := ascii_of_N n.

(** The double-quote character. *)
Definition dquote : ascii := chr 34.

(** [len(s)] *)
Definition len {A} (l : list A) : Z := Z.of_nat (length l).

(** Truthiness of a string: [if s:] *)
Definition truthy (s : str) : bool :=
  match s with [] => false | _ :: _ => true end.

(** [c.isspace()] for code points below 256: TAB..CR, FS..US, space, NEL
    and NBSP. *)
Definition is_space (c : ascii) : bool :=
  let n := ord c in
  ((9 <=? n) && (n <=? 13) || (28 <=? n) && (n <=? 32)
   || (n =? 133) || (n =? 160))%N.

(** [c.lower()] for code points below 256: A-Z and the Latin-1 capitals
    (0xC0-0xDE without the multiplication sign 0xD7) move up by 32. *)
Definition lower_char (c : ascii) : ascii :=
  let n := ord c in
  if ((65 <=? n) && (n <=? 90)
      || (192 <=? n) && (n <=? 222) && negb (n =? 215))%N
  then chr (n + 32) else c.

Definition upper_char (c : ascii) : ascii :=
  let n := ord c in
  if ((97 <=? n) && (n <=? 122)
      || (224 <=? n) && (n <=? 254) && negb (n =? 247))%N
  then chr (n - 32) else c.

(** [s.lower()] *)
Definition lower (s : str) : str := map lower_char s.

(** [s.startswith(p)] *)
Fixpoint startswith (s p : str) {struct p} : bool :=
  match p, s with
  | [], _ => true
  | _ :: _, [] => false
  | a :: p', b :: s' => if Ascii.eqb a b then startswith s' p' else false
  end.

(** [sub in s] *)
Fixpoint contains (sub s : str) : bool :=
  startswith s sub ||
  match s with
  | [] => false
  | _ :: s' => contains sub s'
  end.

(** [s.find(sub)]: the lowest index where [sub] starts, [-1] when there is
    none. *)
Fixpoint find_from (pos : Z) (s sub : str) : Z :=
  if startswith s sub then pos
  else match s with
       | [] => -1
       | _ :: s' => find_from (pos + 1) s' sub
       end.

Definition find (s sub : str) : Z := find_from 0 s sub.

(** [s[start:stop]] for the non-negative bounds the sources use. *)
Definition slice (s : str) (start stop : Z) : str :=
  take (Z.to_nat stop - Z.to_nat start)%nat (drop (Z.to_nat start) s).

(** [s.split()]: the maximal runs of non-whitespace characters. *)
Fixpoint split_ws (s : str) : list str :=
  match s with
  | [] => []
  | c :: s' =>
      if is_space c then split_ws s'
      else match s' with
           | [] => [[c]]
           | d :: _ =>
               if is_space d then [c] :: split_ws s'
               else match split_ws s' with
                    | w :: ws => (c :: w) :: ws
                    | [] => [[c]]
                    end
           end
  end.

(** [sep.join(parts)] *)
Fixpoint join (sep : str) (parts : list str) : str :=
  match parts with
  | [] => []
  | [p] => p
  | p :: rest => p ++ sep ++ join sep rest
  end.

(** The separator [" "]. *)
Definition blank : str := py " ".

(** [" ".join(s.split())] *)
Definition collapse_ws (s : str) : str := join blank (split_ws s).

(** [s.lstrip()], [s.rstrip()], [s.strip()] *)
Fixpoint lstrip (s : str) : str :=
  match s with
  | c :: s' => if is_space c then lstrip s' else s
  | [] => []
  end.

Definition rstrip (s : str) : str := rev (lstrip (rev s)).

Definition strip (s : str) : str := rstrip (lstrip s).

(** [s.rstrip(chars)] *)
Fixpoint lstrip_chars (chars : str) (s : str) : str :=
  match s with
  | c :: s' => if bool_decide (c ∈ chars) then lstrip_chars chars s' else s
  | [] => []
  end.

Definition rstrip_chars (chars s : str) : str :=
  rev (lstrip_chars chars (rev s)).

(** [s.split(sep)[0]]: the text before the first occurrence of [sep]
    (all of [s] when there is none). *)
Fixpoint before_first (sep s : str) : str :=
  if startswith s sep then []
  else match s with
       | [] => []
       | c :: s' => c :: before_first sep s'
       end.

(** ** Exceptions *)

Inductive exn : Type :=
| re_error       (* [re.error]: a pattern that does not compile *)
| url_error      (* the HTTP request or the read of its body failed *)
| lookup_error   (* [LookupError]: unknown encoding *)
| fetch_error    (* [Exception("Failed to fetch URL")] *)
| value_error    (* [ValueError]: [urlparse] on a malformed authority *)
| type_error     (* [TypeError]: [datetime.fromisoformat(None)] *)
| overflow_error. (* [OverflowError]: date value out of range *)

Inductive result (A : Type) : Type :=
| Returned (a : A)
| Raised (e : exn).

Arguments Returned {A} a.
Arguments Raised {A} e.

Definition rbind {A B} (r : result A) (k : A -> result B) : result B :=
  match r with
  | Returned a => k a
  | Raised e => Raised e
  end.

(** ** The fragment of Python's [re] the sources use

    Patterns are written as syntax trees, one constructor per pattern token.
    Matching is the backtracking search of [re]: alternatives are tried in
    priority order (greedy repetition longest first, lazy repetition
    shortest first), and [re.search] takes the leftmost start that matches.
    A character-set range whose bounds are out of order is the one way a
    pattern of the sources fails to compile. *)

Module Re.

Inductive set_item : Type :=
| SChar (c : ascii)
| SRange (lo hi : ascii).

Inductive atom : Type :=
| ALit (c : ascii)                              (* a literal character *)
| AAny                                          (* [.] *)
| ASet (negated : bool) (items : list set_item). (* [[...]] and [[^...]] *)

Inductive regex : Type :=
| REps
| RAtom (a : atom)
| RSeq (r1 r2 : regex)
| RStar (greedy : bool) (a : atom)   (* [a*] and [a*?] *)
| ROpt (r : regex)                   (* [r?] *)
| RGroup (r : regex).                (* the capturing group 1 *)

Record flags : Type := { ignorecase : bool; dotall : bool }.

Definition no_flags : flags := {| ignorecase := false; dotall := false |}.

(** [a+] *)
Definition plus (a : atom) : regex := RSeq (RAtom a) (RStar true a).

(** A run of literal characters. *)
Definition lits_of (s : str) : regex :=
  foldr (fun c r => RSeq (RAtom (ALit c)) r) REps s.

Definition lits (s : string) : regex := lits_of (py s).

Definition seq (rs : list regex) : regex := foldr RSeq REps rs.

(** Compilation: every range must have [lo <= hi]. *)
Definition item_ok (i : set_item) : bool :=
  match i with
  | SChar _ => true
  | SRange lo hi => (ord lo <=? ord hi)%N
  end.

Definition atom_ok (a : atom) : bool :=
  match a with
  | ASet _ items => forallb item_ok items
  | _ => true
  end.

Fixpoint compiles (r : regex) : bool :=
  match r with
  | REps => true
  | RAtom a | RStar _ a => atom_ok a
  | RSeq r1 r2 => compiles r1 && compiles r2
  | ROpt r' | RGroup r' => compiles r'
  end.

Definition in_item (c : ascii) (i : set_item) : bool :=
  match i with
  | SChar x => Ascii.eqb x c
  | SRange lo hi => ((ord lo <=? ord c) && (ord c <=? ord hi))%N
  end.

Definition in_items (fl : flags) (c : ascii) (items : list set_item) : bool :=
  existsb (in_item c) items ||
  (ignorecase fl &&
   (existsb (in_item (lower_char c)) items
    || existsb (in_item (upper_char c)) items)).

Definition atom_matches (fl : flags) (a : atom) (c : ascii) : bool :=
  match a with
  | ALit x =>
      if ignorecase fl then Ascii.eqb (lower_char x) (lower_char c)
      else Ascii.eqb x c
  | AAny => dotall fl || negb (Ascii.eqb c "010"%char)
  | ASet negated items => xorb negated (in_items fl c items)
  end.

Section Matcher.
Context {A : Type}.

Fixpoint star_greedy (p : ascii -> bool) (s : str) (k : str -> option A)
  : option A :=
  match s with
  | c :: s' =>
      if p c then
        match star_greedy p s' k with
        | Some r => Some r
        | None => k s
        end
      else k s
  | [] => k []
  end.

Fixpoint star_lazy (p : ascii -> bool) (s : str) (k : str -> option A)
  : option A :=
  match k s with
  | Some r => Some r
  | None =>
      match s with
      | c :: s' => if p c then star_lazy p s' k else None
      | [] => None
      end
  end.

(** [run fl r s cap k]: match [r] at the head of [s]; [k] receives the
    unread rest and the text of group 1, and may refuse, which makes the
    matcher backtrack. *)
Fixpoint run (fl : flags) (r : regex) (s : str) (cap : option str)
    (k : str -> option str -> option A) : option A :=
  match r with
  | REps => k s cap
  | RAtom a =>
      match s with
      | c :: s' => if atom_matches fl a c then k s' cap else None
      | [] => None
      end
  | RSeq r1 r2 => run fl r1 s cap (fun s1 cap1 => run fl r2 s1 cap1 k)
  | RStar greedy a =>
      (if greedy then star_greedy else star_lazy)
        (atom_matches fl a) s (fun s' => k s' cap)
  | ROpt r' =>
      match run fl r' s cap k with
      | Some x => Some x
      | None => k s cap
      end
  | RGroup r' =>
      run fl r' s cap
        (fun s' _ => k s' (Some (take (length s - length s')%nat s)))
  end.

End Matcher.

(** A match object: where it starts, how long it is, and group 1. *)
Record rmatch : Type := { m_start : nat; m_len : nat; m_group1 : option str }.

Definition match_at (fl : flags) (r : regex) (s : str)
  : option (nat * option str) :=
  run fl r s None (fun s' cap => Some ((length s - length s')%nat, cap)).

Fixpoint search_from (fl : flags) (r : regex) (pos : nat) (s : str)
  : option rmatch :=
  match match_at fl r s with
  | Some (n, g) => Some {| m_start := pos; m_len := n; m_group1 := g |}
  | None =>
      match s with
      | [] => None
      | _ :: s' => search_from fl r (S pos) s'
      end
  end.

(** [re.search(pattern, s, flags)]: [None] is Python's [None]. *)
Definition search (fl : flags) (r : regex) (s : str) : result (option rmatch) :=
  if compiles r then Returned (search_from fl r 0%nat s) else Raised re_error.

(** [match.group(0)] and [match.group(1)] *)
Definition group0 (s : str) (m : rmatch) : str :=
  take (m_len m) (drop (m_start m) s).

Definition group1 (m : rmatch) : str := default [] (m_group1 m).

(** [re.sub(pattern, repl, s)] for a pattern that cannot match the empty
    string: [skip] counts the characters of the current match still to be
    dropped. *)
Fixpoint sub_loop (fl : flags) (r : regex) (repl : str) (skip : nat) (s : str)
  : str :=
  match s with
  | [] => []
  | c :: s' =>
      match skip with
      | S n => sub_loop fl r repl n s'
      | O =>
          match match_at fl r s with
          | Some (S n, _) => repl ++ sub_loop fl r repl n s'
          | _ => c :: sub_loop fl r repl O s'
          end
      end
  end.

Definition sub (fl : flags) (r : regex) (repl s : str) : result str :=
  if compiles r then Returned (sub_loop fl r repl 0%nat s) else Raised re_error.

End Re.

(** ** [base64.urlsafe_b64decode]

    The decoder behind it ([binascii.a2b_base64], not in strict mode) skips
    every character outside the alphabet, stops at a padding sequence that
    completes a quad, and fails when the data characters do not fill their
    last quad.  The bytes of a [str] character above 127 are all outside the
    alphabet, so decoding the characters is decoding the encoded bytes. *)

Definition b64_value (c : ascii) : option N :=
  let n := ord c in
  (if (65 <=? n) && (n <=? 90) then Some (n - 65)
   else if (97 <=? n) && (n <=? 122) then Some (n - 71)
   else if (48 <=? n) && (n <=? 57) then Some (n + 4)
   else if (n =? 43) || (n =? 45) then Some 62      (* + and, url-safe, - *)
   else if (n =? 47) || (n =? 95) then Some 63      (* / and, url-safe, _ *)
   else None)%N.

Fixpoint a2b_base64 (s : str) (quad_pos leftchar pads : N) (out : list ascii)
  : option (list ascii) :=
  match s with
  | [] => if (quad_pos =? 0)%N then Some out else None
  | c :: s' =>
      if Ascii.eqb c "="%char then
        if (2 <=? quad_pos)%N then
          if (4 <=? quad_pos + (pads + 1))%N then Some out
          else a2b_base64 s' quad_pos leftchar (pads + 1)%N out
        else a2b_base64 s' quad_pos leftchar pads out
      else
        match b64_value c with
        | None => a2b_base64 s' quad_pos leftchar pads out
        | Some v =>
            (if quad_pos =? 0 then a2b_base64 s' 1 v 0 out
             else if quad_pos =? 1 then
               a2b_base64 s' 2 (N.land v 15) 0
                 (out ++ [chr (N.lor (N.shiftl leftchar 2) (N.shiftr v 4))])
             else if quad_pos =? 2 then
               a2b_base64 s' 3 (N.land v 3) 0
                 (out ++ [chr (N.lor (N.shiftl leftchar 4) (N.shiftr v 2))])
             else
               a2b_base64 s' 0 0 0
                 (out ++ [chr (N.lor (N.shiftl leftchar 6) v)]))%N
        end
  end.

(** [None] is [binascii.Error]. *)
Definition urlsafe_b64decode (s : str) : option (list ascii) :=
  a2b_base64 s 0 0 0 [].

(** ** [urllib.parse.quote_plus] *)

Definition hex_digit (n : N) : ascii :=
  nth (N.to_nat n) (py "0123456789ABCDEF") "0"%char.

Definition percent (b : N) : str :=
  ["%"%char; hex_digit (b / 16); hex_digit (b mod 16)].

Definition is_unreserved (c : ascii) : bool :=
  let n := ord c in
  ((65 <=? n) && (n <=? 90) || (97 <=? n) && (n <=? 122)
   || (48 <=? n) && (n <=? 57))%N
  || bool_decide (c ∈ py "_.-~").

Definition quote_plus_char (c : ascii) : str :=
  if Ascii.eqb c " "%char then py "+"
  else if is_unreserved c then [c]
  else if (ord c <? 128)%N then percent (ord c)
  else percent (192 + ord c / 64) ++ percent (128 + ord c mod 64).

Definition quote_plus (s : str) : str := concat (map quote_plus_char s).

(* ===================================================================== *)
(** ** execution/send_onboarding_email_gmail.py                           *)
(* ===================================================================== *)

(** A [datetime]: the wall-clock reading in microseconds since the epoch and
    the UTC offset of its [tzinfo] ([None] for a naive value). *)
Record datetime : Type := { wall_us : Z; utcoffset_us : option Z }.

(** [if sent_at.tzinfo is None: sent_at = sent_at.replace(tzinfo=timezone.utc)] *)
Definition assume_utc (d : datetime) : datetime :=
  match utcoffset_us d with
  | None => {| wall_us := wall_us d; utcoffset_us := Some 0 |}
  | Some _ => d
  end.

(** The instant an aware [datetime] denotes; aware values compare by it. *)
Definition instant (d : datetime) : Z := wall_us d - default 0 (utcoffset_us d).

(** [timedelta(hours=h)] in microseconds. *)
Definition hours_us (h : Z) : Z := h * 3600 * 1000000.

(** [datetime.min] and [datetime.max], read as UTC. *)
Definition DATETIME_MIN_US : Z := -62135596800000000.
Definition DATETIME_MAX_US : Z := 253402300799999999.

Definition in_datetime_range (t : Z) : bool :=
  (DATETIME_MIN_US <=? t) && (t <=? DATETIME_MAX_US).

(** [now - timedelta(hours=h)]: [OverflowError] when the result is no
    [datetime]. *)
Definition minus_hours (now h : Z) : result Z :=
  let t := now - hours_us h in
  if in_datetime_range t then Returned t else Raised overflow_error.

Module SendLog.

(** A row as [csv.DictReader] yields it: column name to cell.  The cell of
    a column the line is too short for is [None]. *)
Abbreviation row := (gmap str (option str)).

(** [row.get(key, default)] with the empty string as default; the result
    [None] is Python's [None]. *)
Definition get_or_empty (r : row) (key : string) : option str :=
  match r !! py key with
  | Some cell => cell
  | None => Some []
  end.

(** [row.get(key) == value] *)
Definition field_is (r : row) (key : string) (value : str) : bool :=
  bool_decide (r !! py key = Some (Some value)).

Section Guard.
(** [datetime.fromisoformat] on a string: [None] is [ValueError]. *)
Variable fromisoformat : str -> option datetime.
(** [datetime.now(timezone.utc)], as an instant. *)
Variable now : Z.

Section Rows.
Variables recipient subject sender template_version : str.
Variable cutoff : Z.

(** The body of [for row in reader]. *)
Fixpoint scan (rows : list row) : result bool :=
  match rows with
  | [] => Returned false
  | r :: rest =>
      match get_or_empty r "timestamp_utc" with
      | None => Raised type_error             (* not caught: only ValueError is *)
      | Some timestamp =>
          match fromisoformat timestamp with
          | None => scan rest                                (* ValueError *)
          | Some parsed =>
              let sent_at := assume_utc parsed in
              if instant sent_at <? cutoff then scan rest
              else if field_is r "recipient" recipient
                      && field_is r "subject" subject
                      && field_is r "sender" sender
                      && field_is r "template_version" template_version
                   then Returned true
                   else scan rest
          end
      end
  end.

End Rows.

(** [log] is the content of the file at [log_path]: [None] when
    [os.path.exists(log_path)] is false. *)
Definition should_skip_send (log : option (list row))
    (recipient subject sender template_version : str) (window_hours : Z)
  : result bool :=
  match log with
  | None => Returned false
  | Some rows =>
      rbind (minus_hours now window_hours) (fun cutoff =>
      scan recipient subject sender template_version cutoff rows)
  end.

End Guard.
End SendLog.

(* ===================================================================== *)
(** ** execution/source_executive_coach_leads.py                          *)
(* ===================================================================== *)

Definition MAX_RETRIES : nat := 3.

Definition EAST_COAST_STATES : list (str * str) :=
  map (fun p => (py (fst p), py (snd p)))
    [ ("Maine", "ME"); ("New Hampshire", "NH"); ("Vermont", "VT");
      ("Massachusetts", "MA"); ("Rhode Island", "RI"); ("Connecticut", "CT");
      ("New York", "NY"); ("New Jersey", "NJ"); ("Pennsylvania", "PA");
      ("Delaware", "DE"); ("Maryland", "MD"); ("District of Columbia", "DC");
      ("Virginia", "VA"); ("North Carolina", "NC"); ("South Carolina", "SC");
      ("Georgia", "GA"); ("Florida", "FL") ]%string.

Definition SEARCH_SEEDS : list str :=
  map py [ "executive coach"; "leadership coach"; "executive coaching" ]%string.

Definition EAST_COAST_CITIES : list str :=
  map py
    [ "New York, NY"; "Boston, MA"; "Philadelphia, PA"; "Washington, DC";
      "Baltimore, MD"; "Richmond, VA"; "Raleigh, NC"; "Charlotte, NC";
      "Atlanta, GA"; "Miami, FL"; "Orlando, FL"; "Tampa, FL" ]%string.

Definition EXCLUDE_KEYWORDS : list str :=
  map py
    [ "software"; "engineering"; "technical"; "developer"; "devops";
      "product manager"; "cto"; "cio"; "it" ]%string.

Definition SPECIALTY_KEYWORDS : list str :=
  map py
    [ "leadership"; "c-suite"; "ceo"; "founder"; "team"; "organizational";
      "career"; "communication"; "strategy"; "performance"; "women leaders";
      "executive presence"; "succession" ]%string.

Record Lead : Type := {
  name : str;
  role : str;
  website_url : str;
  linkedin_url : str;
  location : str;
  specialty : str;
  evidence : str
}.

(** *** The event stream of [html.parser.HTMLParser]

    [feed] turns markup into calls of [handle_starttag], [handle_endtag] and
    [handle_data]; an empty-element tag arrives as a start followed by an
    end.  Comments, declarations and processing instructions go to handlers
    neither parser overrides, so they are not events here. *)

Inductive event : Type :=
| StartTag (tag : str) (attrs : list (str * option str))
| EndTag (tag : str)
| Data (data : str).

(** [dict(attrs)]: a later pair for the same name replaces an earlier one. *)
Definition attrs_dict (attrs : list (str * option str)) : gmap str (option str) :=
  fold_left (fun d kv => <[fst kv := snd kv]> d) attrs ∅.

Module BingResultParser.

Record state : Type := { links : list str; in_result : bool }.

Definition init : state := {| links := []; in_result := false |}.

Definition handle_starttag (self : state) (tag : str)
    (attrs : list (str * option str)) : state :=
  let d := attrs_dict attrs in
  if bool_decide (tag = py "li")
     && bool_decide (is_Some (d !! py "class"))
     && contains (py "b_algo") (default [] (default None (d !! py "class")))
  then {| links := links self; in_result := true |}
  else if bool_decide (tag = py "a") && in_result self then
    match default None (d !! py "href") with
    | Some href =>
        if truthy href
        then {| links := links self ++ [href]; in_result := in_result self |}
        else self
    | None => self
    end
  else self.

Definition handle_endtag (self : state) (tag : str) : state :=
  if bool_decide (tag = py "li") && in_result self
  then {| links := links self; in_result := false |}
  else self.

Definition handle (self : state) (e : event) : state :=
  match e with
  | StartTag tag attrs => handle_starttag self tag attrs
  | EndTag tag => handle_endtag self tag
  | Data _ => self
  end.

Definition feed (self : state) (events : list event) : state :=
  fold_left handle events self.

End BingResultParser.

Module TextExtractor.

Record state : Type := { parts : list str; skip_depth : nat }.

Definition init : state := {| parts := []; skip_depth := 0 |}.

Definition is_skipped (tag : str) : bool :=
  bool_decide (tag = py "script") || bool_decide (tag = py "style").

Definition handle_starttag (self : state) (tag : str) : state :=
  if is_skipped tag
  then {| parts := parts self; skip_depth := S (skip_depth self) |}
  else self.

Definition handle_endtag (self : state) (tag : str) : state :=
  if is_skipped tag && (0 <? skip_depth self)%nat
  then {| parts := parts self; skip_depth := pred (skip_depth self) |}
  else self.

Definition handle_data (self : state) (data : str) : state :=
  if (0 <? skip_depth self)%nat then self
  else let cleaned := collapse_ws data in
       if truthy cleaned
       then {| parts := parts self ++ [cleaned]; skip_depth := skip_depth self |}
       else self.

Definition handle (self : state) (e : event) : state :=
  match e with
  | StartTag tag _ => handle_starttag self tag
  | EndTag tag => handle_endtag self tag
  | Data d => handle_data self d
  end.

Definition feed (self : state) (events : list event) : state :=
  fold_left handle events self.

Definition text (self : state) : str := join blank (parts self).

End TextExtractor.

(** *** The platform: network and standard library *)

(** What one HTTP exchange hands to [fetch_url]: the [Content-Type] header
    (empty when absent) and the bytes of the body. *)
Record response : Type := { content_type : str; body : list ascii }.

Record url_parts : Type := { netloc : str; query : str }.

Class Platform (World : Type) : Type := {
  (** [urlopen(request, timeout=...)] and [response.read()]; [None] when
      either raises. *)
  urlopen : str -> World -> option response * World;
  (** [data.decode(encoding, errors="replace")]; [None] is [LookupError]. *)
  bytes_decode : str -> list ascii -> option str;
  (** The handler calls [HTMLParser.feed] makes for a document. *)
  html_events : str -> list event;
  (** [urlparse(link)], of which the sources read [netloc] and [query];
      [None] is [ValueError]. *)
  urlparse : str -> option url_parts;
  (** [parse_qs(query)]: parameter name to its values, in order. *)
  parse_qs : str -> gmap str (list str);
  (** [html.unescape] *)
  html_unescape : str -> str
}.

(** Computations that use the network: state passing over the world, with
    exceptions. *)
Definition M (World A : Type) : Type := World -> result A * World.

Definition ret {World A} (a : A) : M World A := fun w => (Returned a, w).

Definition raise {World A} (e : exn) : M World A := fun w => (Raised e, w).

Definition bind {World A B} (m : M World A) (k : A -> M World B) : M World B :=
  fun w =>
    match m w with
    | (Returned a, w') => k a w'
    | (Raised e, w') => (Raised e, w')
    end.

(** A pure computation that may raise, run inside [M]. *)
Definition lift {World A} (r : result A) : M World A := fun w => (r, w).

(** [try: m  except Exception: handler] *)
Definition try_except {World A} (m : M World A) (handler : exn -> M World A)
  : M World A :=
  fun w =>
    match m w with
    | (Returned a, w') => (Returned a, w')
    | (Raised e, w') => handler e w'
    end.

Notation "'do' x <- m ; k" := (bind m (fun x => k))
  (at level 10, x name, m at level 100, k at level 200).

(** *** Patterns, token by token as the source spells them.  The source
    writes them in raw strings with doubled backslashes, so each [\\] is the
    pattern "backslash", not the start of a class escape. *)

Definition ic_dotall : Re.flags := {| Re.ignorecase := true; Re.dotall := true |}.
Definition ic : Re.flags := {| Re.ignorecase := true; Re.dotall := false |}.

Definition not_gt : Re.atom := Re.ASet true [Re.SChar ">"%char].

(** [charset=([\\w-]+)] *)
Definition charset_re : Re.regex :=
  Re.seq [ Re.lits "charset=";
           Re.RGroup (Re.plus (Re.ASet false
             [Re.SChar "\"%char; Re.SChar "w"%char; Re.SChar "-"%char])) ].

(** [<title[^>]*>(.*?)</title>] *)
Definition title_re : Re.regex :=
  Re.seq [ Re.lits "<title"; Re.RStar true not_gt; Re.lits ">";
           Re.RGroup (Re.RStar false Re.AAny); Re.lits "</title>" ].

(** [<h1[^>]*>(.*?)</h1>] *)
Definition h1_re : Re.regex :=
  Re.seq [ Re.lits "<h1"; Re.RStar true not_gt; Re.lits ">";
           Re.RGroup (Re.RStar false Re.AAny); Re.lits "</h1>" ].

(** [<[^>]+>] *)
Definition tag_re : Re.regex :=
  Re.seq [ Re.lits "<"; Re.plus not_gt; Re.lits ">" ].

(** [https?://(?:www\\.)?linkedin\\.com/[\\w\\-/%?=&#.]+]: in the set,
    [\\] is a backslash, [w] a letter, and the second [\\] opens the range
    [\\-/], from backslash (92) down to slash (47). *)
Definition linkedin_re : Re.regex :=
  Re.seq [ Re.lits "http"; Re.ROpt (Re.lits "s"); Re.lits "://";
           Re.ROpt (Re.seq [Re.lits "www\"; Re.RAtom Re.AAny]);
           Re.lits "linkedin\"; Re.RAtom Re.AAny; Re.lits "com/";
           Re.plus (Re.ASet false
             [ Re.SChar "\"%char; Re.SChar "w"%char;
               Re.SRange "\"%char "/"%char;
               Re.SChar "%"%char; Re.SChar "?"%char; Re.SChar "="%char;
               Re.SChar "&"%char; Re.SChar "#"%char; Re.SChar "."%char ]) ].

Definition upper_AZ : Re.atom := Re.ASet false [Re.SRange "A"%char "Z"%char].
Definition lower_az : Re.atom := Re.ASet false [Re.SRange "a"%char "z"%char].

(** [\\b([A-Z][a-z]+(?:\\s+[A-Z][a-z]+)?),\\s*{state_abbr}\\b]: [\\b] is a
    backslash and the letter b; [\\s+] a backslash and one or more s. *)
Definition location_re (state_abbr : str) : Re.regex :=
  Re.seq [ Re.lits "\b";
           Re.RGroup (Re.seq
             [ Re.RAtom upper_AZ; Re.plus lower_az;
               Re.ROpt (Re.seq [ Re.lits "\"; Re.plus (Re.ALit "s"%char);
                                 Re.RAtom upper_AZ; Re.plus lower_az ]) ]);
           Re.lits ","; Re.lits "\"; Re.RStar true (Re.ALit "s"%char);
           Re.lits_of state_abbr; Re.lits "\b" ].

(** *** Field extractors that need no platform *)

Definition contains_excluded_keywords (text : str) : bool :=
  let lower := lower text in
  existsb (fun keyword => contains keyword lower) EXCLUDE_KEYWORDS.

Definition looks_like_executive_coach (text : str) : bool :=
  let lower := lower text in
  contains (py "executive coach") lower
  || contains (py "executive coaching") lower
  || contains (py "leadership coach") lower.

(** The two [continue] tests of [build_candidates], lines 369-374. *)
Definition qualifies (text : str) : bool :=
  looks_like_executive_coach text && negb (contains_excluded_keywords text).

Definition extract_linkedin (html_text : str) : result str :=
  rbind (Re.search ic linkedin_re html_text) (fun m =>
  match m with
  | Some m => Returned (rstrip_chars (py ").,") (Re.group0 html_text m))
  | None => Returned []
  end).

Fixpoint extract_location_loop (states : list (str * str)) (text : str)
  : result str :=
  match states with
  | [] => Returned []
  | (state_name, state_abbr) :: rest =>
      rbind (Re.search Re.no_flags (location_re state_abbr) text) (fun m =>
      match m with
      | Some m => Returned (Re.group1 m ++ py ", " ++ state_abbr)
      | None =>
          if contains (lower state_name) (lower text) then Returned state_name
          else extract_location_loop rest text
      end)
  end.

Definition extract_location (text : str) : result str :=
  extract_location_loop EAST_COAST_STATES text.

Definition extract_specialty (text : str) : str :=
  let lower := lower text in
  let found := filter (fun keyword => contains keyword lower = true) SPECIALTY_KEYWORDS in
  match found with
  | [] => []
  | _ => join (py ", ") (take 3 found)
  end.

Definition EVIDENCE_PHRASES : list str :=
  map py [ "executive coach"; "executive coaching"; "leadership coach" ]%string.

(** [text[max(0, idx - 60) : min(len(text), idx + 120)]] *)
Definition evidence_window (text : str) (idx : Z) : str :=
  slice text (Z.max 0 (idx - 60)) (Z.min (len text) (idx + 120)).

Fixpoint extract_evidence_loop (phrases : list str) (text lowered : str) : str :=
  match phrases with
  | [] => []
  | phrase :: rest =>
      let idx := find lowered phrase in
      if negb (idx =? -1) then collapse_ws (evidence_window text idx)
      else extract_evidence_loop rest text lowered
  end.

Definition extract_evidence (text : str) : str :=
  extract_evidence_loop EVIDENCE_PHRASES text (lower text).

(** The separators of [guess_name].  The source lists a fourth one, the
    em dash U+2014, between ["-"] and [":"]; no text of this model contains
    it, so its test never succeeds here. *)
Definition NAME_SEPARATORS : list str := map py [ "|"; "-"; ":" ]%string.

Definition guess_name (title h1 : str) : str :=
  let candidate := if truthy h1 then h1 else title in
  if negb (truthy candidate) then []
  else
    let candidate :=
      match List.find (fun sep => contains sep candidate) NAME_SEPARATORS with
      | Some sep => before_first sep candidate
      | None => candidate
      end in
    strip (collapse_ws candidate).

Section Pipeline.
Context {World : Type} `{!Platform World}.

(** One pass of the [try] block of [fetch_url]. *)
Definition fetch_attempt (url : str) : M World str :=
  fun w =>
    match urlopen url w with
    | (None, w') => (Raised url_error, w')
    | (Some resp, w') =>
        match Re.search Re.no_flags charset_re (content_type resp) with
        | Raised e => (Raised e, w')
        | Returned charset_match =>
            let encoding :=
              match charset_match with
              | Some m => Re.group1 m
              | None => py "utf-8"
              end in
            match bytes_decode encoding (body resp) with
            | Some text => (Returned text, w')
            | None => (Raised lookup_error, w')
            end
        end
    end.

(** [for attempt in range(retries)] with its [except Exception]. *)
Fixpoint fetch_loop (attempts : nat) (last_error : option exn) (url : str)
  : M World str :=
  match attempts with
  | O => raise (default fetch_error last_error)
  | S n =>
      try_except (fetch_attempt url) (fun exc => fetch_loop n (Some exc) url)
  end.

Definition fetch_url (url : str) : M World str := fetch_loop MAX_RETRIES None url.

Definition extract_title (html_text : str) : result str :=
  rbind (Re.search ic_dotall title_re html_text) (fun m =>
  match m with
  | None => Returned []
  | Some m => Returned (strip (html_unescape (Re.group1 m)))
  end).

Definition extract_h1 (html_text : str) : result str :=
  rbind (Re.search ic_dotall h1_re html_text) (fun m =>
  match m with
  | None => Returned []
  | Some m =>
      rbind (Re.sub Re.no_flags tag_re (py " ") (Re.group1 m)) (fun text =>
      Returned (strip (html_unescape (collapse_ws text))))
  end).

(** [urlparse(link)] with its exception. *)
Definition parse_url (link : str) : result url_parts :=
  match urlparse link with
  | Some parsed => Returned parsed
  | None => Raised value_error
  end.

(** [parse_qs(parsed.query).get("u", [""])[0]], lines 213-214: the first
    value of the parameter [u], the empty string without one. *)
Definition u_param (parsed : url_parts) : str :=
  let query := parse_qs (query parsed) in
  default [] (head (default [[]] (query !! py "u"))).

Definition normalize_bing_link (link : str) : result str :=
  if negb (contains (py "bing.com/ck/a") link) then Returned link
  else
    rbind (parse_url link) (fun parsed =>
    let encoded := u_param parsed in
    if negb (truthy encoded) then Returned link
    else
      let encoded :=
        if startswith encoded (py "a1") then drop 2 encoded else encoded in
      let padded :=
        encoded ++ repeat "="%char (Z.to_nat ((- len encoded) mod 4)) in
      match urlsafe_b64decode padded with
      | None => Returned link                          (* binascii.Error *)
      | Some bytes =>
          match bytes_decode (py "utf-8") bytes with
          | None => Returned link
          | Some decoded =>
              if startswith decoded (py "http") then Returned decoded
              else Returned link
          end
      end).

(** The [for link in parser.links] loop of [bing_search]. *)
Fixpoint collect_results (max_results : Z) (links : list str)
    (results : list str) (seen : gset str) : result (list str) :=
  match links with
  | [] => Returned results
  | link :: rest =>
      rbind (normalize_bing_link link) (fun normalized =>
      if negb (startswith normalized (py "http"))
      then collect_results max_results rest results seen
      else if bool_decide (normalized ∈ seen)
      then collect_results max_results rest results seen
      else
        let seen := {[normalized]} ∪ seen in
        let results := results ++ [normalized] in
        if max_results <=? len results then Returned results
        else collect_results max_results rest results seen)
  end.

Definition bing_search (query : str) (max_results : Z) : M World (list str) :=
  let url := py "https://www.bing.com/search?q=" ++ quote_plus query in
  do html_text <- fetch_url url;
  let parser := BingResultParser.feed BingResultParser.init (html_events html_text) in
  lift (collect_results max_results (BingResultParser.links parser) [] ∅).

Definition search_linkedin (name : str) : M World str :=
  if negb (truthy name) then ret []
  else
    let query := dquote :: name ++ dquote :: py " executive coach LinkedIn" in
    try_except
      (do results <- bing_search query 5;
       ret (default []
              (List.find (fun link => contains (py "linkedin.com/in") (lower link))
                 results)))
      (fun _ => ret []).

End Pipeline.

(** *** The candidate pipeline *)

Definition search_targets : list str :=
  EAST_COAST_CITIES ++ map fst EAST_COAST_STATES.

(** The local variables of [build_candidates]. *)
Record locals : Type := { leads : list Lead; seen_domains : gset str }.

(** How a pass through a loop body ends: fall through to the next
    iteration, or [return leads] out of the function. *)
Inductive flow : Type :=
| Next (st : locals)
| Return (found : list Lead).

Section Candidates.
Context {World : Type} `{!Platform World}.

(** [build_candidates] calls the module's [extract_linkedin]; the loops
    below take the extractor as [profile_link], and [build_candidates]
    passes [extract_linkedin]. *)
Variable profile_link : str -> result str.

(** Lines 351-396: the body of [for link in results] after the limit
    test. *)
Definition process_link (target link : str) (st : locals) : M World locals :=
  do parsed <- lift (parse_url link);
  let domain := lower (netloc parsed) in
  if negb (truthy domain) || bool_decide (domain ∈ seen_domains st) then ret st
  else if contains (py "linkedin.com") domain then ret st
  else
    let st := {| leads := leads st; seen_domains := {[domain]} ∪ seen_domains st |} in
    do fetched <-
      try_except (do html_text <- fetch_url link; ret (Some html_text))
                 (fun _ => ret None);
    match fetched with
    | None => ret st                                     (* continue *)
    | Some html_text =>
       do title <- lift (extract_title html_text);
       do h1 <- lift (extract_h1 html_text);
       let text_extractor :=
         TextExtractor.feed TextExtractor.init (html_events html_text) in
       let text := TextExtractor.text text_extractor in
       if negb (looks_like_executive_coach text) then ret st
       else if contains_excluded_keywords text then ret st
       else
         let name := guess_name title h1 in
         do location <- lift (extract_location text);
         let location :=
           if negb (truthy location) && contains (py ",") target then target
           else if negb (truthy location) then target
           else location in
         do linkedin_url <- lift (profile_link html_text);
         do linkedin_url <-
           (if negb (truthy linkedin_url) then search_linkedin name
            else ret linkedin_url);
         let specialty := extract_specialty text in
         let evidence := extract_evidence text in
         let lead :=
           {| name := if truthy name then name else py "Unknown";
              role := py "Executive Coach";
              website_url := link;
              linkedin_url := linkedin_url;
              location := location;
              specialty := specialty;
              evidence := evidence |} in
         ret {| leads := leads st ++ [lead]; seen_domains := seen_domains st |}
    end.

(** [for link in results], lines 348-396. *)
Fixpoint links_loop (limit : Z) (target : str) (results : list str)
    (st : locals) : M World flow :=
  match results with
  | [] => ret (Next st)
  | link :: rest =>
      if limit <=? len (leads st) then ret (Return (leads st))
      else
        do st <- process_link target link st;
        links_loop limit target rest st
  end.

(** [for seed in SEARCH_SEEDS], lines 338-396. *)
Fixpoint seeds_loop (limit : Z) (target : str) (seeds : list str)
    (st : locals) : M World flow :=
  match seeds with
  | [] => ret (Next st)
  | seed :: rest =>
      if limit <=? len (leads st) then ret (Return (leads st))
      else
        let query := dquote :: seed ++ dquote :: py " " ++ dquote :: target ++ [dquote] in
        do searched <-
          try_except (do results <- bing_search query 10; ret (Some results))
                     (fun _ => ret None);
        match searched with
        | None => seeds_loop limit target rest st          (* continue *)
        | Some results =>
            do outcome <- links_loop limit target results st;
            match outcome with
            | Return found => ret (Return found)
            | Next st => seeds_loop limit target rest st
            end
        end
  end.

(** [for target in search_targets], lines 337-397. *)
Fixpoint targets_loop (limit : Z) (targets : list str) (st : locals)
  : M World flow :=
  match targets with
  | [] => ret (Next st)
  | target :: rest =>
      do outcome <- seeds_loop limit target SEARCH_SEEDS st;
      match outcome with
      | Return found => ret (Return found)
      | Next st => targets_loop limit rest st
      end
  end.

Definition build_candidates_with (limit : Z) : M World (list Lead) :=
  do outcome <- targets_loop limit search_targets {| leads := []; seen_domains := ∅ |};
  match outcome with
  | Return found => ret found
  | Next st => ret (leads st)
  end.

End Candidates.

(** [build_candidates(limit)] *)
Definition build_candidates {World : Type} `{!Platform World} (limit : Z)
  : M World (list Lead) :=
  build_candidates_with extract_linkedin limit.

(* ===================================================================== *)
(** ** Documents as trees                                                 *)
(* ===================================================================== *)

(** A parsed document: text nodes, elements with their children, and the
    tags that come alone, a start tag nothing closes (as [<br>] or an
    unclosed [<p>]) and an end tag that closes nothing.  The events of a
    document are what a tokenizer reports for it, in document order. *)
#[local] Unset Elimination Schemes.
#[local] Set Elimination Schemes.






(** What [handle_data] keeps of a run of text nodes: each one collapsed,
    the empty ones dropped. *)
Definition cleaned (texts : list str) : list str :=
  List.filter truthy (map collapse_ws texts).


(* ===================================================================== *)
(** ** Test doubles                                                       *)
(* ===================================================================== *)

(** Stand-ins for the platform, used by the worked examples: a site map in
    place of the network, and small parsers that agree with the standard
    library on the plain ASCII pages and links of the examples. *)
Module Stub.

Definition flush_text (acc : str) : list event :=
  match acc with
  | [] => []
  | _ => [Data (rev acc)]
  end.

Definition unquote (v : str) : str :=
  match v with
  | q :: rest =>
      if Ascii.eqb q "'"%char then removelast rest else v
  | [] => []
  end.

Definition parse_attr (w : str) : str * option str :=
  let k := before_first (py "=") w in
  if contains (py "=") w
  then (lower k, Some (unquote (drop (S (length k)) w)))
  else (lower k, None).

Definition tag_event (inner : str) : event :=
  match inner with
  | c :: rest =>
      if Ascii.eqb c "/"%char then EndTag (lower rest)
      else match split_ws inner with
           | tag :: attrs => StartTag (lower tag) (map parse_attr attrs)
           | [] => Data []
           end
  | [] => Data []
  end.

(** Tags [<name k='v' ...>] and [</name>], text in between; attribute
    values hold no blank. *)
Fixpoint tokenize (in_tag : bool) (acc : str) (s : str) : list event :=
  match s with
  | [] => if in_tag then [] else flush_text acc
  | c :: s' =>
      if in_tag then
        if Ascii.eqb c ">"%char then tag_event (rev acc) :: tokenize false [] s'
        else tokenize true (c :: acc) s'
      else if Ascii.eqb c "<"%char then flush_text acc ++ tokenize true [] s'
      else tokenize false (c :: acc) s'
  end.

Definition html_events (html_text : str) : list event := tokenize false [] html_text.

Fixpoint take_until (stop : str) (s : str) : str :=
  match s with
  | [] => []
  | c :: s' => if bool_decide (c ∈ stop) then [] else c :: take_until stop s'
  end.

(** The authority of [scheme://authority/...]. *)
Definition authority (link : str) : str :=
  let i := find link (py "://") in
  if i =? -1 then [] else take_until (py "/?#") (drop (Z.to_nat i + 3) link).

(** The text between the first [?] and the fragment. *)
Definition query_text (link : str) : str :=
  let i := find link (py "?") in
  if i =? -1 then [] else take_until (py "#") (drop (Z.to_nat i + 1) link).

(** As [urlparse], an authority with one bracket but not the other is an
    error. *)
Definition urlparse (link : str) : option url_parts :=
  let host := authority link in
  if xorb (bool_decide ("["%char ∈ host)) (bool_decide ("]"%char ∈ host))
  then None
  else Some {| netloc := host; query := query_text link |}.

(** The pieces of [s] between occurrences of [sep]. *)
Fixpoint split_on (sep : ascii) (acc : str) (s : str) : list str :=
  match s with
  | [] => [rev acc]
  | c :: s' =>
      if Ascii.eqb c sep then rev acc :: split_on sep [] s'
      else split_on sep (c :: acc) s'
  end.

(** A query of plain [name=value] pairs; a pair with an empty value is
    dropped, as [parse_qs] does. *)
Definition parse_qs (query : str) : gmap str (list str) :=
  fold_left
    (fun d pair =>
       let name := before_first (py "=") pair in
       let value := drop (S (length name)) pair in
       if truthy value then <[name := default [] (d !! name) ++ [value]]> d else d)
    (split_on "&"%char [] query) ∅.

(** UTF-8 is the only codec, and the bodies are ASCII. *)
Definition bytes_decode (encoding : str) (data : list ascii) : option str :=
  if bool_decide (encoding = py "utf-8") then Some data else None.

(** The world of a stubbed run: every URL requested so far, oldest first. *)
Definition world : Type := list str.

(** [site] maps a URL to the body served for it; any other URL fails. *)
Definition urlopen (site : list (str * str)) (url : str) (w : world)
  : option response * world :=
  (option_map (fun b => {| content_type := py "text/html; charset=utf-8"; body := b |})
     (snd <$> List.find (fun p => bool_decide (fst p = url)) site),
   w ++ [url]).

Definition platform (site : list (str * str)) : Platform world :=
  Build_Platform world (urlopen site) bytes_decode html_events urlparse
    parse_qs (fun s => s).

End Stub.

(* ===================================================================== *)
(** ** The vocabulary of the specification                                *)
(* ===================================================================== *)

(** [sub] occurs in [s] at index [i]. *)
Definition occurs_at (s sub : str) (i : nat) : Prop :=
  ∃ pre post, s = pre ++ sub ++ post ∧ length pre = i.

(** The first occurrence of [sub] in [s] is at index [i]. *)
Definition first_occurrence (s sub : str) (i : nat) : Prop :=
  occurs_at s sub i ∧ ∀ j, (j < i)%nat → ¬ occurs_at s sub j.



(** A link that begins with the letters [http]: the test [bing_search]
    and [normalize_bing_link] apply. *)
Definition starts_http (link : str) : Prop := startswith link (py "http") = true.

(** The text the [u] parameter of a redirect link carries: the parameter
    without its [a1] prefix, padded to a multiple of four, base64url-decoded
    and read as UTF-8.  [None] when there is no parameter or a decoding
    step fails. *)
Definition bing_payload {World : Type} `{!Platform World} (parsed : url_parts)
  : option str :=
  let encoded := u_param parsed in
  if truthy encoded then
    let encoded := if startswith encoded (py "a1") then drop 2 encoded else encoded in
    let padded := encoded ++ repeat "="%char (Z.to_nat ((- len encoded) mod 4)) in
    match urlsafe_b64decode padded with
    | Some bytes => bytes_decode (py "utf-8") bytes
    | None => None
    end
  else None.

(** The first region of [states] whose full name occurs in [text] up to
    letter case; the empty string when none does. *)
Definition first_state_named (states : list (str * str)) (text : str) : str :=
  default []
    (fst <$> List.find (fun st => contains (lower (fst st)) (lower text)) states).

(** A link in absolute [http(s)] form. *)
Definition is_absolute_http (link : str) : bool :=
  startswith link (py "http://") || startswith link (py "https://").






(** The domain [build_candidates] records for a lead's source. *)
Definition lead_domain {World : Type} `{!Platform World} (l : Lead) : str :=
  match urlparse (website_url l) with
  | Some parsed => lower (netloc parsed)
  | None => []
  end.

(** What the specification promises of every lead. *)
Definition well_formed_lead {World : Type} `{!Platform World} (l : Lead) : Prop :=
  role l = py "Executive Coach"
  ∧ name l ≠ []
  ∧ location l ≠ []
  ∧ contains (py "linkedin.com") (lead_domain l) = false.

(** The state [build_candidates] may be in at the head of a loop, for a
    requested [limit]. *)
Definition candidates_invariant {World : Type} `{!Platform World}
    (limit : Z) (st : locals) : Prop :=
  NoDup (map lead_domain (leads st))
  ∧ (∀ l, l ∈ leads st → lead_domain l ∈ seen_domains st)
  ∧ Forall well_formed_lead (leads st)
  ∧ len (leads st) <= Z.max 0 limit.

(** A loop outcome whose state satisfies [P]. *)
Definition flow_satisfies (P : locals -> Prop) (o : flow) : Prop :=
  match o with
  | Next st => P st
  | Return found => ∃ st, P st ∧ found = leads st
  end.

(** [P] survives every pass through the body of the link loop that starts
    below the limit. *)
Definition preserved_at {World : Type} `{!Platform World}
    (profile_link : str -> result str) (P : locals -> Prop) (limit : Z)
    (target : str) : Prop :=
  ∀ link st st' w w',
    P st → len (leads st) < limit →
    process_link profile_link target link st w = (Returned st', w') → P st'.

Module SendLogSpec.
Import SendLog.

(** A row matches the proposed send in all four fields. *)
Definition same_send (r : gmap str (option str))
    (recipient subject sender template_version : str) : Prop :=
  r !! py "recipient" = Some (Some recipient)
  ∧ r !! py "subject" = Some (Some subject)
  ∧ r !! py "sender" = Some (Some sender)
  ∧ r !! py "template_version" = Some (Some template_version).

(** The instant a row's timestamp denotes, a naive one read as UTC; no
    instant when the timestamp is missing or does not parse. *)
Definition sent_instant (fromisoformat : str -> option datetime)
    (r : gmap str (option str)) : option Z :=
  timestamp ← get_or_empty r "timestamp_utc";
  (fun d => instant (assume_utc d)) <$> fromisoformat timestamp.

(** Every row has a cell in the timestamp column, or the log has no such
    column. *)
Definition timestamps_present (rows : list (gmap str (option str))) : Prop :=
  ∀ r, r ∈ rows → r !! py "timestamp_utc" ≠ Some None.

(** The duplicate rule as the specification words it: a matching row whose
    timestamp lies in [[now - window, now]]. *)
Definition duplicate_in_window (fromisoformat : str -> option datetime)
    (now : Z) (rows : list (gmap str (option str)))
    (recipient subject sender template_version : str) (window_hours : Z) : Prop :=
  ∃ r t, r ∈ rows
    ∧ same_send r recipient subject sender template_version
    ∧ sent_instant fromisoformat r = Some t
    ∧ now - hours_us window_hours <= t <= now.

End SendLogSpec.

(* ===================================================================== *)
(** ** Inputs of the worked examples                                      *)
(* ===================================================================== *)

Module GuardExample.

(** 2024-05-01T12:00:00+00:00, in microseconds since the epoch. *)
Definition noon : Z := 1714564800 * 1000000.

Definition aware (instant_us offset_us : Z) : datetime :=
  {| wall_us := instant_us + offset_us; utcoffset_us := Some offset_us |}.

(** [datetime.fromisoformat] on the timestamps of the examples; any other
    text is malformed. *)
Definition fromisoformat (s : str) : option datetime :=
  if bool_decide (s = py "2024-05-01T10:00:00+00:00")
  then Some (aware (noon - hours_us 2) 0)
  else if bool_decide (s = py "2024-05-01T12:00:00+02:00")
  then Some (aware (noon - hours_us 2) (hours_us 2))
  else if bool_decide (s = py "2024-05-01 10:00:00")
  then Some {| wall_us := noon - hours_us 2; utcoffset_us := None |}
  else if bool_decide (s = py "2024-05-01T13:00:00+00:00")
  then Some (aware (noon + hours_us 1) 0)
  else None.

Definition recipient : str := py "ann@example.com".
Definition subject : str := py "Welcome aboard".
Definition sender : str := py "coach@example.com".
Definition template_version : str := py "v1".

(** A log row for the send above, stamped [timestamp]. *)
Definition row_at (timestamp : string) : gmap str (option str) :=
  list_to_map
    [ (py "timestamp_utc", Some (py timestamp)); (py "recipient", Some recipient);
      (py "subject", Some subject); (py "sender", Some sender);
      (py "message_id", Some (py "18f3a2"));
      (py "template_version", Some template_version) ].

(** The row of a line that ends after its first cell, in a log whose
    header puts the recipient first. *)
Definition short_row : gmap str (option str) :=
  list_to_map
    [ (py "recipient", Some recipient); (py "timestamp_utc", None);
      (py "subject", None); (py "sender", None); (py "message_id", None);
      (py "template_version", None) ].

Definition skip (log : option (list (gmap str (option str)))) (window_hours : Z)
  : result bool :=
  SendLog.should_skip_send fromisoformat noon log
    recipient subject sender template_version window_hours.

End GuardExample.

Module EvidenceExample.

(** A page that opens with one trigger phrase and, more than 200
    characters later, holds another that comes earlier in the list. *)
Definition text : str :=
  py "Leadership coach and mentor." ++ repeat "."%char 200
  ++ py " Also an executive coach.".

End EvidenceExample.

Module SearchExample.

(** A results page whose one result links to a page of the same site by a
    relative reference that happens to begin with the letters http. *)
Definition relative_link : str := py "httpd/manual.html".

Definition manual_query : str := py "apache manual".

Definition search_url : str := py "https://www.bing.com/search?q=apache+manual".

Definition site : list (str * str) :=
  [ (search_url,
     py "<ol><li class='b_algo'><h2><a href='httpd/manual.html'>Manual</a></h2></li></ol>") ].

(** A second query, answered with two absolute links, one of them twice,
    a relative one, and a link outside any result container. *)
Definition coach_query : str := py "executive coach Boston".

Definition coach_site : list (str * str) :=
  [ (py "https://www.bing.com/search?q=executive+coach+Boston",
     py "<a href='https://ads.example/'>Ad</a><ol><li class='b_algo'><a href='https://a.example/'>A</a><a href='/cache/a'>Cached</a></li><li class='b_algo'><a href='https://a.example/'>A again</a></li><li class='b_algo'><a href='https://b.example/team'>B</a></li></ol>") ].

(** A redirect link whose payload is the base64url text of
    [https://www.example.com/], one whose payload decodes to [httpd], and
    one without payload. *)
Definition coach_results : list str :=
  [py "https://a.example/"; py "https://b.example/team"].

Definition wrapped_link : str :=
  py "https://www.bing.com/ck/a?p=0f1e&u=a1aHR0cHM6Ly93d3cuZXhhbXBsZS5jb20v&ntb=1".

Definition wrapped_httpd : str := py "https://www.bing.com/ck/a?u=a1aHR0cGQ".

Definition wrapped_nothing : str := py "https://www.bing.com/ck/a?p=0f1e&ntb=1".

(** [ftp://a.co/x] as payload. *)
Definition wrapped_ftp : str := py "https://www.bing.com/ck/a?u=a1ZnRwOi8vYS5jby94".

Definition normalize : str -> result str :=
  normalize_bing_link (Platform0 := Stub.platform []).

(** The parts [urlparse] reads off a link it accepts. *)
Definition parts (link : str) : url_parts :=
  default {| netloc := []; query := [] |} (Stub.urlparse link).

(** A redirect link whose authority opens a bracket and does not close
    it. *)
Definition wrapped_bracket : str :=
  py "https://[www.bing.com/ck/a?u=a1aHR0cHM6Ly93d3cuZXhhbXBsZS5jb20v".

End SearchExample.

Module PipelineExample.

(** The search for the first (seed, target) pair answers with three result
    links on three domains; each of the three pages passes the
    qualification filter.  Every other request fails. *)
Definition first_search : str :=
  py "https://www.bing.com/search?q=%22executive+coach%22+%22New+York%2C+NY%22".

Definition site : list (str * str) :=
  [ (first_search,
     py "<ol><li class='b_algo'><a href='https://a.example/'>A</a></li><li class='b_algo'><a href='https://b.example/'>B</a></li><li class='b_algo'><a href='https://c.example/'>C</a></li></ol>");
    (py "https://a.example/",
     py "<html><head><title>Ann Lee | Coach</title><script>var x = 'software';</script></head><body>Executive coaching for leaders</body></html>");
    (py "https://b.example/",
     py "<html><head><title>Bo Ray</title></head><body>Your executive coach</body></html>");
    (py "https://c.example/",
     py "<html><head><title>Cy Fox</title></head><body>A leadership coach</body></html>") ].

Definition platform : Platform Stub.world := Stub.platform site.

(** A profile-link extractor that finds nothing and does not raise. *)
Definition no_profile_link (html_text : str) : result str := Returned [].

Definition ann : Lead :=
  {| name := py "Ann Lee"; role := py "Executive Coach";
     website_url := py "https://a.example/"; linkedin_url := [];
     location := py "New York, NY"; specialty := [];
     evidence := py "Ann Lee | Coach Executive coaching for leaders" |}.

Definition bo : Lead :=
  {| name := py "Bo Ray"; role := py "Executive Coach";
     website_url := py "https://b.example/"; linkedin_url := [];
     location := py "New York, NY"; specialty := [];
     evidence := py "Bo Ray Your executive coach" |}.

(** The request for the LinkedIn search of a name, which the stubbed site
    does not serve: [fetch_url] tries it three times. *)
Definition linkedin_search (quoted_name : string) : list str :=
  repeat (py "https://www.bing.com/search?q=" ++ py quoted_name
          ++ py "+executive+coach+LinkedIn") 3.

(** The requests of a run that takes two leads: the search, the first
    page and the search for its profile, the second page and the search for
    its profile.  The third page is not among them. *)
Definition requests_for_two : Stub.world :=
  [first_search; py "https://a.example/"]
  ++ linkedin_search "%22Ann+Lee%22"
  ++ [py "https://b.example/"]
  ++ linkedin_search "%22Bo+Ray%22".

End PipelineExample.

(* ===================================================================== *)
(** ** Base64url encoding, to state what a valid payload is               *)
(* ===================================================================== *)

Definition B64URL_ALPHABET : str :=
  py "ABCDEFGHIJKLMNOPQRSTUVWXYZabcdefghijklmnopqrstuvwxyz0123456789-_".

Definition b64_char (v : N) : ascii := nth (N.to_nat v) B64URL_ALPHABET "A"%char.

(** The four sextets of three bytes. *)
Definition sextet1 (a : ascii) : N := N.shiftr (ord a) 2.
Definition sextet2 (a b : ascii) : N :=
  N.lor (N.shiftl (N.land (ord a) 3) 4) (N.shiftr (ord b) 4).
Definition sextet3 (b c : ascii) : N :=
  N.lor (N.shiftl (N.land (ord b) 15) 2) (N.shiftr (ord c) 6).
Definition sextet4 (c : ascii) : N := N.land (ord c) 63.

(** Base64url without padding, as redirect links carry it. *)
Fixpoint b64url_encode (bytes : list ascii) : str :=
  match bytes with
  | a :: b :: c :: rest =>
      b64_char (sextet1 a) :: b64_char (sextet2 a b)
      :: b64_char (sextet3 b c) :: b64_char (sextet4 c) :: b64url_encode rest
  | [a; b] =>
      [b64_char (sextet1 a); b64_char (sextet2 a b); b64_char (sextet3 b zero)]
  | [a] => [b64_char (sextet1 a); b64_char (sextet2 a zero)]
  | [] => []
  end.

(** Every character, for checks by enumeration. *)
Definition all_ascii : list ascii := map ascii_of_nat (seq 0 256).

Definition for_all_ascii (P : ascii -> bool) : bool := forallb P all_ascii.

Module DocumentExample.



End DocumentExample.

(* ===================================================================== *)
(** ** [os.path.dirname] and [os.makedirs]                                *)
(* ===================================================================== *)

(** The text from the last slash on, read from the end: the argument is
    the reversed path, the result the reversed head. *)
Fixpoint from_slash (reversed : str) : str :=
  match reversed with
  | [] => []
  | c :: rest => if Ascii.eqb c "/"%char then reversed else from_slash rest
  end.

(** [os.path.dirname(p)] of [posixpath]: the path up to its last slash,
    without the slashes at its end unless it consists of slashes. *)
Definition dirname (p : str) : str :=
  let head := rev (from_slash (rev p)) in
  if truthy head && negb (forallb (Ascii.eqb "/"%char) head)
  then rstrip_chars (py "/") head
  else head.

(** [os.makedirs(name, exist_ok=True)]: true when it returns.  For the
    empty name it raises [FileNotFoundError]; for any other name the
    outcome is a matter of the file system, [creatable]. *)
Definition makedirs (creatable : str -> bool) (name : str) : bool :=
  truthy name && creatable name.

(* ===================================================================== *)
(** ** The send log on disk: [log_send] and [csv.DictReader]              *)
(* ===================================================================== *)

Module SendLogFile.

(** The content of a CSV file: the records [csv.reader] yields for it, one
    list of cells per line, a blank line being the empty record.
    [csv.writer] and [csv.reader] are standard-library code and taken to
    agree on a record, and a file is taken to end with a line terminator,
    as every file [csv.writer] wrote does. *)
Abbreviation records := (list (list str)).

(** The header [log_send] writes, line 79. *)
Definition LOG_HEADER : list str :=
  map py [ "timestamp_utc"; "recipient"; "subject"; "sender"; "message_id";
           "template_version" ]%string.

(** The row [csv.DictReader] makes of a record:
    [d = dict(zip(fieldnames, row))], then [d[key] = None] for the names
    the record is too short for.  The cells a record has beyond the names
    go under the key [None], which no lookup by column name reaches. *)
Fixpoint dict_row (fieldnames row : list str) (d : SendLog.row) : SendLog.row :=
  match fieldnames, row with
  | [], _ => d
  | key :: names, cell :: cells => dict_row names cells (<[key := Some cell]> d)
  | key :: names, [] => dict_row names [] (<[key := None]> d)
  end.

(** [csv.DictReader(handle)]: the first record gives the column names, and
    blank lines after it are passed over. *)
Definition DictReader (file : records) : list SendLog.row :=
  match file with
  | [] => []
  | fieldnames :: rest =>
      map (fun record => dict_row fieldnames record ∅)
          (List.filter (fun record => negb (bool_decide (record = []))) rest)
  end.

Section LogSend.
(** [d.isoformat()] of the aware UTC [datetime] at an instant. *)
Variable isoformat : Z -> str.
(** The file system, as [makedirs] sees it. *)
Variable creatable : str -> bool.

(** [log_send]: [log] is the content of the file at [log_path] before the
    call, [None] when [os.path.exists(log_path)] is false.  The result is
    the content of the file after the call; it is [None] when
    [os.makedirs] raises, which leaves the file as it was. *)
Definition log_send (log_path : str) (now : Z) (log : option records)
    (recipient subject sender message_id template_version : str)
  : option records :=
  if makedirs creatable (dirname log_path) then
    let line :=
      [ isoformat now; recipient; subject; sender; message_id; template_version ] in
    match log with
    | None => Some [LOG_HEADER; line]
    | Some existing => Some (existing ++ [line])
    end
  else None.

End LogSend.

(** The log file is absent, or its first line is the header of
    [log_send]: what every log is that only [log_send] wrote to. *)
Definition own_log (log : option records) : bool :=
  match log with
  | None => true
  | Some existing => bool_decide (head existing = Some LOG_HEADER)
  end.

(** [should_skip_send] on the file itself. *)
Definition should_skip_send (fromisoformat : str -> option datetime) (now : Z)
    (log : option records)
    (recipient subject sender template_version : str) (window_hours : Z)
  : result bool :=
  SendLog.should_skip_send fromisoformat now (DictReader <$> log)
    recipient subject sender template_version window_hours.

End SendLogFile.

(* ===================================================================== *)
(** ** [main] of the onboarding script                                    *)
(* ===================================================================== *)

Module Onboarding.
Import SendLogFile.

(** The parsed arguments [main] reads after the body of the mail has been
    settled. *)
Record args : Type := {
  to : str;
  sender : str;
  subject : str;
  log_path : str;
  template_version : str;
  duplicate_window_hours : Z;
  allow_duplicate : bool
}.

(** A mail handed to [send_email]. *)
Record mail : Type := {
  mail_from : str;
  mail_to : str;
  mail_subject : str;
  mail_body : str
}.

(** What a run can change: the log file at [args.log_path] ([None] when
    there is no such file) and the mails Gmail has accepted. *)
Record outside : Type := { log : option records; accepted : list mail }.

(** How a run ends. *)
Inductive ending : Type :=
| Exit (status : Z)            (* [return status] *)
| SystemExit                   (* [raise SystemExit(...)], line 225 *)
| Uncaught (e : exn)           (* an exception of [should_skip_send] *)
| SendFailed                   (* an exception of [get_credentials] or [send_email] *)
| LogFailed.                   (* an exception of [log_send], after the mail is sent *)

Section Main.
Variable fromisoformat : str -> option datetime.
Variable isoformat : Z -> str.
Variable creatable : str -> bool.
(** [get_credentials] and the Gmail call of [send_email]: the message id
    of the response, [None] when either raises. *)
Variable gmail : mail -> option str.

(** [main], lines 223-255.  [body] is the text lines 227-236 have chosen
    (the file, the argument or the template); [credentials_exist] is
    [os.path.exists(args.credentials)]; [now] is the reading of the clock
    in [should_skip_send] and [sent_at] the later one in [log_send]. *)
Definition main (a : args) (credentials_exist : bool) (body : str)
    (now sent_at : Z) (o : outside) : ending * outside :=
  if negb credentials_exist then (SystemExit, o)
  else
    let skip :=
      if negb (allow_duplicate a)
      then should_skip_send fromisoformat now (log o)
             (to a) (subject a) (sender a) (template_version a)
             (duplicate_window_hours a)
      else Returned false in
    match skip with
    | Raised e => (Uncaught e, o)
    | Returned true => (Exit 0, o)
    | Returned false =>
        let message :=
          {| mail_from := sender a; mail_to := to a; mail_subject := subject a;
             mail_body := body |} in
        match gmail message with
        | None => (SendFailed, o)
        | Some message_id =>
            match log_send isoformat creatable (log_path a) sent_at (log o)
                    (to a) (subject a) (sender a) message_id (template_version a)
            with
            | Some written =>
                (Exit 0, {| log := Some written; accepted := accepted o ++ [message] |})
            | None =>
                (LogFailed, {| log := log o; accepted := accepted o ++ [message] |})
            end
        end
    end.

End Main.
End Onboarding.

(* ===================================================================== *)
(** ** [write_csv], [write_google_sheet] and [main] of the lead script    *)
(* ===================================================================== *)

Definition LEAD_HEADER : list str :=
  map py [ "name"; "role"; "website_url"; "linkedin_url"; "location";
           "specialty"; "evidence" ]%string.

(** The cells of a lead, lines 406-414 and 446-454. *)
Definition lead_cells (lead : Lead) : list str :=
  [ name lead; role lead; website_url lead; linkedin_url lead; location lead;
    specialty lead; evidence lead ].

(** [write_csv(leads, path)]: the records the file at [path] holds after
    the call, [None] when [os.makedirs] raises. *)
Definition write_csv (creatable : str -> bool) (leads : list Lead) (path : str)
  : option SendLogFile.records :=
  if makedirs creatable (dirname path)
  then Some (fold_left (fun written lead => written ++ [lead_cells lead]) leads
               [LEAD_HEADER])
  else None.

(** How a run of the lead script ends when no exception of
    [build_candidates] ends it: with an exit status, or with the exception
    of [write_csv]. *)
Inductive lead_ending : Type :=
| LeadExit (status : Z)
| CsvFailed.

(** What a run of [main] leaves behind: how it ended, the CSV file it
    wrote, and the address of the sheet it made. *)
Record report : Type := {
  ending : lead_ending;
  csv_written : option (str * SendLogFile.records);
  sheet_url : option str
}.

Section Main.
Context {World : Type} `{!Platform World}.
Variable creatable : str -> bool.

(** The Google side of [write_google_sheet]: credentials, the creation of
    a spreadsheet with a title and the upload of its values.  The answer
    is the spreadsheet id, [None] when any of the calls raises. *)
Variable sheets_service : str -> list (list str) -> World -> option str * World.

Definition write_google_sheet (leads : list Lead) (title : str)
  : World -> option str * World :=
  fun w =>
    let values :=
      fold_left (fun values lead => values ++ [lead_cells lead]) leads
        [LEAD_HEADER] in
    match sheets_service title values w with
    | (Some spreadsheet_id, w') =>
        (Some (py "https://docs.google.com/spreadsheets/d/" ++ spreadsheet_id), w')
    | (None, w') => (None, w')
    end.

(** [main], lines 491-513, after the arguments are parsed:
    [credentials_exist] is [os.path.exists(args.credentials)] and [today]
    the date [datetime.now().strftime('%Y-%m-%d')]. *)
Definition main (limit : Z) (csv_path : str) (credentials_exist : bool)
    (today : str) : M World report :=
  do found <- build_candidates limit;
  match found with
  | [] => ret {| ending := LeadExit 1; csv_written := None; sheet_url := None |}
  | _ :: _ =>
      match write_csv creatable found csv_path with
      | None => ret {| ending := CsvFailed; csv_written := None; sheet_url := None |}
      | Some written =>
          let csv := Some (csv_path, written) in
          if negb credentials_exist
          then ret {| ending := LeadExit 0; csv_written := csv; sheet_url := None |}
          else
            let sheet_title := py "Executive Coach Leads - " ++ today in
            fun w =>
              match write_google_sheet found sheet_title w with
              | (Some url, w') =>
                  (Returned {| ending := LeadExit 0; csv_written := csv;
                               sheet_url := Some url |}, w')
              | (None, w') =>                   (* except Exception: return 0 *)
                  (Returned {| ending := LeadExit 0; csv_written := csv;
                               sheet_url := None |}, w')
              end
      end
  end.

End Main.

(* ===================================================================== *)
(** ** Vocabulary for the properties of the fetcher and the parsers       *)
(* ===================================================================== *)

Section FetchVocabulary.
Context {World : Type} `{!Platform World}.

(** [n] attempts in a row fail, taking the world from [w] to [w']. *)
Fixpoint failed_attempts (n : nat) (url : str) (w w' : World) : Prop :=
  match n with
  | O => w' = w
  | S n =>
      ∃ e w1, fetch_attempt url w = (Raised e, w1) ∧ failed_attempts n url w1 w'
  end.

End FetchVocabulary.

(** A codec label the charset pattern of [fetch_url] can capture: a
    non-empty run of backslashes, letters w and hyphens. *)
Definition charset_label (encoding : str) : Prop :=
  encoding ≠ [] ∧ Forall (fun c => c ∈ py "\w-") encoding.

(** The [href] an anchor start tag contributes, when it has a non-empty
    one. *)
Definition href_of (e : event) : option str :=
  match e with
  | StartTag tag attrs =>
      if bool_decide (tag = py "a") then
        match default None (attrs_dict attrs !! py "href") with
        | Some href => if truthy href then Some href else None
        | None => None
        end
      else None
  | _ => None
  end.

(** A start tag that opens a result container: an [li] whose class
    attribute contains [b_algo]. *)
Definition opens_result (e : event) : bool :=
  match e with
  | StartTag tag attrs =>
      bool_decide (tag = py "li")
      && bool_decide (is_Some (attrs_dict attrs !! py "class"))
      && contains (py "b_algo")
           (default [] (default None (attrs_dict attrs !! py "class")))
  | _ => false
  end.

(** The end tag of a list item. *)
Definition closes_result (e : event) : bool :=
  match e with
  | EndTag tag => bool_decide (tag = py "li")
  | _ => false
  end.

(** A results page cut into blocks: markup outside every result
    container, and result containers, each a list item with its attributes
    and the markup between its start tag and its end tag. *)
Inductive block : Type :=
| Outside (markup : list event)
| ResultItem (attrs : list (str * option str)) (inner : list event).

Definition block_events (b : block) : list event :=
  match b with
  | Outside markup => markup
  | ResultItem attrs inner => StartTag (py "li") attrs :: inner ++ [EndTag (py "li")]
  end.

(** The markup outside opens no result container; a result container has
    [b_algo] in its class and no list-item end tag before its own. *)
Definition block_ok (b : block) : bool :=
  match b with
  | Outside markup => forallb (fun e => negb (opens_result e)) markup
  | ResultItem attrs inner =>
      opens_result (StartTag (py "li") attrs)
      && forallb (fun e => negb (closes_result e)) inner
  end.

(** The non-empty [href]s of the anchors inside a result container. *)
Definition block_links (b : block) : list str :=
  match b with
  | Outside _ => []
  | ResultItem _ inner => omap href_of inner
  end.

(** The shape of the title and heading patterns:
    [open[^>]*>(.*?)close]. *)
Definition element_re (open_lit close_lit : str) : Re.regex :=
  Re.seq [ Re.lits_of open_lit; Re.RStar true not_gt; Re.lits ">";
           Re.RGroup (Re.RStar false Re.AAny); Re.lits_of close_lit ].

(** The inside of a heading cut into text and tags: a text holds no [<],
    and a tag is a [<], one or more characters other than [>], and a
    [>]. *)
Inductive piece : Type :=
| PText (text : str)
| PTag (inside : str).

Definition piece_markup (p : piece) : str :=
  match p with
  | PText text => text
  | PTag inside => "<"%char :: inside ++ [">"%char]
  end.

Definition piece_ok (p : piece) : bool :=
  match p with
  | PText text => negb (bool_decide ("<"%char ∈ text))
  | PTag inside => truthy inside && negb (bool_decide (">"%char ∈ inside))
  end.

(** What [re.sub(r"<[^>]+>", " ", ...)] leaves of a piece. *)
Definition piece_text (p : piece) : str :=
  match p with
  | PText text => text
  | PTag _ => py " "
  end.

(** A link [search_linkedin] may return: one that names a profile page. *)
Definition is_profile_link (link : str) : Prop :=
  contains (py "linkedin.com/in") (lower link) = true.

(** The lower-cased domain of a link, as [build_candidates] computes it
    at line 353; [None] when [urlparse] raises. *)
Definition link_domain {World : Type} `{!Platform World} (link : str)
  : option str :=
  (fun parsed => lower (netloc parsed)) <$> urlparse link.


(** Every request fails. *)
Definition offline {World : Type} `{!Platform World} : Prop :=
  ∀ url w, fst (urlopen url w) = None.

(* ===================================================================== *)
(** ** Further fixtures                                                   *)
(* ===================================================================== *)

Module LogExample.
Import GuardExample.

(** [isoformat] of the instants of the examples. *)
Definition isoformat (t : Z) : str :=
  if t =? noon - hours_us 2 then py "2024-05-01T10:00:00+00:00"
  else if t =? noon + hours_us 1 then py "2024-05-01T13:00:00+00:00"
  else py "1970-01-01T00:00:00+00:00".

(** A log with the header of [log_send], a blank line, and a line cut
    short after its second cell. *)
Definition earlier_log : SendLogFile.records :=
  [ SendLogFile.LOG_HEADER;
    [];
    [py "2024-05-01T10:00:00+00:00"; py "bo@example.com"] ].

End LogExample.

Module ResultPageExample.

Definition anchor (href : string) : event :=
  StartTag (py "a") [(py "href", Some (py href))].

(** A navigation link, two results (the second with a nested list inside
    a further start tag of a list item and an anchor without address), and
    a footer link. *)
Definition page : list block :=
  [ Outside [StartTag (py "ul") []; anchor "/images"; EndTag (py "a")];
    ResultItem [(py "class", Some (py "b_algo"))]
      [anchor "https://a.example/"; Data (py "A"); EndTag (py "a")];
    Outside [Data (py " ")];
    ResultItem [(py "class", Some (py "b_algo b_top")); (py "id", None)]
      [ StartTag (py "li") []; anchor "https://b.example/";
        StartTag (py "a") [(py "href", Some [])];
        StartTag (py "a") [(py "name", Some (py "x"))];
        anchor "https://c.example/" ];
    Outside [anchor "/privacy"; EndTag (py "ul")] ].

End ResultPageExample.

Module OnboardingExample.
Import GuardExample.

Definition welcome : Onboarding.args :=
  {| Onboarding.to := recipient; Onboarding.sender := sender;
     Onboarding.subject := subject;
     Onboarding.log_path := py ".tmp/onboarding_sends.csv";
     Onboarding.template_version := template_version;
     Onboarding.duplicate_window_hours := 24; Onboarding.allow_duplicate := false |}.

(** The same send, logged to a file named without a directory. *)
Definition welcome_bare : Onboarding.args :=
  {| Onboarding.to := recipient; Onboarding.sender := sender;
     Onboarding.subject := subject;
     Onboarding.log_path := py "onboarding_sends.csv";
     Onboarding.template_version := template_version;
     Onboarding.duplicate_window_hours := 24; Onboarding.allow_duplicate := false |}.

(** A file system on which every directory can be made. *)
Definition creatable (name : str) : bool := true.

(** A Gmail that accepts every mail under one message id. *)
Definition gmail (m : Onboarding.mail) : option str := Some (py "18f3a2").

Definition first_run : Onboarding.outside :=
  {| Onboarding.log := None; Onboarding.accepted := [] |}.

End OnboardingExample.

Module HeadingExample.

Definition before : str := py "<html><head><meta charset='utf-8'>".
Definition title_text : str := py "
  Ann Lee | Coach ".
Definition between : str := py "</head><body>".
Definition heading : list piece :=
  [ PText (py " Ann "); PTag (py "span class='x'"); PText (py "Lee");
    PTag (py "/span"); PTag (py "br/"); PText (py "  Executive > Coach ") ].
Definition after : str := py "<p>More</p><h1>Second</h1></body></html>".

End HeadingExample.

Module FetchExample.

Definition page_url : str := py "https://a.example/".

Definition page_text : str :=
  py "<html><head><title>Ann Lee | Coach</title></head><body>Executive coaching for leaders</body></html>".

Definition platform : Platform Stub.world := Stub.platform [(page_url, page_text)].

(** The state of [build_candidates] after the page above has given a
    lead. *)
Definition after_page : locals :=
  {| leads :=
       [ {| name := py "Ann Lee"; role := py "Executive Coach";
            website_url := page_url; linkedin_url := [];
            location := py "Boston, MA"; specialty := [];
            evidence := py "Ann Lee | Coach Executive coaching for leaders" |} ];
     seen_domains := {[ py "a.example" ]} ∪ ∅ |}.

(** The requests of that pass: the page, and three attempts at the search
    for a profile. *)
Definition requests_of_page : Stub.world :=
  page_url
  :: repeat (py "https://www.bing.com/search?q=%22Ann+Lee%22+executive+coach+LinkedIn") 3.

(** A profile link among the results of a search. *)
Definition profile_site : list (str * str) :=
  [ (py "https://www.bing.com/search?q=%22Ann+Lee%22+executive+coach+LinkedIn",
     py "<li class='b_algo'><a href='https://a.example/'>A</a><a href='https://www.LinkedIn.com/in/annlee'>in</a></li>") ].

End FetchExample.

Module OfflineExample.

(** A network on which no page is served. *)
Definition platform : Platform Stub.world := Stub.platform [].

End OfflineExample.

(* ===================================================================== *)
(** * Part II: properties                                                 *)
(* ===================================================================== *)


(** ** Python strings *)

Section StringFacts.

Lemma ascii_eqb_true (a b : ascii) : Ascii.eqb a b = true ↔ a = b.
Proof. apply Ascii.eqb_eq. Qed.

Lemma truthy_true (s : str) : truthy s = true ↔ s ≠ [].
Proof. destruct s; simpl; split; congruence. Qed.


Lemma startswith_spec (s p : str) :
  startswith s p = true ↔ ∃ rest, s = p ++ rest.
Proof.
  revert s. induction p as [|a p IH]; intros s; simpl.
  - split; eauto.
  - destruct s as [|b s].
    + split; [discriminate | intros [rest H]; discriminate].
    + destruct (Ascii.eqb a b) eqn:E.
      * apply ascii_eqb_true in E as ->. rewrite IH.
        split; intros [rest H]; exists rest; simpl in *; congruence.
      * split; [discriminate |].
        intros [rest H]. injection H as -> _.
        rewrite Ascii.eqb_refl in E. discriminate.
Qed.

Lemma startswith_app (p rest : str) : startswith (p ++ rest) p = true.
Proof. apply startswith_spec. eauto. Qed.

Lemma contains_spec (sub s : str) :
  contains sub s = true ↔ ∃ pre post, s = pre ++ sub ++ post.
Proof.
  induction s as [|c s IH]; simpl.
  - rewrite orb_false_r, startswith_spec. split.
    + intros [rest H]. exists [], rest. done.
    + intros (pre & post & H). symmetry in H.
      apply app_eq_nil in H as [-> H]. exists post. done.
  - rewrite orb_true_iff, startswith_spec, IH. split.
    + intros [[rest H] | (pre & post & H)].
      * exists [], rest. done.
      * exists (c :: pre), post. simpl. congruence.
    + intros (pre & post & H). destruct pre as [|c' pre]; simpl in H.
      * left. eauto.
      * right. injection H as _ H. eauto.
Qed.

Lemma contains_occurs (sub s : str) :
  contains sub s = true ↔ ∃ i, occurs_at s sub i.
Proof.
  rewrite contains_spec. unfold occurs_at. split.
  - intros (pre & post & H). eauto.
  - intros (i & pre & post & H & _). eauto.
Qed.

Lemma occurs_at_0 (s sub : str) : occurs_at s sub 0 ↔ startswith s sub = true.
Proof.
  rewrite startswith_spec. unfold occurs_at. split.
  - intros (pre & post & -> & Hl). destruct pre; [eauto | discriminate].
  - intros [rest ->]. exists [], rest. done.
Qed.

Lemma occurs_at_S (c : ascii) (s sub : str) (i : nat) :
  occurs_at (c :: s) sub (S i) ↔ occurs_at s sub i.
Proof.
  unfold occurs_at. split.
  - intros (pre & post & H & Hl). destruct pre as [|c' pre]; [discriminate|].
    simpl in *. injection H as _ H. exists pre, post. split; [done | lia].
  - intros (pre & post & -> & Hl). exists (c :: pre), post.
    split; [done | simpl; lia].
Qed.




Lemma find_from_found (pos : Z) (s sub : str) :
  find_from pos s sub ≠ -1 → 0 <= pos →
  ∃ i, find_from pos s sub = pos + Z.of_nat i ∧ first_occurrence s sub i.
Proof.
  revert pos. induction s as [|c s IH]; intros pos Hne Hpos; simpl in *.
  - destruct (startswith [] sub) eqn:E; [|done].
    exists 0%nat. split; [lia |]. split; [by apply occurs_at_0 | lia].
  - destruct (startswith (c :: s) sub) eqn:E.
    + exists 0%nat. split; [lia |]. split; [by apply occurs_at_0 | lia].
    + destruct (IH (pos + 1) Hne ltac:(lia)) as (i & Hi & Hocc & Hmin).
      exists (S i). split; [lia |]. split.
      * by apply occurs_at_S.
      * intros [|j] Hj.
        -- rewrite occurs_at_0. congruence.
        -- rewrite occurs_at_S. apply Hmin. lia.
Qed.



Lemma find_found (s sub : str) :
  find s sub ≠ -1 → ∃ i, find s sub = Z.of_nat i ∧ first_occurrence s sub i.
Proof.
  intros H. destruct (find_from_found 0 s sub H ltac:(lia)) as (i & Hi & Ho).
  exists i. split; [unfold find; lia | done].
Qed.

Lemma lower_app (a b : str) : lower (a ++ b) = lower a ++ lower b.
Proof. apply map_app. Qed.

Lemma lower_length (s : str) : length (lower s) = length s.
Proof. apply length_map. Qed.



End StringFacts.

(** ** Splitting on whitespace and joining *)

Section Words.


















End Words.

(** ** The Markup Text Extractor *)

Section TextExtractorFacts.
Import TextExtractor.













End TextExtractorFacts.

(** ** The qualification filter *)

Section Qualification.




End Qualification.

(** ** The evidence extractor *)

Section Evidence.










End Evidence.

Section EvidenceExamples.
Import EvidenceExample.

Example extract_evidence_keeps_case :
  extract_evidence (py "Jane Doe is an Executive Coach   based in
    Boston.")
  = py "Jane Doe is an Executive Coach based in Boston."
  ∧ extract_evidence (py "Plumbing and heating") = [].
Proof. vm_compute. done. Qed.


End EvidenceExamples.

(** ** The duplicate-send guard *)

Section Guard.
Import SendLog SendLogSpec.

Variable fromisoformat : str → option datetime.

Lemma field_is_spec (r : gmap str (option str)) (key : string) (value : str) :
  field_is r key value = true ↔ r !! py key = Some (Some value).
Proof. unfold field_is. apply bool_decide_eq_true. Qed.

Lemma get_or_empty_present (r : gmap str (option str)) :
  r !! py "timestamp_utc" ≠ Some None →
  ∃ timestamp, get_or_empty r "timestamp_utc" = Some timestamp.
Proof.
  intros H. unfold get_or_empty.
  destruct (r !! py "timestamp_utc") as [[ts|]|]; [eauto | done | eauto].
Qed.

Lemma scan_spec (recipient subject sender template_version : str)
    (cutoff : Z) (rows : list (gmap str (option str))) :
  timestamps_present rows →
  ∃ answer,
    scan fromisoformat recipient subject sender template_version cutoff rows
    = Returned answer
    ∧ (answer = true
       ↔ ∃ r t, r ∈ rows
           ∧ same_send r recipient subject sender template_version
           ∧ sent_instant fromisoformat r = Some t
           ∧ cutoff <= t).
Proof.
  induction rows as [|r rows IH]; intros Hpresent.
  - exists false. split; [done|]. split; [done|].
    intros (r & t & Hin & _). by apply elem_of_nil in Hin.
  - destruct IH as (rest_answer & Hrest & IH).
    { intros r' Hr'. apply Hpresent. by right. }
    destruct (get_or_empty_present r) as [timestamp Hts];
      [apply Hpresent; left|].
    assert (Hhead : ∀ t, sent_instant fromisoformat r = Some t
              ↔ (fun d => instant (assume_utc d)) <$> fromisoformat timestamp = Some t).
    { intros t. unfold sent_instant. by rewrite Hts. }
    assert (Hlater : (∃ r' t, r' ∈ rows
                        ∧ same_send r' recipient subject sender template_version
                        ∧ sent_instant fromisoformat r' = Some t ∧ cutoff <= t)
                     → ∃ r' t, r' ∈ r :: rows
                        ∧ same_send r' recipient subject sender template_version
                        ∧ sent_instant fromisoformat r' = Some t ∧ cutoff <= t).
    { intros (r' & t & Hin & H). exists r', t. split; [by right | done]. }
    cbn [scan]. rewrite Hts.
    destruct (fromisoformat timestamp) as [d|] eqn:Hd.
    + destruct (instant (assume_utc d) <? cutoff) eqn:Hlt.
      * apply Z.ltb_lt in Hlt. exists rest_answer. split; [done|].
        rewrite IH. split; [done|].
        intros (r' & t & [-> | Hin]%elem_of_cons & Hsame & Ht & Hle);
          [|by exists r', t].
        apply Hhead in Ht. cbn in Ht. injection Ht as <-. lia.
      * apply Z.ltb_ge in Hlt.
        destruct (field_is r "recipient" recipient
                  && field_is r "subject" subject
                  && field_is r "sender" sender
                  && field_is r "template_version" template_version) eqn:Hf.
        -- exists true. split; [done|]. split; [|done]. intros _.
           rewrite !andb_true_iff, !field_is_spec in Hf.
           exists r, (instant (assume_utc d)). split; [left|].
           split; [unfold same_send; tauto|]. split; [by apply Hhead | done].
        -- exists rest_answer. split; [done|]. rewrite IH. split; [done|].
           intros (r' & t & [-> | Hin]%elem_of_cons & Hsame & Ht & Hle);
             [|by exists r', t].
           exfalso. apply not_true_iff_false in Hf. apply Hf.
           rewrite !andb_true_iff, !field_is_spec.
           unfold same_send in Hsame. tauto.
    + exists rest_answer. split; [done|]. rewrite IH. split; [done|].
      intros (r' & t & [-> | Hin]%elem_of_cons & Hsame & Ht & Hle);
        [|by exists r', t].
      by apply Hhead in Ht.
Qed.

(** C1, amended.  When the log file exists, every row of it has a cell in
    the timestamp column, and [now - window] is a [datetime], then
    [should_skip_send] returns, and it returns true if and only if some row
    matches recipient, subject, sender and template version exactly and
    carries a timestamp that parses and is not older than [now - window]; a
    timestamp later than [now] counts as well.  A row whose timestamp does
    not parse is passed over.  Without a log file the result is false. *)
Theorem should_skip_send_spec (now : Z) (rows : list (gmap str (option str)))
    (recipient subject sender template_version : str) (window_hours : Z) :
  timestamps_present rows →
  in_datetime_range (now - hours_us window_hours) = true →
  (∃ answer,
     should_skip_send fromisoformat now (Some rows)
       recipient subject sender template_version window_hours = Returned answer
     ∧ (answer = true
        ↔ ∃ r t, r ∈ rows
            ∧ same_send r recipient subject sender template_version
            ∧ sent_instant fromisoformat r = Some t
            ∧ now - hours_us window_hours <= t))
  ∧ should_skip_send fromisoformat now None
      recipient subject sender template_version window_hours = Returned false.
Proof.
  intros Hpresent Hrange. split; [|done].
  cbn [should_skip_send]. unfold minus_hours. rewrite Hrange. cbn [rbind].
  by apply scan_spec.
Qed.

End Guard.

Section GuardExamples.
Import SendLog SendLogSpec GuardExample.

(** The examples of the specification: a matching row two hours old is a
    duplicate under a 24-hour window and not under a 1-hour window; no log
    file, no duplicate. *)
Example skip_two_hours_old_within_24h :
  skip (Some [row_at "2024-05-01T10:00:00+00:00"]) 24 = Returned true.
Proof. vm_compute. reflexivity. Qed.

Example skip_two_hours_old_outside_1h :
  skip (Some [row_at "2024-05-01T10:00:00+00:00"]) 1 = Returned false.
Proof. vm_compute. reflexivity. Qed.

Example skip_without_log : skip None 24 = Returned false.
Proof. reflexivity. Qed.

(** A malformed timestamp is passed over, and the rows after it still
    count; a naive timestamp is read as UTC, an offset one by its instant;
    another recipient is no duplicate. *)
Example skip_malformed_row :
  skip (Some [row_at "last tuesday"]) 24 = Returned false
  ∧ skip (Some [row_at "last tuesday"; row_at "2024-05-01 10:00:00"]) 24
    = Returned true
  ∧ skip (Some [row_at "2024-05-01T12:00:00+02:00"]) 1 = Returned false
  ∧ skip (Some [<[py "recipient" := Some (py "bob@example.com")]>
                  (row_at "2024-05-01T10:00:00+00:00")]) 24 = Returned false.
Proof. vm_compute. done. Qed.

(** The theorem at a log of two rows, the first with a malformed
    timestamp, the second a matching send two hours old. *)
Lemma should_skip_send_spec_witness :
  skip (Some [row_at "last tuesday"; row_at "2024-05-01T10:00:00+00:00"]) 24
  = Returned true.
Proof.
  destruct (should_skip_send_spec fromisoformat noon
              [row_at "last tuesday"; row_at "2024-05-01T10:00:00+00:00"]
              recipient subject sender template_version 24)
    as [(answer & Hrun & Hiff) _].
  - intros r Hr.
    apply elem_of_cons in Hr as [-> | Hr]; [vm_compute; discriminate|].
    apply list_elem_of_singleton in Hr as ->. vm_compute. discriminate.
  - vm_compute. reflexivity.
  - unfold skip. rewrite Hrun. f_equal. apply Hiff.
    exists (row_at "2024-05-01T10:00:00+00:00"), (noon - hours_us 2).
    split; [right; left|]. split; [vm_compute; done|].
    split; [vm_compute; reflexivity|]. vm_compute. discriminate.
Defined.

(** C1 as stated fails.  A matching row stamped one hour after [now] makes
    the guard answer true, although no row lies in [[now - 24h, now]].  A
    row without timestamp cell and a window that reaches back before the
    year 1 make it raise. *)
Lemma should_skip_send_counts_future_rows :
  (skip (Some [row_at "2024-05-01T13:00:00+00:00"]) 24 = Returned true
   ∧ ¬ duplicate_in_window fromisoformat noon
         [row_at "2024-05-01T13:00:00+00:00"]
         recipient subject sender template_version 24)
  ∧ skip (Some [short_row]) 24 = Raised type_error
  ∧ skip (Some []) 17736157 = Raised overflow_error.
Proof.
  split; [split|]; [vm_compute; reflexivity | | vm_compute; done].
  intros (r & t & Hin & _ & Ht & Hlo & Hhi).
  apply list_elem_of_singleton in Hin as ->.
  assert (Hrow : sent_instant fromisoformat (row_at "2024-05-01T13:00:00+00:00")
                 = Some (noon + hours_us 1)) by (vm_compute; reflexivity).
  rewrite Hrow in Ht. injection Ht as <-. unfold hours_us in Hhi. lia.
Qed.

End GuardExamples.

(** ** Computations in [M] *)

Section MonadFacts.
Context {World : Type}.

Lemma bind_returned {A B} (m : M World A) (k : A → M World B) w b w' :
  bind m k w = (Returned b, w')
  ↔ ∃ a w1, m w = (Returned a, w1) ∧ k a w1 = (Returned b, w').
Proof.
  unfold bind. destruct (m w) as [[a | e] w1]; split.
  - eauto.
  - by intros (a' & w2 & [= <- <-] & H).
  - done.
  - by intros (a' & w2 & [=] & _).
Qed.

Lemma ret_returned {A} (a b : A) (w w' : World) :
  ret a w = (Returned b, w') ↔ a = b ∧ w = w'.
Proof. unfold ret. split; [by intros [= -> ->] | by intros [-> ->]]. Qed.

Lemma lift_returned {A} (r : result A) (b : A) (w w' : World) :
  lift r w = (Returned b, w') ↔ r = Returned b ∧ w = w'.
Proof. unfold lift. split; [by intros [= -> ->] | by intros [-> ->]]. Qed.

(** What [try: x = m  except Exception: x = None] leaves in [x]. *)
Lemma attempt_returned {A} (m : M World A) (o : option A) w w' :
  try_except (do a <- m; ret (Some a)) (fun _ => ret None) w = (Returned o, w')
  ↔ match o with
    | Some a => m w = (Returned a, w')
    | None => ∃ e, m w = (Raised e, w')
    end.
Proof.
  unfold try_except, bind, ret. destruct (m w) as [[a | e] w1]; destruct o; split;
    try (by intros [= -> ->]); try (by intros [= ->]); try done.
  - by intros [? [=]].
  - by intros [= ->]; eauto.
  - by intros [? [= -> ->]].
Qed.

End MonadFacts.

(** ** The Result Link Extractor *)

Section ResultLinks.
Context {World : Type} `{!Platform World}.

Lemma rbind_returned {A B} (r : result A) (k : A → result B) (b : B) :
  rbind r k = Returned b ↔ ∃ a, r = Returned a ∧ k a = Returned b.
Proof.
  destruct r as [a | e]; cbn; split.
  - eauto.
  - by intros (a' & [= <-] & H).
  - done.
  - by intros (a' & [=] & _).
Qed.

Lemma collect_results_spec (cap : Z) (links : list str) :
  ∀ results seen out,
    NoDup results → Forall starts_http results →
    (∀ x, x ∈ seen ↔ x ∈ results) →
    (results = [] ∨ len results < cap) →
    collect_results cap links results seen = Returned out →
    NoDup out ∧ Forall starts_http out ∧ len out <= Z.max 1 cap
    ∧ ∃ extra used unread normalized,
        out = results ++ extra ∧ links = used ++ unread
        ∧ Forall2 (fun link n => normalize_bing_link link = Returned n)
            used normalized
        ∧ extra `sublist_of` normalized
        ∧ (∀ x, x ∈ normalized → starts_http x → x ∈ out)
        ∧ (unread ≠ [] → cap <= len out).
Proof.
  induction links as [|link rest IH];
    intros results seen out Hnd Hhttp Hseen Hlen; cbn [collect_results].
  - intros [= <-]. split; [done|]. split; [done|]. split.
    + destruct Hlen as [-> | Hlen]; unfold len in *; cbn; lia.
    + exists [], [], [], []. rewrite app_nil_r.
      split; [done|]. split; [done|]. split; [constructor|]. split; [done|].
      split; [|done]. intros x Hx. by apply elem_of_nil in Hx.
  - intros (n & Hnorm & Hrun)%rbind_returned.
    destruct (startswith n (py "http")) eqn:Hn; cbn [negb] in Hrun.
    + destruct (bool_decide (n ∈ seen)) eqn:Hin.
      * apply bool_decide_eq_true in Hin.
        destruct (IH results seen out Hnd Hhttp Hseen Hlen Hrun)
          as (H1 & H2 & H3 & extra & used & unread & normalized
              & Hout & -> & Hfor & Hsub & Hall & Hcap).
        split; [done|]. split; [done|]. split; [done|].
        exists extra, (link :: used), unread, (n :: normalized).
        repeat split; try done.
        -- by constructor.
        -- by apply sublist_cons.
        -- intros x [-> | Hx]%elem_of_cons Hx'; [|by apply Hall].
           rewrite Hout. apply elem_of_app. left. by apply Hseen.
      * apply bool_decide_eq_false in Hin.
        assert (Hfresh : n ∉ results) by (by rewrite <- Hseen).
        assert (Hnd' : NoDup (results ++ [n])).
        { apply NoDup_app. split; [done|]. split; [|apply NoDup_singleton].
          intros x Hx ->%list_elem_of_singleton. done. }
        assert (Hhttp' : Forall starts_http (results ++ [n])).
        { apply Forall_app. split; [done|]. by constructor. }
        assert (Hlen' : len (results ++ [n]) = len results + 1).
        { unfold len. rewrite length_app. cbn. lia. }
        destruct (cap <=? len (results ++ [n])) eqn:Hcap.
        -- apply Z.leb_le in Hcap. injection Hrun as <-.
           split; [done|]. split; [done|]. split.
           ++ destruct Hlen as [-> | Hlen]; [unfold len; cbn; lia | lia].
           ++ exists [n], [link], rest, [n]. repeat split; try done.
              ** by repeat constructor.
              ** intros x ->%list_elem_of_singleton _.
                 apply elem_of_app. right. left.
        -- apply Z.leb_gt in Hcap.
           destruct (IH (results ++ [n]) ({[n]} ∪ seen) out Hnd' Hhttp')
             as (H1 & H2 & H3 & extra & used & unread & normalized
                 & Hout & -> & Hfor & Hsub & Hall & Hcap').
           { intros x. rewrite elem_of_union, elem_of_singleton, elem_of_app,
               list_elem_of_singleton, Hseen. tauto. }
           { by right. }
           { done. }
           split; [done|]. split; [done|]. split; [done|].
           exists (n :: extra), (link :: used), unread, (n :: normalized).
           rewrite Hout, <- app_assoc. repeat split; try done.
           ++ by constructor.
           ++ by apply sublist_skip.
           ++ intros x [-> | Hx]%elem_of_cons Hx'.
              ** rewrite !elem_of_app. right. left. left.
              ** rewrite app_assoc, <- Hout. by apply Hall.
           ++ by rewrite app_assoc, <- Hout.
    + destruct (IH results seen out Hnd Hhttp Hseen Hlen Hrun)
        as (H1 & H2 & H3 & extra & used & unread & normalized
            & Hout & -> & Hfor & Hsub & Hall & Hcap).
      split; [done|]. split; [done|]. split; [done|].
      exists extra, (link :: used), unread, (n :: normalized).
      repeat split; try done.
      * by constructor.
      * by apply sublist_cons.
      * intros x [-> | Hx]%elem_of_cons Hx'; [|by apply Hall].
        unfold starts_http in Hx'. congruence.
Qed.

(** C3, amended.  Whatever page the search returns and whatever the cap,
    the links [bing_search] returns are pairwise different, each begins
    with the letters [http], and there are at most [max(1, cap)] of them:
    at most [cap] for a cap of one or more, at most one otherwise.  They
    come in the order the result containers list them; every link read
    that begins with [http] once normalized is returned; and the rest of
    the page is left unread only once the cap is reached. *)
Theorem bing_search_results (query : str) (cap : Z) (w w' : World)
    (results : list str) :
  bing_search query cap w = (Returned results, w') →
  NoDup results
  ∧ Forall starts_http results
  ∧ len results <= Z.max 1 cap
  ∧ ∃ page used unread normalized,
      BingResultParser.links
        (BingResultParser.feed BingResultParser.init (html_events page))
      = used ++ unread
      ∧ Forall2 (fun link n => normalize_bing_link link = Returned n)
          used normalized
      ∧ results `sublist_of` normalized
      ∧ (∀ x, x ∈ normalized → starts_http x → x ∈ results)
      ∧ (unread ≠ [] → cap <= len results).
Proof.
  unfold bing_search.
  intros (page & w1 & _ & [Hrun _]%lift_returned)%bind_returned.
  assert (Hempty : ∀ x : str, x ∈ (∅ : gset str) ↔ x ∈ ([] : list str)).
  { intros x. rewrite elem_of_empty. split; [done|]. by intros ?%elem_of_nil. }
  destruct (collect_results_spec cap _ [] ∅ results
              (NoDup_nil_2) (Forall_nil_2 _) Hempty (or_introl eq_refl) Hrun)
    as (H1 & H2 & H3 & extra & used & unread & normalized
        & Hout & Hlinks & Hfor & Hsub & Hall & Hcap).
  - split; [done|]. split; [done|]. split; [done|].
    exists page, used, unread, normalized. cbn [app] in Hout. subst extra.
    repeat split; assumption.
Qed.

End ResultLinks.

Section ResultLinkExamples.
Import SearchExample.

(** A run of [bing_search] on a stubbed page: the advertisement outside
    the result containers, the relative link and the repeated link are
    left out. *)
Lemma bing_search_results_witness :
  bing_search (Platform0 := Stub.platform coach_site) coach_query 10 []
  = (Returned coach_results, [py "https://www.bing.com/search?q=executive+coach+Boston"])
  ∧ NoDup coach_results
  ∧ Forall starts_http coach_results
  ∧ len coach_results <= 10.
Proof.
  assert (Hrun : bing_search (Platform0 := Stub.platform coach_site) coach_query 10 []
                 = (Returned coach_results,
                    [py "https://www.bing.com/search?q=executive+coach+Boston"]))
    by (vm_compute; reflexivity).
  split; [exact Hrun|].
  destruct (bing_search_results (Platform0 := Stub.platform coach_site)
              coach_query 10 [] _ coach_results Hrun) as (H1 & H2 & H3 & _).
  repeat split; assumption.
Defined.

(** C3 as stated fails twice.  A relative reference that begins with the
    letters http is returned although it is not an absolute http(s) link;
    and with a cap of 0 one link is returned. *)
Lemma bing_search_relative_link_and_zero_cap :
  (fst (bing_search (Platform0 := Stub.platform site) manual_query 10 [])
   = Returned [relative_link]
   ∧ is_absolute_http relative_link = false)
  ∧ (fst (bing_search (Platform0 := Stub.platform coach_site) coach_query 0 [])
     = Returned [py "https://a.example/"]
     ∧ ¬ len [py "https://a.example/"] <= 0).
Proof.
  split; (split; [vm_compute; reflexivity|]).
  - reflexivity.
  - unfold len. cbn. lia.
Qed.

End ResultLinkExamples.

(** ** Base64url payloads *)

Section Base64.

Lemma all_ascii_complete (c : ascii) : In c all_ascii.
Proof.
  unfold all_ascii. rewrite <- (ascii_nat_embedding c).
  apply in_map, in_seq. pose proof (nat_ascii_bounded c). lia.
Qed.

Lemma for_all_ascii_spec (P : ascii → bool) :
  for_all_ascii P = true → ∀ c, P c = true.
Proof.
  unfold for_all_ascii. rewrite forallb_forall.
  intros H c. apply H, all_ascii_complete.
Qed.

Lemma for_all_ascii_spec2 (P : ascii → ascii → bool) :
  for_all_ascii (fun a => for_all_ascii (P a)) = true → ∀ a b, P a b = true.
Proof.
  intros H a b. apply for_all_ascii_spec.
  by apply (for_all_ascii_spec (fun a => for_all_ascii (P a))).
Qed.

(** A character of the alphabet is no padding and decodes to its index. *)
Lemma b64_char_value (v : N) :
  (v < 64)%N →
  Ascii.eqb (b64_char v) "="%char = false ∧ b64_value (b64_char v) = Some v.
Proof.
  intros Hv.
  assert (Hall : forallb (fun n => negb (Ascii.eqb (b64_char (N.of_nat n)) "="%char)
                                   && bool_decide (b64_value (b64_char (N.of_nat n))
                                                   = Some (N.of_nat n)))
                   (seq 0 64) = true) by (vm_compute; reflexivity).
  rewrite forallb_forall in Hall.
  specialize (Hall (N.to_nat v)). rewrite N2Nat.id in Hall.
  destruct (andb_prop _ _ (Hall ltac:(apply in_seq; lia))) as [H1 H2].
  split; [by apply negb_true_iff | by apply bool_decide_eq_true in H2].
Qed.

Lemma sextets_bounded (a b : ascii) :
  (sextet1 a < 64 ∧ sextet2 a b < 64 ∧ sextet3 a b < 64 ∧ sextet4 a < 64)%N.
Proof.
  assert (H : (sextet1 a <? 64)%N && (sextet2 a b <? 64)%N
              && (sextet3 a b <? 64)%N && (sextet4 a <? 64)%N = true).
  { revert a b. apply for_all_ascii_spec2. vm_compute. reflexivity. }
  rewrite !andb_true_iff, !N.ltb_lt in H. tauto.
Qed.

(** The byte a decoder rebuilds from two neighbouring sextets. *)
Lemma first_byte (a b : ascii) :
  chr (N.lor (N.shiftl (sextet1 a) 2) (N.shiftr (sextet2 a b) 4)) = a.
Proof.
  apply Ascii.eqb_eq. revert a b. apply for_all_ascii_spec2.
  vm_compute. reflexivity.
Qed.

Lemma second_byte_high (a b : ascii) :
  N.land (sextet2 a b) 15 = N.shiftr (ord b) 4.
Proof.
  apply N.eqb_eq. revert a b. apply for_all_ascii_spec2. vm_compute. reflexivity.
Qed.

Lemma second_byte (b c : ascii) :
  chr (N.lor (N.shiftl (N.shiftr (ord b) 4) 4) (N.shiftr (sextet3 b c) 2)) = b.
Proof.
  apply Ascii.eqb_eq. revert b c. apply for_all_ascii_spec2.
  vm_compute. reflexivity.
Qed.

Lemma third_byte (b c : ascii) :
  chr (N.lor (N.shiftl (N.land (sextet3 b c) 3) 6) (sextet4 c)) = c.
Proof.
  apply Ascii.eqb_eq. revert b c. apply for_all_ascii_spec2.
  vm_compute. reflexivity.
Qed.

(** Decoding the characters of one, two and three sextets. *)
Lemma a2b_base64_first (v : N) (s : str) (l p : N) (out : list ascii) :
  (v < 64)%N →
  a2b_base64 (b64_char v :: s) 0 l p out = a2b_base64 s 1 v 0 out.
Proof.
  intros [H1 H2]%b64_char_value. cbn [a2b_base64]. by rewrite H1, H2.
Qed.

Lemma a2b_base64_second (v : N) (s : str) (l p : N) (out : list ascii) :
  (v < 64)%N →
  a2b_base64 (b64_char v :: s) 1 l p out
  = a2b_base64 s 2 (N.land v 15) 0
      (out ++ [chr (N.lor (N.shiftl l 2) (N.shiftr v 4))]).
Proof.
  intros [H1 H2]%b64_char_value. cbn [a2b_base64]. by rewrite H1, H2.
Qed.

Lemma a2b_base64_third (v : N) (s : str) (l p : N) (out : list ascii) :
  (v < 64)%N →
  a2b_base64 (b64_char v :: s) 2 l p out
  = a2b_base64 s 3 (N.land v 3) 0
      (out ++ [chr (N.lor (N.shiftl l 4) (N.shiftr v 2))]).
Proof.
  intros [H1 H2]%b64_char_value. cbn [a2b_base64]. by rewrite H1, H2.
Qed.

Lemma a2b_base64_fourth (v : N) (s : str) (l p : N) (out : list ascii) :
  (v < 64)%N →
  a2b_base64 (b64_char v :: s) 3 l p out
  = a2b_base64 s 0 0 0 (out ++ [chr (N.lor (N.shiftl l 6) v)]).
Proof.
  intros [H1 H2]%b64_char_value. cbn [a2b_base64]. by rewrite H1, H2.
Qed.

Lemma a2b_base64_only_padding (k : nat) (l p : N) (out : list ascii) :
  a2b_base64 (repeat "="%char k) 0 l p out = Some out.
Proof. induction k as [|k IH]; [done|]. cbn. apply IH. Qed.

(** The decoder undoes the encoder, given the padding that fills the last
    quad. *)
Lemma a2b_base64_encode (n : nat) :
  ∀ (bytes : list ascii) (k : nat) (l p : N) (out : list ascii),
    (length bytes <= n)%nat →
    ((length (b64url_encode bytes) + k) mod 4 = 0)%nat →
    a2b_base64 (b64url_encode bytes ++ repeat "="%char k) 0 l p out
    = Some (out ++ bytes).
Proof.
  induction n as [|n IH]; intros bytes k l p out Hlen Hpad.
  - destruct bytes; [|cbn in Hlen; lia]. cbn [b64url_encode app].
    rewrite app_nil_r. apply a2b_base64_only_padding.
  - destruct bytes as [|a [|b [|c rest]]].
    + cbn [b64url_encode app]. rewrite app_nil_r. apply a2b_base64_only_padding.
    + destruct (sextets_bounded a zero) as (B1 & B2 & _).
      cbn [b64url_encode app].
      rewrite a2b_base64_first, a2b_base64_second by done.
      rewrite first_byte.
      destruct k as [|[|k]]; [discriminate Hpad | discriminate Hpad |].
      reflexivity.
    + destruct (sextets_bounded a b) as (B1 & B2 & _).
      destruct (sextets_bounded b zero) as (_ & _ & B3 & _).
      cbn [b64url_encode app].
      rewrite a2b_base64_first, a2b_base64_second, a2b_base64_third by done.
      rewrite first_byte, second_byte_high, second_byte.
      destruct k as [|k]; [discriminate Hpad|].
      cbn. by rewrite <- app_assoc.
    + destruct (sextets_bounded a b) as (B1 & B2 & _).
      destruct (sextets_bounded b c) as (_ & _ & B3 & _).
      destruct (sextets_bounded c c) as (_ & _ & _ & B4).
      cbn [b64url_encode app].
      rewrite a2b_base64_first, a2b_base64_second, a2b_base64_third,
        a2b_base64_fourth by done.
      rewrite first_byte, second_byte_high, second_byte, third_byte.
      rewrite IH.
      * by rewrite <- !app_assoc.
      * cbn in Hlen. lia.
      * cbn [b64url_encode length] in Hpad.
        replace (S (S (S (S (length (b64url_encode rest))))) + k)%nat
          with ((length (b64url_encode rest) + k) + 1 * 4)%nat in Hpad by lia.
        by rewrite Nat.Div0.mod_add in Hpad.
Qed.

(** The padding [normalize_bing_link] appends fills the last quad. *)
Lemma padding_fills_quad (n : nat) :
  ((n + Z.to_nat ((- Z.of_nat n) mod 4)) mod 4 = 0)%nat.
Proof.
  assert (H : (Z.of_nat n + (- Z.of_nat n) mod 4) mod 4 = 0)
    by (Z.div_mod_to_equations; lia).
  assert (H0 : 0 <= (- Z.of_nat n) mod 4) by (apply Z.mod_pos_bound; lia).
  apply Nat2Z.inj. rewrite Nat2Z.inj_mod, Nat2Z.inj_add, Z2Nat.id by done.
  exact H.
Qed.

Lemma urlsafe_b64decode_encode (bytes : list ascii) :
  let encoded := b64url_encode bytes in
  urlsafe_b64decode (encoded ++ repeat "="%char (Z.to_nat ((- len encoded) mod 4)))
  = Some bytes.
Proof.
  cbn zeta. unfold urlsafe_b64decode, len.
  rewrite (a2b_base64_encode (length bytes)); [done | done | apply padding_fills_quad].
Qed.

End Base64.

(** ** Redirect links *)

Section RedirectLinks.
Context {World : Type} `{!Platform World}.

Lemma normalize_bing_link_payload (link : str) (parsed : url_parts) :
  contains (py "bing.com/ck/a") link = true →
  urlparse link = Some parsed →
  normalize_bing_link link
  = Returned match bing_payload parsed with
             | Some decoded =>
                 if startswith decoded (py "http") then decoded else link
             | None => link
             end.
Proof.
  intros Hin Hparsed. unfold normalize_bing_link, parse_url, bing_payload.
  rewrite Hin, Hparsed. cbn [negb rbind].
  destruct (truthy (u_param parsed)); cbn [negb]; [|done].
  destruct (urlsafe_b64decode _); [|done].
  destruct (bytes_decode _ _) as [decoded|]; [|done].
  by destruct (startswith decoded _).
Qed.

(** A payload that is [a1] followed by the unpadded base64url encoding of
    some bytes decodes to the text of those bytes. *)
Lemma bing_payload_encoded (parsed : url_parts) (target : list ascii) :
  u_param parsed = py "a1" ++ b64url_encode target →
  bing_payload parsed = bytes_decode (py "utf-8") target.
Proof.
  intros Hu. unfold bing_payload. rewrite Hu.
  change (py "a1" ++ b64url_encode target)
    with ("a"%char :: "1"%char :: b64url_encode target).
  cbn [truthy startswith Ascii.eqb Bool.eqb py list_ascii_of_string drop].
  change (drop 0 (b64url_encode target)) with (b64url_encode target).
  by rewrite urlsafe_b64decode_encode.
Qed.

(** C4, amended.  A link that does not contain [bing.com/ck/a] comes back
    unchanged.  A redirect link that [urlparse] accepts comes back
    unchanged when it has no [u] parameter.  With a [u] parameter: when
    the parameter (less its [a1] prefix, padded to a multiple of four)
    base64url-decodes to text that begins with the letters [http], the
    decoded text is returned, whether or not it is an absolute URL; when
    decoding fails or the text begins otherwise, the link comes back
    unchanged.  In particular a parameter that is [a1] followed by the
    base64url encoding of a text that begins with [http] yields that
    text. *)
Theorem normalize_bing_link_spec (link : str) :
  (contains (py "bing.com/ck/a") link = false →
   normalize_bing_link link = Returned link)
  ∧ (contains (py "bing.com/ck/a") link = true →
     ∀ parsed, urlparse link = Some parsed →
     (u_param parsed = [] → normalize_bing_link link = Returned link)
     ∧ (∀ decoded, bing_payload parsed = Some decoded → starts_http decoded →
                   normalize_bing_link link = Returned decoded)
     ∧ (∀ decoded, bing_payload parsed = Some decoded → ¬ starts_http decoded →
                   normalize_bing_link link = Returned link)
     ∧ (bing_payload parsed = None → normalize_bing_link link = Returned link)
     ∧ (∀ target decoded,
          u_param parsed = py "a1" ++ b64url_encode target →
          bytes_decode (py "utf-8") target = Some decoded →
          starts_http decoded →
          normalize_bing_link link = Returned decoded)).
Proof.
  split.
  - intros Hout. unfold normalize_bing_link. by rewrite Hout.
  - intros Hin parsed Hparsed.
    rewrite (normalize_bing_link_payload link parsed Hin Hparsed).
    split; [|split; [|split; [|split]]].
    + intros Hu. unfold bing_payload. by rewrite Hu.
    + intros decoded -> Hhttp. by rewrite Hhttp.
    + intros decoded -> Hhttp. unfold starts_http in Hhttp.
      by destruct (startswith decoded (py "http")).
    + by intros ->.
    + intros target decoded Hu Hdec Hhttp.
      by rewrite (bing_payload_encoded parsed target Hu), Hdec, Hhttp.
Qed.

End RedirectLinks.

Section RedirectExamples.
Import SearchExample.

Example normalize_wrapped_link :
  normalize wrapped_link = Returned (py "https://www.example.com/")
  ∧ normalize wrapped_nothing = Returned wrapped_nothing
  ∧ normalize wrapped_ftp = Returned wrapped_ftp
  ∧ normalize (py "https://www.example.com/a?u=a1aHR0cGQ")
    = Returned (py "https://www.example.com/a?u=a1aHR0cGQ")
  ∧ normalize wrapped_bracket = Raised value_error.
Proof. vm_compute. done. Qed.

(** C4 as stated fails: the payload of this redirect link decodes to the
    text [httpd], which is no absolute URL, and the link does not come back
    unchanged: [httpd] does.  And a redirect link whose authority
    [urlparse] rejects comes back not at all. *)
Lemma normalize_bing_link_accepts_non_url :
  (bing_payload (Platform0 := Stub.platform []) (parts wrapped_httpd)
   = Some (py "httpd")
   ∧ is_absolute_http (py "httpd") = false
   ∧ normalize wrapped_httpd = Returned (py "httpd")
   ∧ normalize wrapped_httpd ≠ Returned wrapped_httpd)
  ∧ normalize wrapped_bracket = Raised value_error.
Proof. vm_compute. done. Qed.

End RedirectExamples.

(** ** The location extractor *)

Section Location.

(** Every match of the location pattern starts at a backslash. *)
Lemma location_re_match_at (state_abbr s : str) :
  (∀ rest, s ≠ "\"%char :: rest) →
  Re.match_at Re.no_flags (location_re state_abbr) s = None.
Proof.
  intros Hhead. unfold Re.match_at, location_re.
  cbn [Re.seq foldr Re.lits Re.lits_of py list_ascii_of_string Re.run].
  destruct s as [|c s]; [done|].
  cbn [Re.atom_matches Re.ignorecase Re.no_flags].
  destruct (Ascii.eqb "\" c) eqn:E; [|done].
  apply Ascii.eqb_eq in E as <-. by destruct (Hhead s).
Qed.

Lemma location_re_search_from (state_abbr s : str) (pos : nat) :
  "\"%char ∉ s →
  Re.search_from Re.no_flags (location_re state_abbr) pos s = None.
Proof.
  revert pos. induction s as [|c s IH]; intros pos Hfree; cbn [Re.search_from].
  - by rewrite location_re_match_at.
  - rewrite location_re_match_at.
    + apply IH. intros Hin. apply Hfree. by right.
    + intros rest [= -> _]. apply Hfree. left.
Qed.

Lemma location_re_compiles (state_abbr : str) :
  Re.compiles (location_re state_abbr) = true.
Proof.
  unfold location_re.
  cbn [Re.seq foldr Re.compiles Re.lits Re.lits_of py list_ascii_of_string
       Re.plus Re.atom_ok upper_AZ lower_az forallb Re.item_ok andb].
  replace (ord "A" <=? ord "Z")%N with true by reflexivity.
  replace (ord "a" <=? ord "z")%N with true by reflexivity.
  cbn [andb]. induction state_abbr as [|c abbr IH]; [done|]. cbn. done.
Qed.

Lemma extract_location_loop_without_backslash (states : list (str * str))
    (text : str) :
  "\"%char ∉ text →
  extract_location_loop states text = Returned (first_state_named states text).
Proof.
  intros Hfree. unfold first_state_named.
  induction states as [|[state_name state_abbr] states IH]; [done|].
  cbn [extract_location_loop List.find fst].
  unfold Re.search. rewrite location_re_compiles.
  rewrite location_re_search_from by done. cbn [rbind].
  destruct (contains (lower state_name) (lower text)); [done|]. apply IH.
Qed.

(** In text without a backslash the "City, ST" pattern never matches: the
    extractor answers with a bare region name or with nothing. *)
Lemma extract_location_without_backslash (text : str) :
  "\"%char ∉ text →
  extract_location text = Returned (first_state_named EAST_COAST_STATES text).
Proof. apply extract_location_loop_without_backslash. Qed.

(** C7, on the code.  Text with a "City, ST" location for a permitted
    region code and no region name gets no location at all; with a region
    name elsewhere in the text, that name is returned and not the city. *)
Theorem extract_location_misses_city_state :
  extract_location (py "Boston, MA") = Returned []
  ∧ extract_location (py "Executive coach in Raleigh, NC since 2009") = Returned []
  ∧ extract_location (py "Based in Boston, MA, with clients from Maine to Florida")
    = Returned (py "Maine").
Proof. vm_compute. done. Qed.

(** The pattern does match once the text spells the backslashes out. *)
Example extract_location_literal_backslashes :
  extract_location (py "\bBoston,\MA\b") = Returned (py "Boston, MA")
  ∧ extract_location (py "\bNew\sYork,\sNY\b") = Returned (py "New\sYork, NY").
Proof. vm_compute. done. Qed.

End Location.

(** ** The candidate pipeline *)

Section CandidateFacts.
Context {World : Type} `{!Platform World}.
Variable profile_link : str → result str.

(** One pass through the loop body leaves the leads as they were or adds
    one lead, for a link whose domain was not seen before. *)
Lemma process_link_returned (target link : str) (st st' : locals) (w w' : World) :
  process_link profile_link target link st w = (Returned st', w') →
  seen_domains st ⊆ seen_domains st'
  ∧ (leads st' = leads st
     ∨ ∃ lead html_text profile,
         leads st' = leads st ++ [lead]
         ∧ website_url lead = link
         ∧ profile_link html_text = Returned profile
         ∧ qualifies (TextExtractor.text
                        (TextExtractor.feed TextExtractor.init
                           (html_events html_text))) = true
         ∧ ¬ lead_domain lead ∈ seen_domains st
         ∧ lead_domain lead ∈ seen_domains st'
         ∧ role lead = py "Executive Coach"
         ∧ name lead ≠ []
         ∧ (target ≠ [] → location lead ≠ [])
         ∧ contains (py "linkedin.com") (lead_domain lead) = false).
Proof.
  unfold process_link.
  intros (parsed & w0 & [Hparsed _]%lift_returned & Hrun)%bind_returned.
  unfold parse_url in Hparsed.
  destruct (urlparse link) as [parsed'|] eqn:Hurl; [|done].
  injection Hparsed as ->. revert Hrun.
  destruct (negb (truthy (lower (netloc parsed)))
            || bool_decide (lower (netloc parsed) ∈ seen_domains st)) eqn:Hseen.
  { intros [<- _]%ret_returned. split; [done | by left]. }
  destruct (contains (py "linkedin.com") (lower (netloc parsed))) eqn:Hli.
  { intros [<- _]%ret_returned. split; [done | by left]. }
  apply orb_false_iff in Hseen as [_ Hnew]. apply bool_decide_eq_false in Hnew.
  intros (fetched & w1 & Hfetch & Hrest)%bind_returned.
  destruct fetched as [html_text|].
  2:{ apply ret_returned in Hrest as [<- _]. cbn. split; [set_solver | by left]. }
  apply bind_returned in Hrest as (title & w2 & _ & Hrest).
  apply bind_returned in Hrest as (h1 & w3 & _ & Hrest).
  destruct (looks_like_executive_coach _) eqn:Hlooks; cbn [negb] in Hrest.
  2:{ apply ret_returned in Hrest as [<- _]. cbn. split; [set_solver | by left]. }
  destruct (contains_excluded_keywords _) eqn:Hexcluded.
  { apply ret_returned in Hrest as [<- _]. cbn. split; [set_solver | by left]. }
  apply bind_returned in Hrest as (loc & w4 & _ & Hrest).
  apply bind_returned in Hrest as (profile & w5 & [Hprofile _]%lift_returned & Hrest).
  apply bind_returned in Hrest as (profile' & w6 & _ & Hrest).
  apply ret_returned in Hrest as [<- _]. cbn [leads seen_domains].
  split; [set_solver|]. right. eexists _, html_text, profile.
  split; [reflexivity|]. unfold lead_domain. cbn. rewrite Hurl.
  split; [done|]. split; [done|].
  split; [unfold qualifies; by rewrite Hlooks, Hexcluded|].
  split; [done|]. split; [set_solver|].
  split; [done|]. split; [|split; [|done]].
  - destruct (truthy (guess_name title h1)) eqn:Hname; [by apply truthy_true | done].
  - intros Htarget.
    destruct (truthy loc) eqn:Hloc; cbn [negb andb].
    + by apply truthy_true.
    + by destruct (contains _ target).
Qed.

(** *** Loop invariants: what every pass through the loop body preserves
    holds when the loops are left. *)

Section Invariant.
Variable P : locals → Prop.
Variable limit : Z.

Lemma links_loop_invariant (target : str) (results : list str) :
  preserved_at profile_link P limit target →
  ∀ st w o w', P st →
    links_loop profile_link limit target results st w = (Returned o, w') →
    flow_satisfies P o.
Proof.
  intros Hpres. induction results as [|link rest IH]; intros st w o w' HP;
    cbn [links_loop].
  - by intros [<- _]%ret_returned.
  - destruct (limit <=? len (leads st)) eqn:Hlimit.
    + intros [<- _]%ret_returned. by exists st.
    + apply Z.leb_gt in Hlimit.
      intros (st1 & w1 & Hbody & Hrest)%bind_returned.
      apply (IH st1 w1 o w'); [|done]. by eapply Hpres.
Qed.

Lemma seeds_loop_invariant (target : str) (seeds : list str) :
  preserved_at profile_link P limit target →
  ∀ st w o w', P st →
    seeds_loop profile_link limit target seeds st w = (Returned o, w') →
    flow_satisfies P o.
Proof.
  intros Hpres. induction seeds as [|seed rest IH]; intros st w o w' HP;
    cbn [seeds_loop].
  - by intros [<- _]%ret_returned.
  - destruct (limit <=? len (leads st)) eqn:Hlimit.
    + intros [<- _]%ret_returned. by exists st.
    + intros (searched & w1 & _ & Hrest)%bind_returned.
      destruct searched as [results|]; [|by apply (IH st w1 o w')].
      apply bind_returned in Hrest as (outcome & w2 & Hlinks & Hrest).
      apply (links_loop_invariant target results Hpres) in Hlinks; [|done].
      destruct outcome as [st2 | found].
      * by apply (IH st2 w2 o w').
      * by apply ret_returned in Hrest as [<- _].
Qed.

Lemma targets_loop_invariant (targets : list str) :
  (∀ target, target ∈ targets → preserved_at profile_link P limit target) →
  ∀ st w o w', P st →
    targets_loop profile_link limit targets st w = (Returned o, w') →
    flow_satisfies P o.
Proof.
  induction targets as [|target rest IH]; intros Hpres st w o w' HP;
    cbn [targets_loop].
  - by intros [<- _]%ret_returned.
  - intros (outcome & w1 & Hseeds & Hrest)%bind_returned.
    apply (seeds_loop_invariant target SEARCH_SEEDS) in Hseeds;
      [|apply Hpres; left|done].
    destruct outcome as [st1 | found].
    + apply (IH ltac:(intros t Ht; apply Hpres; by right) st1 w1 o w'); done.
    + by apply ret_returned in Hrest as [<- _].
Qed.

Lemma build_candidates_with_invariant (w w' : World) (found : list Lead) :
  (∀ target, target ∈ search_targets → preserved_at profile_link P limit target) →
  P {| leads := []; seen_domains := ∅ |} →
  build_candidates_with profile_link limit w = (Returned found, w') →
  ∃ st, P st ∧ found = leads st.
Proof.
  intros Hpres Hinit. unfold build_candidates_with.
  intros (outcome & w1 & Hloop & Hrest)%bind_returned.
  apply (targets_loop_invariant search_targets Hpres) in Hloop; [|done].
  destruct outcome as [st | found']; apply ret_returned in Hrest as [<- _].
  - by exists st.
  - done.
Qed.

End Invariant.

(** *** The invariant of the specification *)

Lemma candidates_invariant_init (limit : Z) :
  candidates_invariant limit {| leads := []; seen_domains := ∅ |}.
Proof.
  unfold candidates_invariant. cbn. repeat split; try constructor.
  - intros l Hl. by apply elem_of_nil in Hl.
  - unfold len. cbn. lia.
Qed.

Lemma candidates_invariant_preserved (limit : Z) (target : str) :
  target ≠ [] → preserved_at profile_link (candidates_invariant limit) limit target.
Proof.
  intros Htarget link st st' w w' (Hnd & Hseen & Hwf & Hlen) Hroom Hbody.
  apply process_link_returned in Hbody as [Hsub [Hsame | Hnew]].
  - unfold candidates_invariant. rewrite Hsame. repeat split; try done.
    intros l Hl. apply Hsub. by apply Hseen.
  - destruct Hnew as (lead & html_text & profile & Hleads & Hurl & _ & _ & Hfresh
                      & Hin & Hrole & Hname & Hloc & Hli).
    unfold candidates_invariant. rewrite Hleads. repeat split.
    + rewrite map_app. apply NoDup_app. split; [done|].
      split; [|apply NoDup_singleton].
      intros d Hd ->%list_elem_of_singleton.
      apply list_elem_of_In, in_map_iff in Hd as (l & Hl & Hlin).
      apply Hfresh. rewrite <- Hl. by apply Hseen, list_elem_of_In.
    + intros l [Hl | ->%list_elem_of_singleton]%elem_of_app; [|done].
      apply Hsub. by apply Hseen.
    + apply Forall_app. split; [done|]. constructor; [|done].
      unfold well_formed_lead. auto.
    + unfold len in *. rewrite length_app. cbn. lia.
Qed.

Lemma search_targets_nonempty : ∀ target, target ∈ search_targets → target ≠ [].
Proof.
  assert (H : Forall (fun t : str => t ≠ []) search_targets).
  { unfold search_targets, EAST_COAST_CITIES, EAST_COAST_STATES.
    cbn [map app fst]. repeat constructor; done. }
  intros target Hin. by apply (proj1 (Forall_forall _ _) H).
Qed.

Lemma build_candidates_with_returned (limit : Z) (w w' : World)
    (found : list Lead) :
  build_candidates_with profile_link limit w = (Returned found, w') →
  NoDup (map lead_domain found)
  ∧ Forall well_formed_lead found
  ∧ len found <= Z.max 0 limit.
Proof.
  intros Hrun.
  apply (build_candidates_with_invariant (candidates_invariant limit)) in Hrun
    as (st & (Hnd & _ & Hwf & Hlen) & ->).
  - done.
  - intros target Hin. apply candidates_invariant_preserved.
    by apply search_targets_nonempty.
  - apply candidates_invariant_init.
Qed.

(** *** Stopping at the limit: once the count has reached the limit, the
    loops return the leads at once and leave the world untouched. *)

Lemma links_loop_at_limit (limit : Z) (target link : str) (rest : list str)
    (st : locals) (w : World) :
  limit <= len (leads st) →
  links_loop profile_link limit target (link :: rest) st w
  = (Returned (Return (leads st)), w).
Proof. intros Hfull. cbn [links_loop]. apply Z.leb_le in Hfull. by rewrite Hfull. Qed.

Lemma seeds_loop_at_limit (limit : Z) (target seed : str) (rest : list str)
    (st : locals) (w : World) :
  limit <= len (leads st) →
  seeds_loop profile_link limit target (seed :: rest) st w
  = (Returned (Return (leads st)), w).
Proof. intros Hfull. cbn [seeds_loop]. apply Z.leb_le in Hfull. by rewrite Hfull. Qed.

Lemma targets_loop_at_limit (limit : Z) (target : str) (rest : list str)
    (st : locals) (w : World) :
  limit <= len (leads st) →
  targets_loop profile_link limit (target :: rest) st w
  = (Returned (Return (leads st)), w).
Proof.
  intros Hfull. cbn [targets_loop]. unfold bind, SEARCH_SEEDS. cbn [map].
  by rewrite seeds_loop_at_limit.
Qed.

(** With a limit of zero or less nothing is requested and nothing found. *)
Lemma build_candidates_with_no_limit (limit : Z) (w : World) :
  limit <= 0 → build_candidates_with profile_link limit w = (Returned [], w).
Proof.
  intros Hlimit. unfold build_candidates_with, bind, search_targets,
    EAST_COAST_CITIES. cbn [map app].
  rewrite targets_loop_at_limit; [done|]. unfold len. cbn. lia.
Qed.

(** The part of C2 that holds of the loops for every profile-link
    extractor: a run that returns, returns at most [limit] leads. *)
Lemma build_candidates_with_bounded (limit : Z) (w w' : World)
    (found : list Lead) :
  0 <= limit →
  build_candidates_with profile_link limit w = (Returned found, w') →
  len found <= limit.
Proof.
  intros Hlimit Hrun. apply build_candidates_with_returned in Hrun. lia.
Qed.

End CandidateFacts.

(** *** [build_candidates] itself *)

Section BuildCandidates.
Context {World : Type} `{!Platform World}.

(** The profile-link pattern does not compile: its character set holds the
    range from backslash down to slash. *)
Lemma linkedin_re_does_not_compile : Re.compiles linkedin_re = false.
Proof. vm_compute. reflexivity. Qed.

Lemma extract_linkedin_raises (html_text : str) :
  extract_linkedin html_text = Raised re_error.
Proof.
  unfold extract_linkedin, Re.search. by rewrite linkedin_re_does_not_compile.
Qed.

Lemma build_candidates_returns_nothing (limit : Z) (w w' : World)
    (found : list Lead) :
  build_candidates limit w = (Returned found, w') → found = [].
Proof.
  unfold build_candidates. intros Hrun.
  apply (build_candidates_with_invariant extract_linkedin
           (fun st => leads st = []) limit) in Hrun as (st & Hst & ->).
  - done.
  - intros target _ link st st' w0 w0' Hst _ Hbody.
    apply process_link_returned in Hbody as [_ [Hsame | Hnew]].
    + congruence.
    + destruct Hnew as (lead & html_text & profile & _ & _ & Hprofile & _).
      rewrite extract_linkedin_raises in Hprofile. discriminate.
  - done.
Qed.

(** C9.  The leads a run returns lie on pairwise different lower-cased
    source domains.  This holds of the loops of [build_candidates] with any
    profile-link extractor in the place of [extract_linkedin], for every
    limit and every behaviour of the network. *)
Theorem no_two_leads_share_a_domain (profile_link : str → result str)
    (limit : Z) (w w' : World) (found : list Lead) :
  build_candidates_with profile_link limit w = (Returned found, w') →
  ∀ i j a b, found !! i = Some a → found !! j = Some b → i ≠ j →
             lead_domain a ≠ lead_domain b.
Proof.
  intros Hrun i j a b Ha Hb Hij Hsame.
  apply build_candidates_with_returned in Hrun as (Hnd & _).
  change (map lead_domain found) with (lead_domain <$> found) in Hnd.
  apply Hij. apply (proj1 (NoDup_alt _) Hnd i j (lead_domain a)).
  - by rewrite list_lookup_fmap, Ha.
  - by rewrite list_lookup_fmap, Hb, Hsame.
Qed.

(** C10.  Every lead a run returns has the role "Executive Coach", a
    non-empty name, a non-empty location, and a source domain that does not
    contain "linkedin.com".  As C9, this holds with any profile-link
    extractor in the place of [extract_linkedin]. *)
Theorem leads_are_well_formed (profile_link : str → result str)
    (limit : Z) (w w' : World) (found : list Lead) :
  build_candidates_with profile_link limit w = (Returned found, w') →
  Forall well_formed_lead found.
Proof.
  intros Hrun. by apply build_candidates_with_returned in Hrun as (_ & Hwf & _).
Qed.

End BuildCandidates.

Section PipelineExamples.
Import PipelineExample.

(** The end-to-end example of the specification, with a profile-link
    extractor that does not raise: three qualifying pages on three
    domains, a limit of two; the run returns the first two and never
    requests the third page. *)
Example two_of_three_with_working_extractor :
  build_candidates_with (Platform0 := platform) no_profile_link 2 []
  = (Returned [ann; bo], requests_for_two)
  ∧ py "https://c.example/" ∉ requests_for_two.
Proof.
  split; [vm_compute; reflexivity|].
  intros Hin. vm_compute in Hin.
  repeat (apply elem_of_cons in Hin as [[=] | Hin]). by apply elem_of_nil in Hin.
Qed.

(** With fewer qualifying pages than the limit asks for, the run goes
    through every (target, seed) pair and returns what it found. *)
Example fewer_than_requested :
  fst (build_candidates_with (Platform0 := platform) no_profile_link 5 [])
  = Returned [ann; bo;
              {| name := py "Cy Fox"; role := py "Executive Coach";
                 website_url := py "https://c.example/"; linkedin_url := [];
                 location := py "New York, NY"; specialty := py "leadership";
                 evidence := py "Cy Fox A leadership coach" |}].
Proof. vm_compute. reflexivity. Qed.

(** C2, on the code.  On the input of the specification's example
    (three qualifying pages on three domains, limit 2) [build_candidates]
    returns no list: it raises [re.error] on the first page that passes the
    qualification filter, after the search and one page fetch.  Whatever the
    network answers, a run that returns at all returns the empty list. *)
Theorem build_candidates_raises_on_qualifying_page :
  build_candidates (Platform0 := platform) 2 []
  = (Raised re_error, [first_search; py "https://a.example/"])
  ∧ ∀ (World : Type) (P : Platform World) limit w w' found,
      build_candidates limit w = (Returned found, w') → found = [].
Proof.
  split; [vm_compute; reflexivity|].
  intros World P limit w w' found. apply build_candidates_returns_nothing.
Qed.

(** The two theorems at the run above: two leads, on two domains, each
    well-formed. *)
Lemma no_two_leads_share_a_domain_witness :
  build_candidates_with (Platform0 := platform) no_profile_link 2 []
  = (Returned [ann; bo], requests_for_two)
  ∧ lead_domain (Platform0 := platform) ann ≠ lead_domain (Platform0 := platform) bo.
Proof.
  assert (Hrun : build_candidates_with (Platform0 := platform) no_profile_link 2 []
                 = (Returned [ann; bo], requests_for_two))
    by (vm_compute; reflexivity).
  split; [exact Hrun|].
  apply (no_two_leads_share_a_domain (Platform0 := platform)
           no_profile_link 2 [] requests_for_two [ann; bo] Hrun 0%nat 1%nat ann bo);
    [reflexivity | reflexivity | discriminate].
Defined.

Lemma leads_are_well_formed_witness :
  build_candidates_with (Platform0 := platform) no_profile_link 2 []
  = (Returned [ann; bo], requests_for_two)
  ∧ Forall (well_formed_lead (Platform0 := platform)) [ann; bo].
Proof.
  assert (Hrun : build_candidates_with (Platform0 := platform) no_profile_link 2 []
                 = (Returned [ann; bo], requests_for_two))
    by (vm_compute; reflexivity).
  split; [exact Hrun|].
  exact (leads_are_well_formed (Platform0 := platform)
           no_profile_link 2 [] requests_for_two [ann; bo] Hrun).
Defined.

End PipelineExamples.

(* ===================================================================== *)
(** * Part III: further properties of the code                            *)
(* ===================================================================== *)

(** ** The send log on disk *)

Section LogFile.
Import SendLog SendLogSpec SendLogFile.

Variable fromisoformat : str → option datetime.

Lemma dict_row_lookup_other (names record : list str) (d : gmap str (option str))
    (key : str) :
  key ∉ names → dict_row names record d !! key = d !! key.
Proof.
  revert record d. induction names as [|k names IH]; intros record d Hout;
    [by destruct record|].
  apply not_elem_of_cons in Hout as [Hk Hout].
  destruct record as [|cell cells]; cbn [dict_row]; rewrite IH by done;
    by rewrite lookup_insert_ne.
Qed.

(** A column name that occurs once names the cell at its position, and
    [None] in a record too short to have one. *)
Lemma dict_row_lookup (names record : list str) (d : gmap str (option str))
    (i : nat) (key : str) :
  NoDup names → names !! i = Some key →
  dict_row names record d !! key = Some (record !! i).
Proof.
  revert record d i. induction names as [|k names IH]; intros record d i Hnd Hi;
    [done|].
  apply NoDup_cons in Hnd as [Hk Hnd].
  destruct i as [|i].
  - injection Hi as ->.
    destruct record as [|cell cells]; cbn [dict_row];
      rewrite dict_row_lookup_other by done; by rewrite lookup_insert_eq.
  - cbn in Hi.
    destruct record as [|cell cells]; cbn [dict_row].
    + rewrite (IH [] _ i) by done. by destruct i.
    + by rewrite (IH cells _ i).
Qed.

Lemma LOG_HEADER_NoDup : NoDup LOG_HEADER.
Proof.
  apply (bool_decide_unpack _). vm_compute. reflexivity.
Qed.

(** The rows [csv.DictReader] makes of a log under the header of
    [log_send]: one for every line that is not blank. *)
Lemma own_log_rows (rest : records) (row : gmap str (option str)) :
  row ∈ DictReader (LOG_HEADER :: rest)
  ↔ ∃ cell cells, (cell :: cells) ∈ rest
                  ∧ row = dict_row LOG_HEADER (cell :: cells) ∅.
Proof.
  cbn [DictReader]. rewrite list_elem_of_In, in_map_iff. split.
  - intros (record & <- & [Hin Hfull]%filter_In).
    destruct record as [|cell cells]; [done|].
    exists cell, cells. by rewrite list_elem_of_In.
  - intros (cell & cells & Hin & ->). exists (cell :: cells).
    split; [done|]. apply filter_In. by rewrite <- list_elem_of_In.
Qed.

Lemma own_log_cell (record : list str) (i : nat) (key : string) :
  LOG_HEADER !! i = Some (py key) →
  dict_row LOG_HEADER record ∅ !! py key = Some (record !! i).
Proof. apply dict_row_lookup, LOG_HEADER_NoDup. Qed.

(** The loop of [should_skip_send] over a log under the header of
    [log_send]: it returns, and it answers true exactly for a line that
    carries the four fields in their columns and a timestamp that parses
    and is not older than the cutoff. *)
Lemma own_log_scan (recipient subject sender template_version : str)
    (cutoff : Z) (rest : records) :
  ∃ answer,
    scan fromisoformat recipient subject sender template_version cutoff
      (DictReader (LOG_HEADER :: rest)) = Returned answer
    ∧ (answer = true
       ↔ ∃ timestamp message_id extra d,
           (timestamp :: recipient :: subject :: sender :: message_id
              :: template_version :: extra) ∈ rest
           ∧ fromisoformat timestamp = Some d
           ∧ cutoff <= instant (assume_utc d)).
Proof.
  destruct (scan_spec fromisoformat recipient subject sender template_version
              cutoff (DictReader (LOG_HEADER :: rest))) as (answer & Hrun & Hanswer).
  { intros row (cell & cells & _ & ->)%own_log_rows.
    by rewrite (own_log_cell _ 0 "timestamp_utc"). }
  exists answer. split; [done|]. rewrite Hanswer. split.
  - intros (row & t & (cell & cells & Hin & ->)%own_log_rows & Hsame & Ht & Hle).
    destruct Hsame as (Hr & Hs & Hf & Hv).
    rewrite (own_log_cell _ 1 "recipient") in Hr by done.
    rewrite (own_log_cell _ 2 "subject") in Hs by done.
    rewrite (own_log_cell _ 3 "sender") in Hf by done.
    rewrite (own_log_cell _ 5 "template_version") in Hv by done.
    unfold sent_instant, get_or_empty in Ht.
    rewrite (own_log_cell _ 0 "timestamp_utc") in Ht by done.
    cbn in Ht, Hr, Hs, Hf, Hv.
    destruct cells as [|c1 [|c2 [|c3 [|c4 [|c5 extra]]]]]; try done.
    cbn in Hr, Hs, Hf, Hv.
    injection Hr as ->. injection Hs as ->. injection Hf as ->. injection Hv as ->.
    destruct (fromisoformat cell) as [d|] eqn:Hd; [|done].
    injection Ht as <-. by exists cell, c4, extra, d.
  - intros (timestamp & message_id & extra & d & Hin & Hd & Hle).
    eexists _, _. split; [apply own_log_rows; by eexists _, _|].
    split; [|split; [|exact Hle]].
    + unfold same_send.
      rewrite (own_log_cell _ 1 "recipient"), (own_log_cell _ 2 "subject"),
        (own_log_cell _ 3 "sender"), (own_log_cell _ 5 "template_version") by done.
      done.
    + unfold sent_instant, get_or_empty.
      rewrite (own_log_cell _ 0 "timestamp_utc") by done. cbn. by rewrite Hd.
Qed.


(** After [log_send], the loop of [should_skip_send] finds the send. *)
Lemma log_send_then_skip (isoformat : Z → str) (creatable : str → bool)
    (log_path : str) (sent_at now : Z) (log : option records)
    (recipient subject sender message_id template_version : str)
    (window_hours : Z) (written : records) :
  own_log log = true →
  log_send isoformat creatable log_path sent_at log
    recipient subject sender message_id template_version = Some written →
  fromisoformat (isoformat sent_at)
    = Some {| wall_us := sent_at; utcoffset_us := Some 0 |} →
  in_datetime_range (now - hours_us window_hours) = true →
  now - hours_us window_hours <= sent_at →
  SendLogFile.should_skip_send fromisoformat now (Some written)
    recipient subject sender template_version window_hours
  = Returned true.
Proof.
  intros Hown Hwritten Hiso Hrange Hrecent.
  assert (∃ rest,
            written
            = LOG_HEADER
                :: rest ++ [[isoformat sent_at; recipient; subject; sender;
                             message_id; template_version]]) as [rest ->].
  { unfold log_send in Hwritten.
    destruct (makedirs creatable (dirname log_path)); [|done].
    destruct log as [[|header rest]|]; cbn in Hown; injection Hwritten as <-.
    - by apply bool_decide_eq_true in Hown.
    - apply bool_decide_eq_true in Hown. injection Hown as ->. by exists rest.
    - by exists []. }
  unfold SendLogFile.should_skip_send.
  cbn [fmap option_fmap option_map SendLog.should_skip_send].
  unfold minus_hours. rewrite Hrange. cbn [rbind].
  destruct (own_log_scan recipient subject sender template_version
              (now - hours_us window_hours)
              (rest ++ [[isoformat sent_at; recipient; subject; sender;
                         message_id; template_version]]))
    as (answer & -> & Hanswer).
  f_equal. apply Hanswer.
  exists (isoformat sent_at), message_id, [],
    {| wall_us := sent_at; utcoffset_us := Some 0 |}.
  split; [apply elem_of_app; right; apply list_elem_of_singleton; reflexivity|].
  split; [exact Hiso|].
  unfold instant, assume_utc. cbn [utcoffset_us wall_us default id]. lia.
Qed.


(** X3.  A log file that exists but does not name a [timestamp_utc]
    column in its first line switches the duplicate guard off.
    [log_send] writes the header only when the file does not exist, so
    after a send into an existing empty file the line of that send is read
    as the header, and whatever is appended later, [should_skip_send]
    returns false for every send. *)
Theorem log_send_into_empty_file_is_never_skipped (isoformat : Z → str)
    (creatable : str → bool) (log_path : str)
    (sent_at now : Z) (recipient subject sender message_id template_version : str)
    (written later : records) (recipient' subject' sender' template_version' : str)
    (window_hours : Z) :
  log_send isoformat creatable log_path sent_at (Some [])
    recipient subject sender message_id template_version = Some written →
  py "timestamp_utc"
    ∉ [isoformat sent_at; recipient; subject; sender; message_id; template_version] →
  fromisoformat [] = None →
  in_datetime_range (now - hours_us window_hours) = true →
  SendLogFile.should_skip_send fromisoformat now (Some (written ++ later))
    recipient' subject' sender' template_version' window_hours
  = Returned false.
Proof.
  intros Hwritten Hnames Hblank Hrange. unfold log_send in Hwritten.
  destruct (makedirs creatable (dirname log_path)); [|done].
  injection Hwritten as <-.
  unfold SendLogFile.should_skip_send.
  cbn [app fmap option_fmap option_map SendLog.should_skip_send DictReader].
  unfold minus_hours. rewrite Hrange. cbn [rbind].
  induction (List.filter _ later) as [|record records IH]; [done|].
  cbn [map scan]. unfold get_or_empty.
  rewrite dict_row_lookup_other by done. rewrite lookup_empty, Hblank.
  exact IH.
Qed.

(** A path without a slash has no directory part. *)
Lemma dirname_bare (path : str) : ¬ "/"%char ∈ path → dirname path = [].
Proof.
  intros Hbare. unfold dirname.
  assert (Hnone : from_slash (rev path) = []).
  { assert (Hrev : ¬ "/"%char ∈ rev path).
    { intros Hin. apply Hbare. by apply list_elem_of_In, in_rev, list_elem_of_In. }
    induction (rev path) as [|c reversed IH]; [done|].
    apply not_elem_of_cons in Hrev as [Hc Hrev]. cbn [from_slash].
    destruct (Ascii.eqb c "/"%char) eqn:E; [|by apply IH].
    apply Ascii.eqb_eq in E. congruence. }
  by rewrite Hnone.
Qed.

(** [dirname] on paths with and without directories, as [posixpath]
    answers. *)
Example dirname_examples :
  map dirname
    [ py "sends.csv"; py ".tmp/onboarding_sends.csv"; py "/x.csv"; py "a//b.csv";
      py "a/b/"; py "//x"; []; py "a/" ]
  = [ []; py ".tmp"; py "/"; py "a"; py "a/b"; py "//"; []; py "a" ].
Proof. vm_compute. reflexivity. Qed.

(** X21.  [log_send] cannot write to a log path that names no directory:
    [os.path.dirname] of a path without a slash is empty and
    [os.makedirs] raises on the empty name, on every file system, before
    the file is opened. *)
Theorem log_send_bare_path (isoformat : Z → str) (creatable : str → bool)
    (log_path : str) (now : Z) (log : option records)
    (recipient subject sender message_id template_version : str) :
  ¬ "/"%char ∈ log_path →
  log_send isoformat creatable log_path now log
    recipient subject sender message_id template_version = None.
Proof. intros Hbare. unfold log_send. by rewrite dirname_bare. Qed.

End LogFile.

Section Window.
Import SendLog.

Variable fromisoformat : str → option datetime.

Lemma scan_lower_cutoff (recipient subject sender template_version : str)
    (cutoff cutoff' : Z) (rows : list (gmap str (option str))) :
  cutoff' <= cutoff →
  scan fromisoformat recipient subject sender template_version cutoff rows
  = Returned true →
  scan fromisoformat recipient subject sender template_version cutoff' rows
  = Returned true.
Proof.
  intros Hle. induction rows as [|r rows IH]; [done|]. cbn [scan].
  destruct (get_or_empty r "timestamp_utc") as [timestamp|]; [|done].
  destruct (fromisoformat timestamp) as [d|]; [|done].
  destruct (instant (assume_utc d) <? cutoff) eqn:Hold;
    destruct (instant (assume_utc d) <? cutoff') eqn:Hold'; try done.
  - intros Hrest. destruct (field_is r "recipient" recipient && _ && _ && _);
      [done | by apply IH].
  - apply Z.ltb_ge in Hold. apply Z.ltb_lt in Hold'. lia.
  - destruct (field_is r "recipient" recipient && _ && _ && _); [done | apply IH].
Qed.

(** X4.  Widening the window never turns a skip into a send: if
    [should_skip_send] returns true for a window, it returns true for
    every longer window for which [now - window] is still a [datetime],
    whatever the log holds. *)
Theorem should_skip_send_longer_window (now : Z)
    (log : option (list (gmap str (option str))))
    (recipient subject sender template_version : str)
    (window_hours window_hours' : Z) :
  window_hours <= window_hours' →
  in_datetime_range (now - hours_us window_hours') = true →
  should_skip_send fromisoformat now log
    recipient subject sender template_version window_hours = Returned true →
  should_skip_send fromisoformat now log
    recipient subject sender template_version window_hours' = Returned true.
Proof.
  intros Hle Hrange. destruct log as [rows|]; [|done].
  cbn [should_skip_send]. unfold minus_hours. rewrite Hrange.
  destruct (in_datetime_range (now - hours_us window_hours)); [|done].
  cbn [rbind]. apply scan_lower_cutoff. unfold hours_us. lia.
Qed.

End Window.

Section LogExamples.
Import SendLog SendLogFile GuardExample LogExample.


(** The line cut short after its second cell does not match, and does
    not raise. *)
Example skip_on_earlier_log :
  SendLogFile.should_skip_send GuardExample.fromisoformat noon
    (Some earlier_log) (py "bo@example.com") subject sender template_version 24
  = Returned false.
Proof. vm_compute. reflexivity. Qed.


Lemma log_send_into_empty_file_is_never_skipped_witness :
  SendLogFile.should_skip_send GuardExample.fromisoformat noon
    (Some ([[py "2024-05-01T10:00:00+00:00"; recipient; subject; sender;
             py "18f3a2"; template_version]]
           ++ [[py "2024-05-01T10:00:00+00:00"; recipient; subject; sender;
                py "18f3a3"; template_version]]))
    recipient subject sender template_version 24
  = Returned false.
Proof.
  apply (log_send_into_empty_file_is_never_skipped
           GuardExample.fromisoformat isoformat (fun _ => true)
           (py ".tmp/onboarding_sends.csv") (noon - hours_us 2) noon
           recipient subject sender (py "18f3a2") template_version).
  - reflexivity.
  - apply (bool_decide_unpack _). vm_compute. reflexivity.
  - reflexivity.
  - reflexivity.
Defined.

Lemma log_send_bare_path_witness :
  log_send isoformat (fun _ => true) (py "onboarding_sends.csv") noon None
    recipient subject sender (py "18f3a2") template_version = None.
Proof.
  apply log_send_bare_path. apply (bool_decide_unpack _). vm_compute. reflexivity.
Defined.

(** With a directory in the path, the same call writes the header and
    the line. *)
Example log_send_creates_log :
  log_send isoformat (fun _ => true) (py ".tmp/onboarding_sends.csv")
    (noon - hours_us 2) None recipient subject sender (py "18f3a2")
    template_version
  = Some [ LOG_HEADER;
           [ py "2024-05-01T10:00:00+00:00"; recipient; subject; sender;
             py "18f3a2"; template_version ] ].
Proof. reflexivity. Qed.

Lemma should_skip_send_longer_window_witness :
  skip (Some [row_at "2024-05-01T10:00:00+00:00"]) 48 = Returned true.
Proof.
  apply (should_skip_send_longer_window GuardExample.fromisoformat noon
           (Some [row_at "2024-05-01T10:00:00+00:00"])
           recipient subject sender template_version 3 48).
  - lia.
  - reflexivity.
  - vm_compute. reflexivity.
Defined.

End LogExamples.

(** ** The specialty tags *)

Section Specialty.




End Specialty.

(** ** The name of a lead *)

Section Names.













End Names.

(** ** The parser of result pages *)

Section ResultParser.
Import BingResultParser.

Lemma opener_is_no_anchor (e : event) : opens_result e = true → href_of e = None.
Proof.
  destruct e as [tag attrs| |]; [|done..]. cbn [opens_result href_of].
  intros [[->%bool_decide_eq_true _]%andb_true_iff _]%andb_true_iff. done.
Qed.

(** What one event does to the parser. *)
Lemma handle_spec (self : state) (e : event) :
  links (handle self e)
  = links self ++ (if in_result self then option_list (href_of e) else [])
  ∧ in_result (handle self e)
    = if opens_result e then true
      else if closes_result e then false else in_result self.
Proof.
  assert (Hsame : ∀ b : bool,
            links self = links self ++ (if b then [] else [])).
  { intros b. by destruct b; rewrite app_nil_r. }
  destruct e as [tag attrs|tag|data]; cbn [handle].
  - unfold handle_starttag.
    destruct (opens_result (StartTag tag attrs)) eqn:Hopen.
    + rewrite (opener_is_no_anchor _ Hopen). cbn [opens_result] in Hopen.
      rewrite Hopen. cbn [option_list links in_result]. split; [apply Hsame | done].
    + cbn [opens_result] in Hopen. rewrite Hopen. cbn [href_of closes_result].
      destruct (bool_decide (tag = py "a")); cbn [andb option_list];
        [|split; [apply Hsame | done]].
      destruct (in_result self) eqn:Hin; [|by rewrite app_nil_r].
      destruct (default None (attrs_dict attrs !! py "href")) as [href|];
        cbn [option_list]; [|by rewrite app_nil_r].
      destruct (truthy href); cbn [option_list links in_result];
        [done | by rewrite app_nil_r].
  - unfold handle_endtag. cbn [opens_result closes_result href_of option_list].
    destruct (bool_decide (tag = py "li")); cbn [andb];
      destruct (in_result self) eqn:Hin; cbn [links in_result];
      by rewrite ?app_nil_r, ?Hin.
  - cbn [opens_result closes_result href_of option_list].
    split; [apply Hsame | done].
Qed.

Lemma feed_cons (self : state) (e : event) (events : list event) :
  feed self (e :: events) = feed (handle self e) events.
Proof. done. Qed.

Lemma feed_app (self : state) (events events' : list event) :
  feed self (events ++ events') = feed (feed self events) events'.
Proof. apply fold_left_app. Qed.

Lemma feed_sublist (events : list event) (self : state) :
  ∃ found, links (feed self events) = links self ++ found
           ∧ found `sublist_of` omap href_of events.
Proof.
  revert self. induction events as [|e events IH]; intros self.
  - exists []. by rewrite app_nil_r.
  - rewrite feed_cons. destruct (IH (handle self e)) as (found & -> & Hsub).
    destruct (handle_spec self e) as [-> _].
    change (omap href_of (e :: events))
      with (match href_of e with
            | Some href => href :: omap href_of events
            | None => omap href_of events
            end).
    destruct (in_result self), (href_of e) as [href|]; cbn [option_list];
      rewrite <- ?app_assoc; cbn [app].
    + exists (href :: found). split; [done | by apply sublist_skip].
    + by exists found.
    + exists found. split; [done | by apply sublist_cons].
    + by exists found.
Qed.

(** Markup that opens no result container leaves a parser that is outside
    one as it is. *)
Lemma feed_outside (markup : list event) (self : state) :
  in_result self = false →
  forallb (fun e => negb (opens_result e)) markup = true →
  links (feed self markup) = links self ∧ in_result (feed self markup) = false.
Proof.
  revert self. induction markup as [|e markup IH]; intros self Hout Hall; [done|].
  cbn [forallb] in Hall. apply andb_true_iff in Hall as [He Hall].
  apply negb_true_iff in He.
  rewrite feed_cons. destruct (handle_spec self e) as [Hlinks Hin].
  rewrite Hout, app_nil_r in Hlinks. rewrite He, Hout in Hin.
  destruct (IH (handle self e)) as [-> ->]; [by destruct (closes_result e) | done|].
  done.
Qed.

(** Inside a result container, up to the end tag of a list item, every
    anchor with an address is taken. *)
Lemma feed_inside (inner : list event) (self : state) :
  in_result self = true →
  forallb (fun e => negb (closes_result e)) inner = true →
  links (feed self inner) = links self ++ omap href_of inner
  ∧ in_result (feed self inner) = true.
Proof.
  revert self. induction inner as [|e inner IH]; intros self Hinside Hall.
  { by rewrite app_nil_r. }
  cbn [forallb] in Hall. apply andb_true_iff in Hall as [He Hall].
  apply negb_true_iff in He.
  rewrite feed_cons. destruct (handle_spec self e) as [Hlinks Hin].
  rewrite Hinside in Hlinks. rewrite He, Hinside in Hin.
  destruct (IH (handle self e)) as [-> ->];
    [by destruct (opens_result e) | done|].
  rewrite Hlinks, <- app_assoc.
  change (omap href_of (e :: inner))
    with (match href_of e with
          | Some href => href :: omap href_of inner
          | None => omap href_of inner
          end).
  by destruct (href_of e).
Qed.

Lemma feed_blocks (blocks : list block) (self : state) :
  in_result self = false →
  forallb block_ok blocks = true →
  links (feed self (concat (map block_events blocks)))
  = links self ++ concat (map block_links blocks)
  ∧ in_result (feed self (concat (map block_events blocks))) = false.
Proof.
  revert self. induction blocks as [|b blocks IH]; intros self Hout Hall.
  { by rewrite app_nil_r. }
  cbn [forallb] in Hall. apply andb_true_iff in Hall as [Hb Hall].
  cbn [map concat]. rewrite feed_app.
  assert (Hblock : links (feed self (block_events b)) = links self ++ block_links b
                   ∧ in_result (feed self (block_events b)) = false).
  { destruct b as [markup | attrs inner]; cbn [block_events block_links block_ok] in *.
    - rewrite app_nil_r. by apply feed_outside.
    - apply andb_true_iff in Hb as [Hopen Hinner].
      rewrite feed_cons, feed_app.
      destruct (handle_spec self (StartTag (py "li") attrs)) as [Hlinks Hin].
      rewrite Hout, app_nil_r in Hlinks. rewrite Hopen in Hin.
      destruct (feed_inside inner (handle self (StartTag (py "li") attrs)) Hin Hinner)
        as [Hlinks' Hin'].
      destruct (handle_spec
                  (feed (handle self (StartTag (py "li") attrs)) inner)
                  (EndTag (py "li"))) as [Hlinks'' Hin''].
      change (feed ?st [EndTag (py "li")]) with (handle st (EndTag (py "li"))).
      rewrite Hlinks'', Hin'', Hin', Hlinks', Hlinks. cbn. by rewrite app_nil_r. }
  destruct Hblock as [Hlinks Hin].
  destruct (IH (feed self (block_events b)) Hin Hall) as [-> ->].
  by rewrite Hlinks, <- app_assoc.
Qed.

(** X7.  Whatever the markup, the links [BingResultParser] collects are
    addresses of anchors of the page, in the order of the page and none
    more often than it occurs: they form a sublist of the non-empty
    [href]s of the [a] start tags.  None of them is empty, and markup
    before the first list item whose class contains [b_algo] contributes
    nothing. *)
Theorem bing_result_parser_links (events : list event) :
  links (feed init events) `sublist_of` omap href_of events
  ∧ Forall (fun link : str => link ≠ []) (links (feed init events))
  ∧ ∀ before rest,
      events = before ++ rest →
      forallb (fun e => negb (opens_result e)) before = true →
      links (feed init events) = links (feed init rest).
Proof.
  destruct (feed_sublist events init) as (found & Hlinks & Hsub).
  cbn [links init app] in Hlinks. rewrite Hlinks.
  split; [done|]. split.
  - apply Forall_forall. intros link Hlink.
    apply (fun H => elem_of_sublist _ _ _ H Hsub), list_elem_of_omap in Hlink
      as (e & _ & He).
    destruct e as [tag attrs| |]; [|done..]. cbn [href_of] in He.
    destruct (bool_decide _); [|done].
    destruct (default None _) as [href|]; [|done].
    destruct (truthy href) eqn:Hhref; [|done].
    injection He as <-. by apply truthy_true.
  - intros before rest -> Hbefore. rewrite <- Hlinks, feed_app.
    destruct (feed_outside before init eq_refl Hbefore) as [Hl Hi].
    f_equal. destruct (feed init before) as [l i]. cbn in Hl, Hi. by subst.
Qed.

(** X8.  On a results page made of result containers and markup between
    them - each container a list item whose class contains [b_algo], with
    no end tag of a list item before its own, and no such container
    opened in the markup between - the parser collects exactly the
    non-empty [href]s of the anchors inside the containers, in page order.
    Anchors outside the containers, anchors without [href] and anchors
    with an empty one are left out. *)
Theorem bing_result_parser_on_result_page (blocks : list block) :
  forallb block_ok blocks = true →
  links (feed init (concat (map block_events blocks)))
  = concat (map block_links blocks).
Proof.
  intros Hok. by destruct (feed_blocks blocks init eq_refl Hok) as [-> _].
Qed.

End ResultParser.

Section ResultParserExamples.
Import BingResultParser ResultPageExample.

Lemma bing_result_parser_on_result_page_witness :
  links (feed init (concat (map block_events page)))
  = concat (map block_links page).
Proof. apply bing_result_parser_on_result_page. vm_compute. reflexivity. Defined.

Example links_of_result_page :
  links (feed init (concat (map block_events page)))
  = map py ["https://a.example/"; "https://b.example/"; "https://c.example/"]%string.
Proof. vm_compute. reflexivity. Qed.

End ResultParserExamples.

(** ** The pattern matcher *)

Section MatcherFacts.

(** A greedy repetition before a continuation that accepts whatever is
    left takes the longest run of matching characters. *)
Lemma star_greedy_total {A} (p : ascii → bool) (s : str) (k : str → option A) :
  (∀ s', is_Some (k s')) →
  ∃ taken rest, s = taken ++ rest
                ∧ Forall (fun c => p c = true) taken
                ∧ Re.star_greedy p s k = k rest.
Proof.
  intros Htotal. induction s as [|c s (taken & rest & -> & Hall & IH)].
  - by exists [], [].
  - cbn [Re.star_greedy]. destruct (p c) eqn:Hc.
    + exists (c :: taken), rest. split; [done|]. split; [by constructor|].
      rewrite IH. by destruct (Htotal rest) as [r ->].
    + by exists [], (c :: taken ++ rest).
Qed.

(** A run of literal characters, letter case respected. *)
Lemma run_lits {A} (p s : str) (cap : option str)
    (k : str → option str → option A) :
  Re.run Re.no_flags (Re.lits_of p) s cap k
  = if startswith s p then k (drop (length p) s) cap else None.
Proof.
  revert s. induction p as [|c p IH]; intros s; [done|].
  cbn [Re.lits_of foldr Re.run]. fold (Re.lits_of p).
  destruct s as [|d s]; [done|].
  cbn [Re.atom_matches Re.ignorecase Re.no_flags startswith length drop].
  destruct (Ascii.eqb c d); [apply IH | done].
Qed.

Lemma search_from_found (fl : Re.flags) (r : Re.regex) (s : str) (pos : nat)
    (m : Re.rmatch) :
  Re.search_from fl r pos s = Some m →
  ∃ skipped rest, s = skipped ++ rest
                  ∧ Re.match_at fl r rest = Some (Re.m_len m, Re.m_group1 m).
Proof.
  revert pos. induction s as [|c s IH]; intros pos; cbn [Re.search_from].
  - destruct (Re.match_at fl r []) as [[n g]|] eqn:E; [|done].
    intros [= <-]. by exists [], [].
  - destruct (Re.match_at fl r (c :: s)) as [[n g]|] eqn:E.
    + intros [= <-]. by exists [], (c :: s).
    + intros (skipped & rest & -> & H)%IH. by exists (c :: skipped), rest.
Qed.

Lemma search_from_none (fl : Re.flags) (r : Re.regex) (s : str) (pos : nat) :
  (∀ skipped rest, s = skipped ++ rest → Re.match_at fl r rest = None) →
  Re.search_from fl r pos s = None.
Proof.
  revert pos. induction s as [|c s IH]; intros pos Hnone; cbn [Re.search_from].
  - by rewrite (Hnone [] []).
  - rewrite (Hnone [] (c :: s)) by done. apply IH.
    intros skipped rest ->. by apply (Hnone (c :: skipped)).
Qed.

End MatcherFacts.

(** ** The fetcher *)

Section Fetching.
Context {World : Type} `{!Platform World}.

Lemma charset_re_compiles : Re.compiles charset_re = true.
Proof. reflexivity. Qed.

Lemma charset_atom (c : ascii) :
  Re.atom_matches Re.no_flags
    (Re.ASet false [Re.SChar "\"%char; Re.SChar "w"%char; Re.SChar "-"%char]) c
  = true
  ↔ c ∈ py "\w-".
Proof.
  cbn [Re.atom_matches xorb]. unfold Re.in_items.
  cbn [Re.ignorecase Re.no_flags andb existsb Re.in_item].
  rewrite !orb_false_r, !orb_true_iff, !ascii_eqb_true.
  change (py "\w-") with ["\"%char; "w"%char; "-"%char].
  rewrite !elem_of_cons, elem_of_nil. intuition congruence.
Qed.

(** Where the charset pattern matches, the text starts with [charset=]
    and the group holds the longest run of backslashes, letters w and
    hyphens after it, which is not empty. *)
Lemma charset_re_match_at (s : str) :
  match Re.match_at Re.no_flags charset_re s with
  | Some (_, g) =>
      ∃ label rest, g = Some label ∧ charset_label label
                    ∧ s = py "charset=" ++ label ++ rest
  | None =>
      ∀ c, c ∈ py "\w-" → startswith s (py "charset=" ++ [c]) = false
  end.
Proof.
  unfold Re.match_at, charset_re, Re.seq, Re.lits. cbn [foldr Re.run].
  rewrite run_lits.
  destruct (startswith s (py "charset=")) eqn:Hhead.
  2:{ intros c _. apply not_true_iff_false. intros Hs. apply not_true_iff_false in Hhead.
      apply Hhead. apply startswith_spec in Hs as [rest ->].
      rewrite <- app_assoc. apply startswith_app. }
  apply startswith_spec in Hhead as [rest ->].
  rewrite drop_app_length. unfold Re.plus. cbn [Re.run].
  destruct rest as [|c rest].
  { intros c _. cbn. done. }
  destruct (Re.atom_matches Re.no_flags _ c) eqn:Hc.
  2:{ intros d Hd. apply charset_atom in Hd.
      apply not_true_iff_false. intros Hs. apply not_true_iff_false in Hc. apply Hc.
      apply startswith_spec in Hs as [rest' Hs].
      rewrite <- app_assoc in Hs. apply app_inv_head in Hs.
      injection Hs as -> _. done. }
  match goal with
  | |- context [Re.star_greedy ?p rest ?k] =>
      destruct (star_greedy_total p rest k) as (taken & rest' & -> & Hall & ->)
  end.
  { intros s'. eauto. }
  exists (c :: taken), rest'. split; [|split; [|done]].
  - do 2 f_equal. cbn [length].
    replace (S (length (taken ++ rest')) - length rest')%nat
      with (length (c :: taken)) by (rewrite length_app; cbn; lia).
    apply (take_app_length (c :: taken)).
  - split; [done|]. constructor; [by apply charset_atom|].
    eapply Forall_impl; [exact Hall|]. intros d Hd. by apply charset_atom.
Qed.

(** The encoding one attempt decodes with. *)
Lemma fetch_attempt_returned (url : str) (w w' : World) (text : str) :
  fetch_attempt url w = (Returned text, w') →
  ∃ resp encoding,
    urlopen url w = (Some resp, w')
    ∧ bytes_decode encoding (body resp) = Some text
    ∧ (charset_label encoding ∨ encoding = py "utf-8")
    ∧ ((∀ c, c ∈ py "\w-" →
          contains (py "charset=" ++ [c]) (content_type resp) = false) →
       encoding = py "utf-8").
Proof.
  unfold fetch_attempt.
  destruct (urlopen url w) as [[resp|] w1]; [|done].
  unfold Re.search. rewrite charset_re_compiles.
  destruct (Re.search_from Re.no_flags charset_re 0 (content_type resp))
    as [m|] eqn:Hsearch.
  - destruct (bytes_decode (Re.group1 m) (body resp)) as [decoded|] eqn:Hdecode;
      [|done].
    intros [= <- <-]. exists resp, (Re.group1 m). split; [done|]. split; [done|].
    apply search_from_found in Hsearch as (skipped & rest & Hsplit & Hmatch).
    pose proof (charset_re_match_at rest) as Hat. rewrite Hmatch in Hat.
    destruct Hat as (label & rest' & Hgroup & Hlabel & ->).
    unfold Re.group1. rewrite Hgroup. cbn [default].
    split; [by left|]. intros Hnone. exfalso.
    destruct Hlabel as [Hne Hchars]. destruct label as [|c label]; [done|].
    inversion Hchars as [|? ? Hc _]; subst.
    specialize (Hnone c Hc). apply not_true_iff_false in Hnone. apply Hnone.
    apply contains_spec. exists skipped, (label ++ rest').
    by rewrite <- !app_assoc.
  - destruct (bytes_decode (py "utf-8") (body resp)) as [decoded|] eqn:Hdecode;
      [|done].
    intros [= <- <-]. exists resp, (py "utf-8").
    split; [done|]. split; [done|]. split; [by right | done].
Qed.

(** The retry loop, attempt by attempt. *)
Lemma fetch_url_unfold (url : str) (w : World) :
  fetch_url url w
  = match fetch_attempt url w with
    | (Returned text, w1) => (Returned text, w1)
    | (Raised _, w1) =>
        match fetch_attempt url w1 with
        | (Returned text, w2) => (Returned text, w2)
        | (Raised _, w2) => fetch_attempt url w2
        end
    end.
Proof.
  unfold fetch_url, MAX_RETRIES. cbn [fetch_loop]. unfold try_except.
  destruct (fetch_attempt url w) as [[t1|e1] w1]; [done|].
  destruct (fetch_attempt url w1) as [[t2|e2] w2]; [done|].
  by destruct (fetch_attempt url w2) as [[t3|e3] w3].
Qed.

Lemma fetch_url_returned (url : str) (w w' : World) (text : str) :
  fetch_url url w = (Returned text, w') →
  ∃ w0, fetch_attempt url w0 = (Returned text, w').
Proof.
  rewrite fetch_url_unfold.
  destruct (fetch_attempt url w) as [[t1|e1] w1] eqn:H1.
  { intros [= <- <-]. by exists w. }
  destruct (fetch_attempt url w1) as [[t2|e2] w2] eqn:H2.
  { intros [= <- <-]. by exists w1. }
  intros H3. by exists w2.
Qed.

(** X9.  [fetch_url] tries a URL up to three times.  It returns the text
    of the first attempt that succeeds, after none, one or two failed
    attempts, and makes no further request then; it raises exactly when
    three attempts in a row fail, and the exception is that of the third
    attempt. *)
Theorem fetch_url_retries (url : str) (w : World) :
  (∀ text w',
     fetch_url url w = (Returned text, w')
     ↔ ∃ n w0, (n < MAX_RETRIES)%nat
               ∧ failed_attempts n url w w0
               ∧ fetch_attempt url w0 = (Returned text, w'))
  ∧ (∀ e w',
       fetch_url url w = (Raised e, w')
       ↔ ∃ w0, failed_attempts (MAX_RETRIES - 1) url w w0
               ∧ fetch_attempt url w0 = (Raised e, w')).
Proof.
  rewrite fetch_url_unfold. unfold MAX_RETRIES. cbn [Nat.sub failed_attempts].
  destruct (fetch_attempt url w) as [[t1|e1] w1] eqn:H1.
  { split.
    - intros text w'. split.
      + intros [= <- <-]. exists 0%nat, w. split; [lia | done].
      + intros ([|n] & w0 & _ & Hfailed & Hlast); cbn [failed_attempts] in Hfailed.
        * subst w0. congruence.
        * destruct Hfailed as (e & w1' & Hfail & _). congruence.
    - intros e w'. split; [done|].
      intros (w0 & (e1 & w1' & Hfail & _) & _). congruence. }
  destruct (fetch_attempt url w1) as [[t2|e2] w2] eqn:H2.
  { split.
    - intros text w'. split.
      + intros [= <- <-]. exists 1%nat, w1. split; [lia|].
        split; [by exists e1, w1 | done].
      + intros ([|[|n]] & w0 & _ & Hfailed & Hlast); cbn [failed_attempts] in Hfailed.
        * subst w0. congruence.
        * destruct Hfailed as (e & w1' & Hfail & ->). congruence.
        * destruct Hfailed as (e & w1' & Hfail & e' & w2' & Hfail' & _). congruence.
    - intros e w'. split; [done|].
      intros (w0 & (e1' & w1' & Hfail & e2 & w2' & Hfail' & _) & _). congruence. }
  split.
  - intros text w'. split.
    + intros H3. exists 2%nat, w2. split; [lia|].
      split; [|done]. exists e1, w1. split; [done|]. by exists e2, w2.
    + intros ([|[|[|n]]] & w0 & Hn & Hfailed & Hlast); cbn [failed_attempts] in Hfailed.
      * subst w0. congruence.
      * destruct Hfailed as (e & w1' & Hfail & ->). congruence.
      * destruct Hfailed as (e & w1' & Hfail & e' & w2' & Hfail' & ->). congruence.
      * lia.
  - intros e w'. split.
    + intros H3. exists w2. split; [|done].
      exists e1, w1. split; [done|]. by exists e2, w2.
    + intros (w0 & (e1' & w1' & Hfail & e2' & w2' & Hfail' & ->) & Hlast). congruence.
Qed.

(** X10.  The text [fetch_url] returns is the body of a response decoded
    either as UTF-8 or under a label made only of backslashes, letters w
    and hyphens: the pattern that reads the charset of the [Content-Type]
    header captures no other character, so a declared charset such as
    [iso-8859-1] is not honoured.  When the header holds no [charset=]
    followed by one of these three characters, the body is decoded as
    UTF-8. *)
Theorem fetch_url_encoding (url : str) (w w' : World) (text : str) :
  fetch_url url w = (Returned text, w') →
  ∃ w0 resp encoding,
    urlopen url w0 = (Some resp, w')
    ∧ bytes_decode encoding (body resp) = Some text
    ∧ (charset_label encoding ∨ encoding = py "utf-8")
    ∧ ((∀ c, c ∈ py "\w-" →
          contains (py "charset=" ++ [c]) (content_type resp) = false) →
       encoding = py "utf-8").
Proof.
  intros (w0 & Hattempt)%fetch_url_returned.
  apply fetch_attempt_returned in Hattempt as (resp & encoding & H).
  by exists w0, resp, encoding.
Qed.

End Fetching.

Section FetchExamples.
Import FetchExample.

Lemma fetch_url_encoding_witness :
  ∃ w0 resp encoding,
    urlopen (Platform := platform) page_url w0 = (Some resp, [page_url])
    ∧ bytes_decode (Platform := platform) encoding (body resp) = Some page_text
    ∧ (charset_label encoding ∨ encoding = py "utf-8")
    ∧ ((∀ c, c ∈ py "\w-" →
          contains (py "charset=" ++ [c]) (content_type resp) = false) →
       encoding = py "utf-8").
Proof.
  apply (fetch_url_encoding (Platform0 := platform) page_url []).
  vm_compute. reflexivity.
Defined.

End FetchExamples.

(** ** The search for a profile *)

Section ProfileSearch.
Context {World : Type} `{!Platform World}.

(** X11.  [search_linkedin] never raises: a search that fails gives the
    empty string.  What it returns is the empty string or a search result
    that begins with [http] and contains [linkedin.com/in] up to letter
    case, and for an empty name it returns the empty string without any
    request. *)
Theorem search_linkedin_never_raises (name : str) (w : World) :
  ∃ link w',
    search_linkedin name w = (Returned link, w')
    ∧ (link = [] ∨ (starts_http link ∧ is_profile_link link))
    ∧ (name = [] → link = [] ∧ w' = w).
Proof.
  unfold search_linkedin. destruct (truthy name) eqn:Hname; cbn [negb].
  2:{ exists [], w. split; [done|]. split; [by left | done]. }
  apply truthy_true in Hname. unfold try_except, bind.
  destruct (bing_search _ 5 w) as [[results|e] w1] eqn:Hsearch.
  2:{ exists [], w1. split; [done|]. split; [by left | done]. }
  eexists _, w1. split; [reflexivity|]. split; [|done].
  destruct (List.find _ results) as [link|] eqn:Hfind; cbn [default]; [|by left].
  right. apply find_some in Hfind as [Hin Hprofile]. split; [|done].
  unfold bing_search in Hsearch.
  apply bind_returned in Hsearch as (page & w0 & _ & [Hrun _]%lift_returned).
  assert (Hempty : ∀ x : str, x ∈ (∅ : gset str) ↔ x ∈ ([] : list str)).
  { intros x. rewrite elem_of_empty. split; [done|]. by intros ?%elem_of_nil. }
  destruct (collect_results_spec 5 _ [] ∅ results
              (NoDup_nil_2) (Forall_nil_2 _) Hempty (or_introl eq_refl) Hrun)
    as (_ & Hhttp & _).
  apply list_elem_of_In in Hin. by apply (proj1 (Forall_forall _ _) Hhttp).
Qed.

End ProfileSearch.

(** ** The candidate pipeline *)

Section Domains.
Context {World : Type} `{!Platform World}.
Variable profile_link : str → result str.

(** A link whose domain is empty, was seen before or contains
    [linkedin.com] is passed over without a request. *)
Lemma process_link_skips (target link : str) (st : locals) (w : World)
    (domain : str) :
  link_domain link = Some domain →
  domain = [] ∨ domain ∈ seen_domains st ∨ contains (py "linkedin.com") domain = true →
  process_link profile_link target link st w = (Returned st, w).
Proof.
  unfold link_domain, process_link, parse_url, bind, lift.
  destruct (urlparse link) as [parsed|]; [|done]. cbn. intros [= <-] Hskip.
  destruct (negb (truthy (lower (netloc parsed)))
            || bool_decide (lower (netloc parsed) ∈ seen_domains st)) eqn:Hseen;
    [done|].
  apply orb_false_iff in Hseen as [Hempty Hnew].
  apply negb_false_iff, truthy_true in Hempty.
  apply bool_decide_eq_false in Hnew.
  destruct Hskip as [? | [? | ->]]; done.
Qed.

(** Every pass that returns leaves the domain of its link empty, seen or
    on [linkedin.com]. *)
Lemma process_link_marks (target link : str) (st st' : locals) (w w' : World)
    (domain : str) :
  link_domain link = Some domain →
  process_link profile_link target link st w = (Returned st', w') →
  domain = [] ∨ domain ∈ seen_domains st' ∨ contains (py "linkedin.com") domain = true.
Proof.
  intros Hdomain Hrun.
  destruct (decide (domain = [])) as [|Hfull]; [by left|]. right.
  destruct (contains (py "linkedin.com") domain) eqn:Hli; [by right|]. left.
  destruct (decide (domain ∈ seen_domains st)) as [Hseen|Hnew].
  { apply process_link_returned in Hrun as [Hsub _]. by apply Hsub. }
  revert Hrun Hdomain. unfold link_domain, process_link, parse_url.
  intros (parsed & w0 & [Hparsed _]%lift_returned & Hrun)%bind_returned.
  destruct (urlparse link) as [parsed'|]; [|done].
  injection Hparsed as ->. cbn. intros [= <-]. revert Hrun.
  rewrite Hli.
  replace (negb (truthy (lower (netloc parsed)))
           || bool_decide (lower (netloc parsed) ∈ seen_domains st)) with false.
  2:{ symmetry. apply orb_false_iff. split.
      - by apply negb_false_iff, truthy_true.
      - by apply bool_decide_eq_false. }
  intros (fetched & w1 & _ & Hrest)%bind_returned.
  destruct fetched as [html_text|].
  2:{ apply ret_returned in Hrest as [<- _]. cbn. set_solver. }
  apply bind_returned in Hrest as (title & w2 & _ & Hrest).
  apply bind_returned in Hrest as (h1 & w3 & _ & Hrest).
  destruct (looks_like_executive_coach _); cbn [negb] in Hrest.
  2:{ apply ret_returned in Hrest as [<- _]. cbn. set_solver. }
  destruct (contains_excluded_keywords _).
  { apply ret_returned in Hrest as [<- _]. cbn. set_solver. }
  apply bind_returned in Hrest as (loc & w4 & _ & Hrest).
  apply bind_returned in Hrest as (profile & w5 & _ & Hrest).
  apply bind_returned in Hrest as (profile' & w6 & _ & Hrest).
  apply ret_returned in Hrest as [<- _]. cbn. set_solver.
Qed.

(** X12.  A domain is processed at most once in a run.  Once the loop
    body has returned for a link - whether its page gave a lead, failed to
    load or did not qualify - every later link of the same lower-cased
    domain is passed over: the state stays as it is and no request is
    made. *)
Theorem domain_is_processed_once (target target' link link' : str)
    (st st' later : locals) (w w' w'' : World) (domain : str) :
  link_domain link = Some domain →
  link_domain link' = Some domain →
  process_link profile_link target link st w = (Returned st', w') →
  seen_domains st' ⊆ seen_domains later →
  process_link profile_link target' link' later w'' = (Returned later, w'').
Proof.
  intros Hdomain Hdomain' Hrun Hlater.
  apply (process_link_skips target' link' later w'' domain Hdomain').
  destruct (process_link_marks target link st st' w w' domain Hdomain Hrun)
    as [? | [? | ?]]; [by left | right; left | by right; right].
  by apply Hlater.
Qed.

End Domains.

Section Offline.
Context {World : Type} `{!Platform World}.

Lemma fetch_url_offline (url : str) (w : World) :
  offline → ∃ w', fetch_url url w = (Raised url_error, w').
Proof.
  intros Hoff.
  assert (Hattempt : ∀ w0, ∃ w1, fetch_attempt url w0 = (Raised url_error, w1)).
  { intros w0. unfold fetch_attempt. specialize (Hoff url w0).
    destruct (urlopen url w0) as [[resp|] w1]; [done|]. by exists w1. }
  rewrite fetch_url_unfold.
  destruct (Hattempt w) as [w1 ->]. destruct (Hattempt w1) as [w2 ->].
  destruct (Hattempt w2) as [w3 ->]. by exists w3.
Qed.

Lemma seeds_loop_offline (profile_link : str → result str) (limit : Z)
    (target : str) (seeds : list str) (st : locals) (w : World) :
  offline →
  ∃ o w', seeds_loop profile_link limit target seeds st w = (Returned o, w')
          ∧ (o = Next st ∨ o = Return (leads st)).
Proof.
  intros Hoff. revert w. induction seeds as [|seed seeds IH]; intros w;
    cbn [seeds_loop].
  - exists (Next st), w. split; [done | by left].
  - destruct (limit <=? len (leads st)).
    + exists (Return (leads st)), w. split; [done | by right].
    + unfold bind at 1. unfold try_except, bind at 1. unfold bing_search, bind at 1.
      destruct (fetch_url_offline
                  (py "https://www.bing.com/search?q="
                   ++ quote_plus (dquote :: seed ++ dquote :: py " "
                                    ++ dquote :: target ++ [dquote])) w Hoff)
        as [w1 ->].
      cbn [ret]. apply IH.
Qed.

Lemma targets_loop_offline (profile_link : str → result str) (limit : Z)
    (targets : list str) (st : locals) (w : World) :
  offline →
  ∃ o w', targets_loop profile_link limit targets st w = (Returned o, w')
          ∧ (o = Next st ∨ o = Return (leads st)).
Proof.
  intros Hoff. revert w. induction targets as [|target targets IH]; intros w;
    cbn [targets_loop].
  - exists (Next st), w. split; [done | by left].
  - unfold bind.
    destruct (seeds_loop_offline profile_link limit target SEARCH_SEEDS st w Hoff)
      as (o & w1 & -> & [-> | ->]).
    + apply IH.
    + exists (Return (leads st)), w1. split; [done | by right].
Qed.

(** X13.  When every request fails, [build_candidates] does not raise:
    each failed search is passed over, and after the last target the
    function returns the empty list, for every limit. *)
Theorem build_candidates_offline (limit : Z) (w : World) :
  offline → ∃ w', build_candidates limit w = (Returned [], w').
Proof.
  intros Hoff. unfold build_candidates, build_candidates_with, bind.
  destruct (targets_loop_offline extract_linkedin limit search_targets
              {| leads := []; seen_domains := ∅ |} w Hoff)
    as (o & w1 & -> & [-> | ->]); by exists w1.
Qed.

(** X14.  With a limit of zero or less, [build_candidates] returns the
    empty list at once: no search is made and no page is requested. *)
Theorem build_candidates_limit_zero (limit : Z) (w : World) :
  limit <= 0 → build_candidates limit w = (Returned [], w).
Proof. apply build_candidates_with_no_limit. Qed.

End Offline.

(** ** [main] of the lead script *)

Section MainFacts.
Context {World : Type} `{!Platform World}.
Variable creatable : str → bool.
Variable sheets_service : str → list (list str) → World → option str * World.

(** X15.  No run of the lead script writes a CSV file or makes a sheet.
    [extract_linkedin] raises [re.error] on every page that passes the
    qualification filter, so [build_candidates] never returns a lead, and
    a run of [main] that does not end in an exception ends with the exit
    status 1 of "No leads found", before [write_csv] is reached; this
    holds for every limit and every behaviour of the network. *)
Theorem main_writes_nothing (limit : Z) (csv_path : str)
    (credentials_exist : bool) (today : str) (w : World) :
  match fst (main creatable sheets_service limit csv_path credentials_exist
               today w) with
  | Returned r =>
      r = {| ending := LeadExit 1; csv_written := None; sheet_url := None |}
  | Raised _ => True
  end.
Proof.
  unfold main, bind.
  destruct (build_candidates limit w) as [[found|e] w1] eqn:Hrun; [|done].
  apply build_candidates_returns_nothing in Hrun as ->. done.
Qed.

End MainFacts.

Section PipelineEdgeExamples.
Import FetchExample.

Lemma domain_is_processed_once_witness :
  process_link (World := Stub.world) (Platform0 := platform)
    PipelineExample.no_profile_link (py "New York, NY")
    (py "https://A.example/about") after_page []
  = (Returned after_page, []).
Proof.
  apply (domain_is_processed_once (Platform0 := platform)
           PipelineExample.no_profile_link
           (py "Boston, MA") (py "New York, NY")
           page_url (py "https://A.example/about")
           {| leads := []; seen_domains := ∅ |} after_page after_page
           [] requests_of_page [] (py "a.example")).
  - reflexivity.
  - reflexivity.
  - vm_compute. reflexivity.
  - reflexivity.
Defined.

Lemma build_candidates_offline_witness :
  ∃ w', build_candidates (Platform0 := OfflineExample.platform) 5 []
        = (Returned [], w').
Proof.
  apply (build_candidates_offline (Platform0 := OfflineExample.platform) 5 []).
  intros url w. reflexivity.
Defined.

Lemma build_candidates_limit_zero_witness :
  build_candidates (Platform0 := PipelineExample.platform) 0 [] = (Returned [], []).
Proof.
  apply (build_candidates_limit_zero (Platform0 := PipelineExample.platform) 0 []).
  lia.
Defined.

(** A search result that names a profile is returned as it is written. *)
Example search_linkedin_finds_profile :
  fst (search_linkedin (Platform0 := Stub.platform profile_site) (py "Ann Lee") [])
  = Returned (py "https://www.LinkedIn.com/in/annlee").
Proof. vm_compute. reflexivity. Qed.

End PipelineEdgeExamples.

(** ** [main] of the onboarding script *)

Section OnboardingFacts.
Import SendLogFile Onboarding.

Variable fromisoformat : str → option datetime.
Variable isoformat : Z → str.
Variable creatable : str → bool.
Variable gmail : mail → option str.

(** X16.  The onboarding script does not send the same mail twice within
    the window.  When a run without [--allow-duplicate] has ended with
    status 0 and has sent a mail - the log file being absent or one that
    began with the header of [log_send] - then a second run with the same
    recipient, sender, subject and template version, started while the
    first send is not older than the window, ends with status 0, hands
    nothing to Gmail and leaves the log as it is, whatever its body. *)
Theorem main_sends_once (a : args) (body body' : str) (now sent_at now' sent_at' : Z)
    (o o' : outside) :
  own_log (log o) = true →
  fromisoformat (isoformat sent_at)
    = Some {| wall_us := sent_at; utcoffset_us := Some 0 |} →
  allow_duplicate a = false →
  main fromisoformat isoformat creatable gmail a true body now sent_at o
  = (Exit 0, o') →
  accepted o' ≠ accepted o →
  in_datetime_range (now' - hours_us (duplicate_window_hours a)) = true →
  now' - hours_us (duplicate_window_hours a) <= sent_at →
  main fromisoformat isoformat creatable gmail a true body' now' sent_at' o'
  = (Exit 0, o').
Proof.
  intros Hown Hiso Hallow Hfirst Hsent Hrange Hrecent.
  unfold main in Hfirst |- *. rewrite Hallow in *. cbn [negb] in *.
  destruct (SendLogFile.should_skip_send fromisoformat now (log o) _ _ _ _ _)
    as [[|]|e]; [by injection Hfirst as <- | | done].
  destruct (gmail _) as [message_id|]; [|done].
  destruct (log_send _ _ _ _ _ _ _ _ _ _) as [written|] eqn:Hwritten; [|done].
  injection Hfirst as <-. cbn [log accepted].
  by rewrite (log_send_then_skip fromisoformat isoformat creatable (log_path a)
                sent_at now' (log o) (to a) (subject a) (sender a) message_id
                (template_version a) (duplicate_window_hours a) written).
Qed.

(** X22.  With a log path that names no directory the guard never comes
    into play: a run that finds no log file hands the mail to Gmail and
    then fails in [log_send], which leaves no log file behind - so the
    next run finds none either and sends the mail again. *)
Theorem main_bare_log_path (a : args) (body : str) (now sent_at : Z)
    (sent : list mail) (message_id : str) :
  ¬ "/"%char ∈ log_path a →
  gmail {| mail_from := sender a; mail_to := to a; mail_subject := subject a;
           mail_body := body |} = Some message_id →
  main fromisoformat isoformat creatable gmail a true body now sent_at
    {| log := None; accepted := sent |}
  = (LogFailed,
     {| log := None;
        accepted := sent ++ [ {| mail_from := sender a; mail_to := to a;
                                 mail_subject := subject a; mail_body := body |} ] |}).
Proof.
  intros Hbare Hgmail. unfold main. cbn [negb log accepted].
  unfold SendLogFile.should_skip_send. cbn [fmap option_fmap option_map
    SendLog.should_skip_send].
  replace (if negb (allow_duplicate a) then Returned false else Returned false)
    with (Returned false : result bool) by (by destruct (allow_duplicate a)).
  unfold log_send. by rewrite Hgmail, dirname_bare.
Qed.

End OnboardingFacts.

Section OnboardingExamples.
Import SendLogFile Onboarding GuardExample LogExample OnboardingExample.

Lemma main_sends_once_witness :
  main GuardExample.fromisoformat isoformat creatable gmail welcome true
    (py "Hello again") noon noon
    {| log := Some [ LOG_HEADER;
                     [ py "2024-05-01T10:00:00+00:00"; recipient; subject; sender;
                       py "18f3a2"; template_version ] ];
       accepted := [ {| mail_from := sender; mail_to := recipient;
                        mail_subject := subject; mail_body := py "Hello" |} ] |}
  = (Exit 0,
     {| log := Some [ LOG_HEADER;
                      [ py "2024-05-01T10:00:00+00:00"; recipient; subject; sender;
                        py "18f3a2"; template_version ] ];
        accepted := [ {| mail_from := sender; mail_to := recipient;
                         mail_subject := subject; mail_body := py "Hello" |} ] |}).
Proof.
  apply (main_sends_once GuardExample.fromisoformat isoformat creatable gmail
           welcome (py "Hello") (py "Hello again")
           (noon - hours_us 2) (noon - hours_us 2) noon noon first_run).
  - reflexivity.
  - reflexivity.
  - reflexivity.
  - reflexivity.
  - discriminate.
  - reflexivity.
  - vm_compute. discriminate.
Defined.

Lemma main_bare_log_path_witness :
  main GuardExample.fromisoformat isoformat creatable gmail welcome_bare true
    (py "Hello") noon noon
    {| log := None;
       accepted := [ {| mail_from := sender; mail_to := recipient;
                        mail_subject := subject; mail_body := py "Hello" |} ] |}
  = (LogFailed,
     {| log := None;
        accepted := [ {| mail_from := sender; mail_to := recipient;
                         mail_subject := subject; mail_body := py "Hello" |};
                      {| mail_from := sender; mail_to := recipient;
                         mail_subject := subject; mail_body := py "Hello" |} ] |}).
Proof.
  apply (main_bare_log_path GuardExample.fromisoformat isoformat creatable gmail
           welcome_bare (py "Hello") noon noon
           [ {| mail_from := sender; mail_to := recipient;
                mail_subject := subject; mail_body := py "Hello" |} ]
           (py "18f3a2")).
  - apply (bool_decide_unpack _). vm_compute. reflexivity.
  - reflexivity.
Defined.

End OnboardingExamples.

(** ** Title and heading *)

Section Elements.
Context {World : Type} `{!Platform World}.

(** A run of literal characters, letter case ignored. *)
Lemma run_lits_ic {A} (fl : Re.flags) (p s : str) (cap : option str)
    (k : str → option str → option A) :
  Re.ignorecase fl = true →
  Re.run fl (Re.lits_of p) s cap k
  = if startswith (lower s) (lower p) then k (drop (length p) s) cap else None.
Proof.
  intros Hic. revert s. induction p as [|c p IH]; intros s; [done|].
  cbn [Re.lits_of foldr Re.run]. fold (Re.lits_of p).
  destruct s as [|d s]; [done|].
  cbn [Re.atom_matches lower map startswith length drop]. rewrite Hic.
  destruct (Ascii.eqb (lower_char c) (lower_char d)); [apply IH | done].
Qed.

Lemma not_gt_matches (fl : Re.flags) (c : ascii) :
  Re.atom_matches fl not_gt c = negb (Ascii.eqb c ">"%char).
Proof.
  destruct fl as [[] dot];
    destruct c as [[] [] [] [] [] [] [] []]; reflexivity.
Qed.

(** A greedy repetition stops at the first character it cannot take when
    the continuation accepts there. *)
Lemma star_greedy_stop {A} (p : ascii → bool) (taken rest : str)
    (k : str → option A) (r : A) :
  Forall (fun c => p c = true) taken →
  match rest with c :: _ => p c = false | [] => True end →
  k rest = Some r →
  Re.star_greedy p (taken ++ rest) k = Some r.
Proof.
  intros Htaken Hstop Hr. induction Htaken as [|c taken Hc _ IH].
  - destruct rest as [|c rest]; [done|]. cbn [app Re.star_greedy]. by rewrite Hstop.
  - cbn [app Re.star_greedy]. by rewrite Hc, IH.
Qed.

(** A lazy repetition stops at the first place where the continuation
    accepts. *)
Lemma star_lazy_first {A} (p : ascii → bool) (taken rest : str)
    (k : str → option A) (r : A) :
  Forall (fun c => p c = true) taken →
  (∀ a1 a2, taken = a1 ++ a2 → a2 ≠ [] → k (a2 ++ rest) = None) →
  k rest = Some r →
  Re.star_lazy p (taken ++ rest) k = Some r.
Proof.
  intros Htaken Hnone Hr. induction Htaken as [|c taken Hc _ IH].
  - destruct rest as [|c rest]; cbn [app Re.star_lazy]; by rewrite Hr.
  - pose proof (Hnone [] (c :: taken) eq_refl ltac:(done)) as Hhere.
    cbn [app Re.star_lazy] in *. rewrite Hhere, Hc. apply IH.
    intros a1 a2 -> Ha2. by apply (Hnone (c :: a1) a2).
Qed.

Lemma search_from_skip (fl : Re.flags) (r : Re.regex) (skipped rest : str)
    (pos : nat) :
  (∀ a1 a2, skipped = a1 ++ a2 → a2 ≠ [] → Re.match_at fl r (a2 ++ rest) = None) →
  Re.search_from fl r pos (skipped ++ rest)
  = Re.search_from fl r (pos + length skipped) rest.
Proof.
  revert pos. induction skipped as [|c skipped IH]; intros pos Hnone.
  - cbn [app length]. by rewrite Nat.add_0_r.
  - pose proof (Hnone [] (c :: skipped) eq_refl ltac:(done)) as Hhere.
    cbn [app Re.search_from] in *. rewrite Hhere.
    rewrite IH; [f_equal; cbn [length]; lia|].
    intros a1 a2 -> Ha2. by apply (Hnone (c :: a1) a2).
Qed.

(** Before its first occurrence a text does not start anywhere. *)
Lemma first_occurrence_skips (sub a b : str) :
  first_occurrence (a ++ b) sub (length a) →
  ∀ a1 a2, a = a1 ++ a2 → a2 ≠ [] → startswith (a2 ++ b) sub = false.
Proof.
  intros [_ Hmin] a1 a2 -> Ha2. apply not_true_iff_false.
  intros [rest Hs]%startswith_spec.
  apply (Hmin (length a1)).
  - rewrite length_app. destruct a2; [done | cbn; lia].
  - exists a1, rest. split; [|done]. by rewrite <- app_assoc, Hs.
Qed.

Lemma find_first_occurrence (s sub : str) (i : nat) :
  find s sub = Z.of_nat i → first_occurrence s sub i.
Proof.
  intros Hfind. destruct (find_found s sub) as (j & Hj & Hocc); [lia|].
  by replace i with j by lia.
Qed.

Lemma element_re_no_match (open_lit close_lit s : str) :
  startswith (lower s) (lower open_lit) = false →
  Re.match_at ic_dotall (element_re open_lit close_lit) s = None.
Proof.
  intros Hs. unfold Re.match_at, element_re, Re.seq.
  cbn [foldr Re.run]. rewrite run_lits_ic by done. by rewrite Hs.
Qed.

Lemma element_re_match (open_lit close_lit tag attrs inner close after : str) :
  lower tag = lower open_lit →
  lower close = lower close_lit →
  ¬ ">"%char ∈ attrs →
  first_occurrence (lower (inner ++ close ++ after)) (lower close_lit) (length inner) →
  ∃ n, Re.match_at ic_dotall (element_re open_lit close_lit)
         (tag ++ attrs ++ ">"%char :: inner ++ close ++ after)
       = Some (n, Some inner).
Proof.
  intros Htag Hclose Hattrs Hend.
  assert (Hlen : ∀ a b : str, lower a = lower b → length a = length b).
  { intros a b H. by rewrite <- (lower_length a), H, lower_length. }
  eexists. unfold Re.match_at, element_re, Re.seq, Re.lits.
  cbn [foldr Re.run]. rewrite run_lits_ic by done.
  rewrite lower_app, Htag, startswith_app.
  rewrite <- (Hlen _ _ Htag), drop_app_length.
  apply star_greedy_stop.
  { apply Forall_forall. intros c Hc. rewrite not_gt_matches.
    apply negb_true_iff, Ascii.eqb_neq. by intros ->. }
  { by rewrite not_gt_matches. }
  cbn [py list_ascii_of_string Re.lits_of foldr Re.run Re.atom_matches
       Re.ignorecase ic_dotall].
  rewrite Ascii.eqb_refl.
  apply star_lazy_first.
  { apply Forall_forall. by intros c _. }
  { intros a1 a2 Hsplit Ha2. rewrite run_lits_ic by done.
    rewrite lower_app in Hend. rewrite <- (lower_length inner) in Hend.
    rewrite lower_app.
    rewrite (first_occurrence_skips _ (lower inner) (lower (close ++ after)) Hend
               (lower a1) (lower a2)); [done | by rewrite Hsplit, lower_app |].
    destruct a2; [done | discriminate]. }
  rewrite run_lits_ic by done.
  rewrite lower_app, Hclose, startswith_app.
  do 3 f_equal.
  replace (length (inner ++ close ++ after) - length (close ++ after))%nat
    with (length inner) by (rewrite (length_app inner); lia).
  apply take_app_length.
Qed.

(** The title and heading patterns on a page whose first start tag of the
    kind is followed by an end tag: the match is that element and the
    group the text up to the first end tag. *)
Lemma element_re_search (open_lit close_lit before tag attrs inner close after : str) :
  lower tag = lower open_lit →
  lower close = lower close_lit →
  ¬ ">"%char ∈ attrs →
  first_occurrence (lower (before ++ tag ++ attrs ++ ">"%char :: inner ++ close ++ after))
    (lower open_lit) (length before) →
  first_occurrence (lower (inner ++ close ++ after)) (lower close_lit) (length inner) →
  ∃ m, Re.search_from ic_dotall (element_re open_lit close_lit) 0
         (before ++ tag ++ attrs ++ ">"%char :: inner ++ close ++ after) = Some m
       ∧ Re.m_group1 m = Some inner.
Proof.
  intros Htag Hclose Hattrs Hopen Hend.
  rewrite search_from_skip.
  2:{ intros a1 a2 Hsplit Ha2. apply element_re_no_match.
      rewrite lower_app in Hopen. rewrite <- (lower_length before) in Hopen.
      rewrite lower_app.
      apply (first_occurrence_skips _ (lower before) _ Hopen (lower a1) (lower a2));
        [by rewrite Hsplit, lower_app|].
      destruct a2; [done | discriminate]. }
  destruct (element_re_match open_lit close_lit tag attrs inner close after)
    as [n Hmatch]; [done..|].
  destruct (tag ++ attrs ++ ">"%char :: inner ++ close ++ after) as [|c page] eqn:Hpage;
    cbn [Re.search_from]; rewrite Hmatch; by eexists.
Qed.

Lemma title_re_shape : title_re = element_re (py "<title") (py "</title>").
Proof. reflexivity. Qed.

Lemma h1_re_shape : h1_re = element_re (py "<h1") (py "</h1>").
Proof. reflexivity. Qed.

(** X17.  On a page whose first [<title] (in any letter case) opens a tag
    that closes with [>], and on which a [</title>] follows,
    [extract_title] returns the text between that tag and the first
    [</title>] after it, entities resolved by [html.unescape] and the
    whitespace at both ends removed. *)
Theorem extract_title_spec (before tag attrs inner close after : str) :
  lower tag = py "<title" →
  lower close = py "</title>" →
  ¬ ">"%char ∈ attrs →
  find (lower (before ++ tag ++ attrs ++ ">"%char :: inner ++ close ++ after))
    (py "<title") = len before →
  find (lower (inner ++ close ++ after)) (py "</title>") = len inner →
  extract_title (before ++ tag ++ attrs ++ ">"%char :: inner ++ close ++ after)
  = Returned (strip (html_unescape inner)).
Proof.
  intros Htag Hclose Hattrs Hopen%find_first_occurrence Hend%find_first_occurrence.
  destruct (element_re_search (py "<title") (py "</title>")
              before tag attrs inner close after) as (m & Hm & Hgroup); [done..|].
  unfold extract_title, Re.search. rewrite title_re_shape.
  change (Re.compiles (element_re (py "<title") (py "</title>"))) with true.
  cbn [rbind]. rewrite Hm. unfold Re.group1. by rewrite Hgroup.
Qed.

Lemma tag_re_no_match (c : ascii) (s : str) :
  c ≠ "<"%char → Re.match_at Re.no_flags tag_re (c :: s) = None.
Proof.
  intros Hc. unfold Re.match_at, tag_re, Re.seq, Re.lits.
  cbn [foldr Re.run]. rewrite run_lits.
  cbn [py list_ascii_of_string startswith].
  destruct (Ascii.eqb "<" c) eqn:E; [|done].
  apply Ascii.eqb_eq in E. congruence.
Qed.

Lemma tag_re_match (inside rest : str) :
  inside ≠ [] → ¬ ">"%char ∈ inside →
  ∃ g, Re.match_at Re.no_flags tag_re ("<"%char :: inside ++ ">"%char :: rest)
       = Some (S (S (length inside)), g).
Proof.
  intros Hne Hfree. destruct inside as [|c inside]; [done|].
  eexists. unfold Re.match_at, tag_re, Re.seq, Re.lits, Re.plus.
  cbn [foldr Re.run]. rewrite run_lits.
  cbn [py list_ascii_of_string startswith length drop app Re.run].
  rewrite Ascii.eqb_refl, not_gt_matches.
  replace (Ascii.eqb c ">"%char) with false.
  2:{ symmetry. apply Ascii.eqb_neq. intros ->. apply Hfree. left. }
  cbn [negb]. apply star_greedy_stop.
  { apply Forall_forall. intros d Hd. rewrite not_gt_matches.
    apply negb_true_iff, Ascii.eqb_neq. intros ->. apply Hfree. by right. }
  { by rewrite not_gt_matches. }
  rewrite run_lits. cbn [py list_ascii_of_string startswith length drop].
  rewrite Ascii.eqb_refl. cbn [Re.run]. do 2 f_equal.
  change (drop 0 rest) with rest. rewrite !length_app. cbn [length]. lia.
Qed.

Lemma sub_loop_skip (fl : Re.flags) (r : Re.regex) (repl skipped rest : str) :
  Re.sub_loop fl r repl (length skipped) (skipped ++ rest)
  = Re.sub_loop fl r repl 0 rest.
Proof. induction skipped as [|c skipped IH]; [by destruct rest | done]. Qed.

(** [re.sub(r"<[^>]+>", " ", ...)] puts a blank for every tag and keeps
    the text. *)
Lemma sub_tags (pieces : list piece) :
  forallb piece_ok pieces = true →
  Re.sub_loop Re.no_flags tag_re (py " ") 0 (concat (map piece_markup pieces))
  = concat (map piece_text pieces).
Proof.
  induction pieces as [|p pieces IH]; [done|].
  cbn [forallb map concat]. intros [Hp Hrest]%andb_true_iff.
  specialize (IH Hrest).
  destruct p as [text | inside]; cbn [piece_markup piece_text piece_ok] in *.
  - apply negb_true_iff, bool_decide_eq_false in Hp.
    induction text as [|c text IHt]; [done|].
    apply not_elem_of_cons in Hp as [Hc Hp].
    cbn [app Re.sub_loop]. rewrite tag_re_no_match by done.
    by rewrite (IHt Hp).
  - apply andb_true_iff in Hp as [Hne Hfree].
    apply truthy_true in Hne. apply negb_true_iff, bool_decide_eq_false in Hfree.
    destruct (tag_re_match inside (concat (map piece_markup pieces)) Hne Hfree)
      as [g Hmatch].
    cbn [app]. rewrite <- app_assoc. cbn [app Re.sub_loop]. rewrite Hmatch.
    pose proof (sub_loop_skip Re.no_flags tag_re (py " ") (inside ++ [">"%char])
                  (concat (map piece_markup pieces))) as Hskip.
    rewrite length_app, Nat.add_1_r, <- app_assoc in Hskip. cbn [app] in Hskip.
    by rewrite Hskip, IH.
Qed.

(** X18.  On a page whose first [<h1] (in any letter case) opens a tag
    that closes with [>] and is followed by an [</h1>], [extract_h1] takes
    the markup up to the first [</h1>], puts a blank in the place of every
    tag in it, collapses the whitespace, resolves entities with
    [html.unescape] and removes the whitespace at both ends. *)
Theorem extract_h1_spec (before tag attrs : str) (pieces : list piece)
    (close after : str) :
  lower tag = py "<h1" →
  lower close = py "</h1>" →
  ¬ ">"%char ∈ attrs →
  forallb piece_ok pieces = true →
  find (lower (before ++ tag ++ attrs
               ++ ">"%char :: concat (map piece_markup pieces) ++ close ++ after))
    (py "<h1") = len before →
  find (lower (concat (map piece_markup pieces) ++ close ++ after)) (py "</h1>")
    = len (concat (map piece_markup pieces)) →
  extract_h1 (before ++ tag ++ attrs
              ++ ">"%char :: concat (map piece_markup pieces) ++ close ++ after)
  = Returned (strip (html_unescape
                       (collapse_ws (concat (map piece_text pieces))))).
Proof.
  intros Htag Hclose Hattrs Hpieces
    Hopen%find_first_occurrence Hend%find_first_occurrence.
  destruct (element_re_search (py "<h1") (py "</h1>")
              before tag attrs (concat (map piece_markup pieces)) close after)
    as (m & Hm & Hgroup); [done..|].
  unfold extract_h1, Re.search, Re.sub. rewrite h1_re_shape.
  change (Re.compiles (element_re (py "<h1") (py "</h1>"))) with true.
  change (Re.compiles tag_re) with true.
  cbn [rbind]. rewrite Hm. unfold Re.group1. rewrite Hgroup.
  cbn [default rbind id]. by rewrite sub_tags.
Qed.

End Elements.

Section ElementExamples.
Import HeadingExample.

Lemma extract_title_spec_witness :
  extract_title (Platform0 := FetchExample.platform)
    (before ++ py "<TITLE" ++ py " lang='en'" ++ ">"%char :: title_text
     ++ py "</Title>" ++ between ++ after)
  = Returned (py "Ann Lee | Coach").
Proof.
  apply (extract_title_spec (Platform0 := FetchExample.platform)
           before (py "<TITLE") (py " lang='en'") title_text (py "</Title>")
           (between ++ after)).
  - reflexivity.
  - reflexivity.
  - apply (bool_decide_unpack _). vm_compute. reflexivity.
  - vm_compute. reflexivity.
  - vm_compute. reflexivity.
Defined.

Lemma extract_h1_spec_witness :
  extract_h1 (Platform0 := FetchExample.platform)
    (before ++ py "<H1" ++ py " id='top'" ++ ">"%char
     :: concat (map piece_markup heading) ++ py "</h1>" ++ after)
  = Returned (py "Ann Lee Executive > Coach").
Proof.
  apply (extract_h1_spec (Platform0 := FetchExample.platform)
           before (py "<H1") (py " id='top'") heading (py "</h1>") after).
  - reflexivity.
  - reflexivity.
  - apply (bool_decide_unpack _). vm_compute. reflexivity.
  - reflexivity.
  - vm_compute. reflexivity.
  - vm_compute. reflexivity.
Defined.

End ElementExamples.

(** ** What can end a run of [build_candidates] *)

Section Robustness.
Context {World : Type} `{!Platform World}.







Section Loops.
Variable profile_link : str → result str.





End Loops.


End Robustness.

Section RobustnessExamples.
Import PipelineExample.


End RobustnessExamples.

(** ** The tables of leads *)

Section Tables.
Context {World : Type} `{!Platform World}.
Variable creatable : str → bool.
Variable sheets_service : str → list (list str) → World → option str * World.

Lemma lead_rows (leads : list Lead) (written : list (list str)) :
  fold_left (fun written lead => written ++ [lead_cells lead]) leads written
  = written ++ map lead_cells leads.
Proof.
  revert written. induction leads as [|lead leads IH]; intros written; cbn.
  - by rewrite app_nil_r.
  - by rewrite IH, <- app_assoc.
Qed.

(** X20.  When [write_csv] returns, the file holds the header and then
    one record of seven cells per lead, in the order of the leads, and
    two leads give the same record only if they are equal;
    [write_google_sheet] hands the same table to the sheet.  For a path
    that names no directory [write_csv] raises on every file system. *)
Theorem lead_tables (leads : list Lead) (path title : str) (w : World) :
  (∀ written,
     write_csv creatable leads path = Some written →
     written = LEAD_HEADER :: map lead_cells leads
     ∧ Forall (fun record => length record = 7%nat) written
     ∧ write_google_sheet sheets_service leads title w
       = match sheets_service title written w with
         | (Some spreadsheet_id, w') =>
             (Some (py "https://docs.google.com/spreadsheets/d/" ++ spreadsheet_id),
              w')
         | (None, w') => (None, w')
         end)
  ∧ (∀ a b, lead_cells a = lead_cells b → a = b)
  ∧ (¬ "/"%char ∈ path → write_csv creatable leads path = None).
Proof.
  split; [|split].
  - unfold write_csv. destruct (makedirs creatable (dirname path)); [|done].
    intros written [= <-]. rewrite lead_rows. cbn [app].
    split; [done|]. split.
    + constructor; [done|]. apply Forall_forall.
      intros record (lead & <- & _)%list_elem_of_In%in_map_iff. done.
    + unfold write_google_sheet. by rewrite lead_rows.
  - intros [] []. cbn. by intros [= -> -> -> -> -> -> ->].
  - intros Hbare. unfold write_csv. by rewrite dirname_bare.
Qed.

End Tables.
